(** * gophish-tools: the import (reconciliation) and export (aggregation) engines

    A shallow embedding of [src/tools/gophish_import.py] and
    [src/tools/gophish_export.py].

    - Python values that travel through the tools (JSON documents, the
      dictionaries produced by [as_dict()]) are values of [pyval]; a [dict]
      is a [gmap string pyval].
    - A Python exception is a value of [exn]; code that may raise returns a
      [result].
    - The remote Gophish server is not part of the repository: the import
      code is written against an arbitrary server (a state type with the
      REST operations as functions), and every call it issues is recorded in
      a call log together with the answer it got.
    - The [while True] loops of the import have no bound in the source; the
      model gives them one ([fuel]) and keeps running out of it apart from
      returning and raising.
    - [hashlib.sha256], [datetime.strptime]/[strftime], [re.fullmatch] and
      [str.split] are library functions the tools call; they are modelled
      here after their definitions (FIPS 180-4, CPython's [_strptime] and
      [re]) on byte strings.  [json.dump] is modelled by what its default
      encoder accepts.  [httpagentparser.detect] is a parameter.

    The definitions come first: the Python values, the library functions,
    the two tools, the vocabulary of the statements and sample data.  The
    facts follow, and at the end the statements at work on the samples. *)

From Stdlib Require Import ZArith QArith Qcanon String Ascii List Lia.
From stdpp Require Import gmap strings list.

(* ===================================================================== *)
(** ** Python values, exceptions and results *)
(* ===================================================================== *)

Module Py.

(** A naive [datetime.datetime] (no tzinfo); [strptime] with the format
    used by the tools never produces microseconds. *)
Record datetime : Type := mkdt {
  year : Z; month : Z; day : Z;
  hour : Z; minute : Z; second : Z
}.

#[warnings="-register-all"] Inductive pyval : Type :=
| VNone
| VBool (b : bool)
| VInt (z : Z)
| VFloat (q : Qc)
| VStr (s : string)
| VDatetime (d : datetime)
| VList (l : list pyval)
| VDict (d : gmap string pyval).

(** The exceptions the tools can meet.  [GophishError] is
    [gophish.models.Error] (it carries the server's message);
    [OtherError] stands for any exception of another class raised by the
    client library (connection failures and the like). *)
Inductive exn : Type :=
| KeyError (key : string)
| IndexError
| ValueError
| TypeError
| AttributeError
| GophishError (message : string)
| OtherError (descr : string).

Inductive result (A : Type) : Type :=
| Ok (a : A)
| Raise (e : exn).
Arguments Ok {A} a.
Arguments Raise {A} e.

Definition rbind {A B} (m : result A) (k : A -> result B) : result B :=
  match m with
  | Ok a => k a
  | Raise e => Raise e
  end.

#[global] Instance result_ret : MRet result := fun _ a => Ok a.
#[global] Instance result_bind : MBind result := fun _ _ k m => rbind m k.

(** [for x in xs: ys.append(f(x))] with a body that may raise. *)
Fixpoint mapR {A B} (f : A -> result B) (xs : list A) : result (list B) :=
  match xs with
  | [] => Ok []
  | x :: xs' => y ← f x; ys ← mapR f xs'; Ok (y :: ys)
  end.

(** [v[k]] for a string key. *)
Definition getitem (v : pyval) (k : string) : result pyval :=
  match v with
  | VDict d => match d !! k with
               | Some x => Ok x
               | None => Raise (KeyError k)
               end
  | _ => Raise TypeError
  end.

(** Iterating over a value in a [for] statement.  The documents give lists
    where the tools iterate; iterating over a [dict] or a [str] is not
    modelled. *)
Definition as_list (v : pyval) : result (list pyval) :=
  match v with
  | VList l => Ok l
  | _ => Raise TypeError
  end.

(** The receiver of a [str] method ([.encode], [.split]). *)
Definition as_str (v : pyval) : result string :=
  match v with
  | VStr s => Ok s
  | _ => Raise AttributeError
  end.

(** [v == "literal"]. *)
Definition eq_str (v : pyval) (s : string) : bool :=
  match v with
  | VStr s' => String.eqb s' s
  | _ => false
  end.

(** Truth value of an object in an [if]. *)
Definition truthy (v : pyval) : bool :=
  match v with
  | VNone => false
  | VBool b => b
  | VInt z => negb (Z.eqb z 0)
  | VFloat q => negb (Qeq_bool q 0)
  | VStr s => negb (String.eqb s "")
  | VDatetime _ => true
  | VList l => negb (Nat.eqb (length l) 0)
  | VDict d => negb (Nat.eqb (size d) 0)
  end.

(** [s.split(sep)] for a one-character separator: the pieces between the
    occurrences of [sep], one more than there are occurrences. *)
Fixpoint split (sep : ascii) (s : string) : list string :=
  match s with
  | EmptyString => [EmptyString]
  | String c s' =>
      if Ascii.eqb c sep then EmptyString :: split sep s'
      else match split sep s' with
           | h :: t => String c h :: t
           | [] => [String c EmptyString]
           end
  end.

(** [l[i]]: [IndexError] out of range. *)
Definition index {A} (l : list A) (i : nat) : result A :=
  match l !! i with
  | Some x => Ok x
  | None => Raise IndexError
  end.

Fixpoint count_char (c : ascii) (s : string) : nat :=
  match s with
  | EmptyString => 0
  | String c' s' => (if Ascii.eqb c' c then 1 else 0) + count_char c s'
  end.

End Py.

(* ===================================================================== *)
(** ** [hashlib.sha256(...).hexdigest()] *)
(* ===================================================================== *)

(** SHA-256 as FIPS 180-4 defines it, on the bytes of the string (a Rocq
    [string] is the byte sequence that [.encode("utf-8")] yields), rendered
    as 64 lower-case hexadecimal digits. *)
Module SHA256.
Local Open Scope Z_scope.

Definition w32 (x : Z) : Z := x mod 2 ^ 32.
Definition rotr (n x : Z) : Z := Z.lor (Z.shiftr x n) (w32 (Z.shiftl x (32 - n))).
Definition shr (n x : Z) : Z := Z.shiftr x n.
Definition Ch (x y z : Z) : Z :=
  Z.lxor (Z.land x y) (Z.land (Z.lxor x 0xffffffff) z).
Definition Maj (x y z : Z) : Z :=
  Z.lxor (Z.lxor (Z.land x y) (Z.land x z)) (Z.land y z).
Definition Sigma0 x := Z.lxor (Z.lxor (rotr 2 x) (rotr 13 x)) (rotr 22 x).
Definition Sigma1 x := Z.lxor (Z.lxor (rotr 6 x) (rotr 11 x)) (rotr 25 x).
Definition sigma0 x := Z.lxor (Z.lxor (rotr 7 x) (rotr 18 x)) (shr 3 x).
Definition sigma1 x := Z.lxor (Z.lxor (rotr 17 x) (rotr 19 x)) (shr 10 x).

(** The first [n] prime numbers. *)
Definition is_prime (p : Z) : bool :=
  (2 <=? p) && forallb (fun d => negb (p mod d =? 0))
                 (map Z.of_nat (seq 2 (Z.to_nat (Z.sqrt p) - 1))).

Definition primes (n : nat) : list Z :=
  firstn n (List.filter is_prime (map Z.of_nat (seq 2 400))).

(** The integer cube root of [n], searched bit by bit below [2 ^ bits]. *)
Fixpoint cube_root (bits : nat) (n r : Z) : Z :=
  match bits with
  | O => r
  | S b =>
      let c := r + 2 ^ Z.of_nat b in
      cube_root b n (if c * c * c <=? n then c else r)
  end.

(** The round constants: the first 32 bits of the fractional parts of the
    cube roots of the first 64 primes. *)
Definition K : list Z :=
  map (fun p => w32 (cube_root 36 (p * 2 ^ 96) 0)) (primes 64).

(** The initial hash value: the first 32 bits of the fractional parts of the
    square roots of the first 8 primes. *)
Definition H0 : list Z :=
  map (fun p => w32 (Z.sqrt (p * 2 ^ 64))) (primes 8).

Definition next_word (win : list Z) : Z :=
  w32 (sigma1 (nth 14 win 0) + nth 9 win 0 + sigma0 (nth 1 win 0) + nth 0 win 0).

Fixpoint schedule (n : nat) (win : list Z) : list Z :=
  match n with
  | O => []
  | S n' =>
      match win with
      | [] => []
      | w0 :: rest => w0 :: schedule n' (rest ++ [next_word win])
      end
  end.

Definition round (st : list Z) (kw : Z * Z) : list Z :=
  match st with
  | [a; b; c; d; e; f; g; h] =>
      let T1 := h + Sigma1 e + Ch e f g + fst kw + snd kw in
      let T2 := Sigma0 a + Maj a b c in
      [w32 (T1 + T2); a; b; c; w32 (d + T1); e; f; g]
  | _ => st
  end.

Definition compress (h : list Z) (block : list Z) : list Z :=
  let st := fold_left round (combine K (schedule 64 block)) h in
  map (fun p => w32 (fst p + snd p)) (combine h st).

Fixpoint be_words (fuel : nat) (bs : list Z) : list Z :=
  match fuel, bs with
  | S fuel', b0 :: b1 :: b2 :: b3 :: rest =>
      (Z.shiftl b0 24 + Z.shiftl b1 16 + Z.shiftl b2 8 + b3) :: be_words fuel' rest
  | _, _ => []
  end.

Fixpoint blocks (fuel : nat) (ws : list Z) : list (list Z) :=
  match fuel, ws with
  | S fuel', _ :: _ => firstn 16 ws :: blocks fuel' (skipn 16 ws)
  | _, _ => []
  end.

Definition be_bytes (n : nat) (x : Z) : list Z :=
  map (fun i => Z.shiftr x (8 * Z.of_nat i) mod 256) (rev (seq 0 n)).

Definition pad (msg : list Z) : list Z :=
  let len := Z.of_nat (length msg) in
  msg ++ [0x80] ++ repeat 0 (Z.to_nat ((55 - len) mod 64)) ++ be_bytes 8 (8 * len).

Definition digest (msg : list Z) : list Z :=
  let bs := pad msg in
  let ws := be_words (length bs) bs in
  fold_left compress (blocks (length ws) ws) H0.

Definition hex_digit (d : Z) : ascii :=
  ascii_of_nat (Z.to_nat (if d <? 10 then 48 + d else 87 + d)).

Definition hex_word (x : Z) : string :=
  string_of_list_ascii
    (map (fun i => hex_digit (Z.shiftr x (4 * Z.of_nat i) mod 16)) (rev (seq 0 8))).

Definition bytes_of_string (s : string) : list Z :=
  map (fun c => Z.of_nat (nat_of_ascii c)) (list_ascii_of_string s).

Definition hexdigest (s : string) : string :=
  fold_right String.append EmptyString (map hex_word (digest (bytes_of_string s))).
End SHA256.


(* ===================================================================== *)
(** ** [datetime.strptime] / [strftime] with ["%Y-%m-%dT%H:%M:%S"] *)
(* ===================================================================== *)

(** CPython turns the format into one regular expression, each directive
    into a group of alternatives (quoted at each parser below), compiled
    with IGNORECASE, matches it at the start of the text and rejects text
    that is left over; the [datetime] constructor then rejects field values
    out of range.  Every failure is a [ValueError].  The alternatives of a
    directive are tried in order; a shorter one is taken only when the
    longer ones do not match, and as every directive of this format is
    followed by a separator that is not a digit, backtracking into a shorter
    alternative can never succeed where the longer one matched.  Texts are
    byte strings: of the characters that [\d] matches, the ASCII digits are
    the ones modelled. *)
Module Datetime.
Import Py.
Local Open Scope Z_scope.

Definition digit (c : ascii) : option Z :=
  let n := Z.of_nat (nat_of_ascii c) in
  if (48 <=? n) && (n <=? 57) then Some (n - 48) else None.

Definition digit_char (d : Z) : ascii := ascii_of_nat (Z.to_nat (48 + d)).

(** Two-character and one-character alternatives of a directive. *)
Definition dd (ok : Z -> Z -> bool) (a b : ascii) : option Z :=
  match digit a, digit b with
  | Some x, Some y => if ok x y then Some (10 * x + y) else None
  | _, _ => None
  end.

Definition d1 (ok : Z -> bool) (a : ascii) : option Z :=
  match digit a with
  | Some x => if ok x then Some x else None
  | None => None
  end.

Definition field (two : ascii -> ascii -> option Z) (one : ascii -> option Z)
    (s : list ascii) : option (Z * list ascii) :=
  match s with
  | a :: b :: rest =>
      match two a b with
      | Some v => Some (v, rest)
      | None => match one a with
                | Some v => Some (v, b :: rest)
                | None => None
                end
      end
  | [a] => match one a with Some v => Some (v, []) | None => None end
  | [] => None
  end.

Definition expect (ok : ascii -> bool) (s : list ascii) : option (list ascii) :=
  match s with
  | c :: rest => if ok c then Some rest else None
  | [] => None
  end.

Definition is_char (c : ascii) : ascii -> bool := Ascii.eqb c.

(** [%Y]: [\d\d\d\d]. *)
Definition dir_Y (s : list ascii) : option (Z * list ascii) :=
  match s with
  | a :: b :: c :: d :: rest =>
      match digit a, digit b, digit c, digit d with
      | Some x3, Some x2, Some x1, Some x0 =>
          Some (1000 * x3 + 100 * x2 + 10 * x1 + x0, rest)
      | _, _, _, _ => None
      end
  | _ => None
  end.

(** [%m]: [1[0-2]|0[1-9]|[1-9]]. *)
Definition dir_m : list ascii -> option (Z * list ascii) :=
  field (dd (fun x y => (x =? 1) && (y <=? 2) || (x =? 0) && (1 <=? y)))
        (d1 (fun x => 1 <=? x)).

(** [%d]: [3[0-1]|[1-2]\d|0[1-9]|[1-9]| [1-9]]. *)
Definition dir_d : list ascii -> option (Z * list ascii) :=
  field (fun a b =>
           match dd (fun x y => (x =? 3) && (y <=? 1)
                                || (1 <=? x) && (x <=? 2)
                                || (x =? 0) && (1 <=? y)) a b with
           | Some v => Some v
           | None => if Ascii.eqb a " " then d1 (fun x => 1 <=? x) b else None
           end)
        (d1 (fun x => 1 <=? x)).

(** [%H]: [2[0-3]|[0-1]\d|\d]. *)
Definition dir_H : list ascii -> option (Z * list ascii) :=
  field (dd (fun x y => (x =? 2) && (y <=? 3) || (x <=? 1))) (d1 (fun _ => true)).

(** [%M]: [[0-5]\d|\d]. *)
Definition dir_M : list ascii -> option (Z * list ascii) :=
  field (dd (fun x _ => x <=? 5)) (d1 (fun _ => true)).

(** [%S]: [6[0-1]|[0-5]\d|\d]. *)
Definition dir_S : list ascii -> option (Z * list ascii) :=
  field (dd (fun x y => (x =? 6) && (y <=? 1) || (x <=? 5))) (d1 (fun _ => true)).

Definition is_leap (y : Z) : bool :=
  (y mod 4 =? 0) && (negb (y mod 100 =? 0) || (y mod 400 =? 0)).

Definition days_in_month (y m : Z) : Z :=
  match m with
  | 2 => if is_leap y then 29 else 28
  | 4 | 6 | 9 | 11 => 30
  | _ => 31
  end.

(** What the [datetime] constructor accepts. *)
Definition valid (t : datetime) : bool :=
  (1 <=? year t) && (year t <=? 9999)
  && (1 <=? month t) && (month t <=? 12)
  && (1 <=? day t) && (day t <=? days_in_month (year t) (month t))
  && (0 <=? hour t) && (hour t <=? 23)
  && (0 <=? minute t) && (minute t <=? 59)
  && (0 <=? second t) && (second t <=? 59).

(** The regular expression of ["%Y-%m-%dT%H:%M:%S"], matched from the
    start of the text; what is left over is returned. *)
Definition match_format (s : list ascii) : option (datetime * list ascii) :=
  '(y, s) ← dir_Y s;
  s ← expect (is_char "-") s;
  '(m, s) ← dir_m s;
  s ← expect (is_char "-") s;
  '(d, s) ← dir_d s;
  s ← expect (fun c => is_char "T" c || is_char "t" c) s;
  '(H, s) ← dir_H s;
  s ← expect (is_char ":") s;
  '(M, s) ← dir_M s;
  s ← expect (is_char ":") s;
  '(sec, s) ← dir_S s;
  Some (mkdt y m d H M sec, s).

(** [datetime.strptime(s, "%Y-%m-%dT%H:%M:%S")]. *)
Definition strptime (s : string) : result datetime :=
  match match_format (list_ascii_of_string s) with
  | Some (t, []) => if valid t then Ok t else Raise ValueError
  | _ => Raise ValueError
  end.

Definition pad2 (n : Z) : list ascii :=
  [digit_char (n / 10); digit_char (n mod 10)].

Definition pad4 (n : Z) : list ascii :=
  [digit_char (n / 1000); digit_char (n / 100 mod 10);
   digit_char (n / 10 mod 10); digit_char (n mod 10)].

(** [datetime.strftime(t, "%Y-%m-%dT%H:%M:%S")], every field zero-padded to
    its width (for years below 1000 the padding of [%Y] is left to the C
    library; the dates the tools render come from [strptime]). *)
Definition strftime (t : datetime) : string :=
  string_of_list_ascii
    (pad4 (year t) ++ "-"%char :: pad2 (month t) ++ "-"%char :: pad2 (day t)
     ++ "T"%char :: pad2 (hour t) ++ ":"%char :: pad2 (minute t)
     ++ ":"%char :: pad2 (second t)).

Definition fields (t : datetime) : list Z :=
  [year t; month t; day t; hour t; minute t; second t].

Fixpoint lex (xs ys : list Z) : comparison :=
  match xs, ys with
  | [], [] => Eq
  | [], _ :: _ => Lt
  | _ :: _, [] => Gt
  | x :: xs', y :: ys' =>
      match Z.compare x y with
      | Eq => lex xs' ys'
      | c => c
      end
  end.

Definition compare (a b : datetime) : comparison := lex (fields a) (fields b).

(** [a < b]. *)
Definition lt (a b : datetime) : bool :=
  match compare a b with Lt => true | _ => false end.

(** [n], written with two digits, is read back as [n] by the two-character
    alternatives [two] of a directive. *)
Definition reads_back (two : ascii -> ascii -> option Z) (n : Z) : bool :=
  match two (digit_char (n / 10)) (digit_char (n mod 10)) with
  | Some v => v =? n
  | None => false
  end.

End Datetime.

(** ** Regular expressions and [re.fullmatch] *)
(* ===================================================================== *)

(** The fragment of Python's [re] that the campaign-name pattern uses.  [Dot]
    is [.] without DOTALL: any character but a newline.  With [fullmatch]
    the anchors [^] and [$] of the pattern add nothing: the match already
    starts at the first character and ends after the last one. *)
Module Regex.
Local Open Scope string_scope.

Inductive re : Type :=
| Void
| Eps
| Dot
| Chr (c : ascii)
| Range (lo hi : ascii)
| Cat (r1 r2 : re)
| Alt (r1 r2 : re)
| Star (r : re).

Definition newline : ascii := "010"%char.

Definition in_range (lo hi c : ascii) : bool :=
  (nat_of_ascii lo <=? nat_of_ascii c)%nat && (nat_of_ascii c <=? nat_of_ascii hi)%nat.

(** The strings a pattern matches in full. *)
Inductive lang : re -> string -> Prop :=
| L_Eps : lang Eps ""
| L_Dot c : c <> newline -> lang Dot (String c "")
| L_Chr c : lang (Chr c) (String c "")
| L_Range lo hi c : in_range lo hi c = true -> lang (Range lo hi) (String c "")
| L_Cat r1 r2 s1 s2 : lang r1 s1 -> lang r2 s2 -> lang (Cat r1 r2) (s1 ++ s2)
| L_AltL r1 r2 s : lang r1 s -> lang (Alt r1 r2) s
| L_AltR r1 r2 s : lang r2 s -> lang (Alt r1 r2) s
| L_Star0 r : lang (Star r) ""
| L_StarS r s1 s2 : lang r s1 -> lang (Star r) s2 -> lang (Star r) (s1 ++ s2).

Fixpoint nullable (r : re) : bool :=
  match r with
  | Eps | Star _ => true
  | Void | Dot | Chr _ | Range _ _ => false
  | Cat r1 r2 => nullable r1 && nullable r2
  | Alt r1 r2 => nullable r1 || nullable r2
  end.

(** Brzozowski derivative: what may follow the character [c]. *)
Fixpoint deriv (c : ascii) (r : re) : re :=
  match r with
  | Void | Eps => Void
  | Dot => if Ascii.eqb c newline then Void else Eps
  | Chr c' => if Ascii.eqb c c' then Eps else Void
  | Range lo hi => if in_range lo hi c then Eps else Void
  | Cat r1 r2 =>
      if nullable r1 then Alt (Cat (deriv c r1) r2) (deriv c r2)
      else Cat (deriv c r1) r2
  | Alt r1 r2 => Alt (deriv c r1) (deriv c r2)
  | Star r1 => Cat (deriv c r1) (Star r1)
  end.

(** [re.fullmatch]: the whole string, from its first to its last
    character, is matched. *)
Fixpoint fullmatch (r : re) (s : string) : bool :=
  match s with
  | "" => nullable r
  | String c s' => fullmatch (deriv c r) s'
  end.

Fixpoint lit (s : string) : re :=
  match s with
  | "" => Eps
  | String c s' => Cat (Chr c) (lit s')
  end.

End Regex.

(* ===================================================================== *)
(** ** gophish_export.py *)
(* ===================================================================== *)

Module Exporter.
Import Py.
Local Open Scope string_scope.

(** *** The server as the export reads it *)

(** A [Campaign] model object as [api.campaigns.get(id)] returns it: the
    attributes the summary writer reads, and its [as_dict()]. *)
Record campaign_obj : Type := {
  c_name : string;
  c_template_subject : pyval;
  c_smtp_from_address : pyval;
  c_launch_date : pyval;
  c_completed_date : pyval;
  c_url : pyval;
  c_as_dict : pyval
}.

(** The export only reads: the server is the answers it gives. *)
Record api : Type := {
  (** [api.campaigns.get()] *)
  campaigns_all : result (list campaign_obj);
  (** [api.campaigns.get(campaign_id)] *)
  campaigns_get : pyval -> result campaign_obj;
  (** [api.campaigns.summary(campaign_id=...).stats.clicked] *)
  campaigns_summary_clicked : pyval -> result Z;
  (** [api.templates.get(template_id).as_dict()] *)
  templates_get : pyval -> result pyval
}.

(** *** Records the export produces *)

(** The [click] dictionary of [get_click_data]. *)
Record click : Type := mkClick {
  click_user : string;
  click_source_ip : pyval;
  click_time : pyval;
  click_application : gmap string pyval
}.

(** The [email] dictionary of [get_email_status]. *)
Record email_status : Type := mkStatus {
  st_user : string;
  st_time : pyval;
  st_status : string
}.

(** The [campaign] dictionary of [get_campaign_data]. *)
Record campaign : Type := mkCampaign {
  cd_id : pyval;
  cd_start_time : pyval;
  cd_end_time : pyval;
  cd_url : pyval;
  cd_subject : pyval;
  cd_template : string;
  cd_clicks : list click;
  cd_status : list email_status
}.

(** [hashlib.sha256(v.encode("utf-8")).hexdigest()] *)
Definition sha256_hex (v : pyval) : result string :=
  s ← as_str v; Ok (SHA256.hexdigest s).

(** [rawEvent["details"]["browser"][key]] *)
Definition browser_detail (rawEvent : pyval) (key : string) : result pyval :=
  details ← getitem rawEvent "details";
  browser ← getitem details "browser";
  getitem browser key.

(** [datetime.strptime(v.split(".")[0], "%Y-%m-%dT%H:%M:%S")] *)
Definition strptime_seconds (v : pyval) : result datetime :=
  s ← as_str v;
  whole ← index (split "." s) 0;
  Datetime.strptime whole.

Section WithAgentParser.

(** [httpagentparser.detect]: a third-party library; the export is
    written against whatever it answers. *)
Variable detect : pyval -> result pyval.

Definition get_application (rawEvent : pyval) : result (gmap string pyval) :=
  address ← browser_detail rawEvent "address";
  let application : gmap string pyval := {[ "external_ip" := address ]} in
  userAgent ← browser_detail rawEvent "user-agent";
  report ← detect userAgent;
  platform ← getitem report "platform";
  name ← getitem platform "name";
  let application := <[ "name" := name ]> application in
  report ← detect userAgent;
  platform ← getitem report "platform";
  version ← getitem platform "version";
  let application := <[ "version" := version ]> application in
  Ok application.

(** The body of the loop of [get_click_data], for one event: the click
    to append, if any. *)
Definition click_of_event (rawEvent : pyval) : result (option click) :=
  message ← getitem rawEvent "message";
  if eq_str message "Clicked Link" then
    email ← getitem rawEvent "email";
    user ← sha256_hex email;
    source_ip ← browser_detail rawEvent "address";
    time ← getitem rawEvent "time";
    application ← get_application rawEvent;
    Ok (Some (mkClick user source_ip time application))
  else Ok None.

Fixpoint click_loop (rawEvents : list pyval) (clicks : list click)
    : result (list click) :=
  match rawEvents with
  | [] => Ok clicks
  | rawEvent :: rest =>
      c ← click_of_event rawEvent;
      click_loop rest (match c with
                       | Some click => clicks ++ [click]
                       | None => clicks
                       end)
  end.

(** [api.campaigns.get(campaign_id).as_dict()["timeline"]] *)
Definition timeline (a : api) (campaign_id : pyval) : result (list pyval) :=
  c ← campaigns_get a campaign_id;
  t ← getitem (c_as_dict c) "timeline";
  as_list t.

Definition get_click_data (a : api) (campaign_id : pyval) : result (list click) :=
  rawEvents ← timeline a campaign_id;
  click_loop rawEvents [].

(** The body of the loop of [get_email_status], for one event. *)
Definition status_of_event (rawEvent : pyval) : result (option email_status) :=
  message ← getitem rawEvent "message";
  if eq_str message "Email Sent" then
    email ← getitem rawEvent "email";
    user ← sha256_hex email;
    time ← getitem rawEvent "time";
    Ok (Some (mkStatus user time "SUCCESS"))
  else if eq_str message "Error Sending Email" then
    email ← getitem rawEvent "email";
    user ← sha256_hex email;
    time ← getitem rawEvent "time";
    trimmed ← strptime_seconds time;
    Ok (Some (mkStatus user (VDatetime trimmed) "Failed"))
  else Ok None.

Fixpoint status_loop (rawEvents : list pyval) (status : list email_status)
    : result (list email_status) :=
  match rawEvents with
  | [] => Ok status
  | rawEvent :: rest =>
      e ← status_of_event rawEvent;
      status_loop rest (match e with
                        | Some email => status ++ [email]
                        | None => status
                        end)
  end.

Definition get_email_status (a : api) (campaign_id : pyval)
    : result (list email_status) :=
  rawEvents ← timeline a campaign_id;
  status_loop rawEvents [].

(** [api.templates.get(rawCampaign["template"]["id"]).as_dict()["name"].split("-")[2]] *)
Definition template_token (a : api) (rawCampaign : pyval) : result string :=
  template ← getitem rawCampaign "template";
  template_id ← getitem template "id";
  t ← templates_get a template_id;
  name ← getitem t "name";
  s ← as_str name;
  index (split "-" s) 2.

Definition get_campaign_data (a : api) (campaign_id : pyval) : result campaign :=
  c ← campaigns_get a campaign_id;
  let rawCampaign := c_as_dict c in
  id ← getitem rawCampaign "name";
  start_time ← getitem rawCampaign "launch_date";
  end_time ← getitem rawCampaign "completed_date";
  url ← getitem rawCampaign "url";
  template ← getitem rawCampaign "template";
  subject ← getitem template "subject";
  token ← template_token a rawCampaign;
  clicks ← get_click_data a campaign_id;
  status ← get_email_status a campaign_id;
  Ok (mkCampaign id start_time end_time url subject token clicks status).

(** The loop of [get_campaign_ids]: the ids of the campaigns whose name
    starts with the assessment id. *)
Fixpoint campaign_ids_loop (assessment_id : string) (rawCampaigns : list campaign_obj)
    (campaigns : list pyval) : result (list pyval) :=
  match rawCampaigns with
  | [] => Ok campaigns
  | c :: rest =>
      let campaign := c_as_dict c in
      name ← getitem campaign "name";
      s ← as_str name;
      if String.prefix assessment_id s then
        id ← getitem campaign "id";
        campaign_ids_loop assessment_id rest (campaigns ++ [id])
      else campaign_ids_loop assessment_id rest campaigns
  end.

Definition get_campaign_ids (a : api) (assessment_id : string) : result (list pyval) :=
  rawCampaigns ← campaigns_all a;
  campaign_ids_loop assessment_id rawCampaigns [].

(** [len({click["user"] for click in clicks})] *)
Definition find_unique_target_clicks_count (clicks : list click) : Z :=
  Z.of_nat (size (list_to_set (map click_user clicks) : gset string)).


(** **** The campaign summary *)

(** [re.compile(r"^.*_(?P<level>level-[1-6])$")] *)
Definition level_re : Regex.re :=
  Regex.Cat (Regex.Star Regex.Dot)
    (Regex.Cat (Regex.Chr "_")
       (Regex.Cat (Regex.lit "level-") (Regex.Range "1" "6"))).

(** [regex.fullmatch(campaign.name)] and, on a match, [match["level"]].
    The group is the part of the pattern after the ["_"]; it has a fixed
    width of seven characters and nothing follows it, so what it
    captured is the last seven characters of the name. *)
Definition campaign_level (name : string) : option string :=
  if Regex.fullmatch level_re name
  then Some (substring (String.length name - 7) 7 name)
  else None.

Definition Qc_of_Z (z : Z) : Qc := Q2Qc (inject_Z z).

(** Lines 288-291: [unique_clicks / float(total_clicks)] when
    [total_clicks > 0], else [0.0].  The float is modelled by the exact
    rational. *)
Definition percent_clicks (unique_clicks total_clicks : Z) : Qc :=
  if (total_clicks >? 0)%Z
  then (Qc_of_Z unique_clicks / Qc_of_Z total_clicks)%Qc
  else 0%Qc.

Inductive log_record : Type :=
| LogInfo (msg : string)
| LogWarning (msg : string) (arg : string).

(** A [file_out.write]: a literal text, or a format with its argument. *)
Inductive write : Type :=
| Text (s : string)
| Fmt (fmt : string) (arg : pyval).

(** What [write_campaign_summary] builds up: the summary document
    ([campaign_data], loaded from the template file), the text written
    to the report file and the log. *)
Record summary_state : Type := mkSummary {
  campaign_data : gmap string pyval;
  file_out : list write;
  log : list log_record
}.

(** [campaign_data[level][key] = v] *)
Definition set_level (data : gmap string pyval) (level key : string) (v : pyval)
    : result (gmap string pyval) :=
  match data !! level with
  | Some (VDict d) => Ok (<[ level := VDict (<[ key := v ]> d) ]> data)
  | Some _ => Raise TypeError
  | None => Raise (KeyError level)
  end.

(** [campaign_data[level][key]] *)
Definition get_level (data : gmap string pyval) (level key : string) : result pyval :=
  entry ← getitem (VDict data) level;
  getitem entry key.

Definition nl : string := String "010"%char "".

Definition skip_warning : string :=
  "Encountered campaign (%s) that is unable to be processed for campaign summary export. "
  ++ nl ++ "Campaign name is not properly suffixed with the campaign level number (e.g. '_level-1')"
  ++ nl ++ "Skipping campaign".

(** The body of the loop of [write_campaign_summary], for one campaign. *)
Definition summary_step (a : api) (campaign_id : pyval) (st : summary_state)
    : result summary_state :=
  campaign ← campaigns_get a campaign_id;
  match campaign_level (c_name campaign) with
  | None =>
      Ok (mkSummary (campaign_data st) (file_out st)
            (log st ++ [LogWarning skip_warning (c_name campaign)])%list)
  | Some level =>
      let log1 := (log st ++ [LogInfo level])%list in
      clicks ← get_click_data a campaign_id;
      total_clicks ← campaigns_summary_clicked a campaign_id;
      let unique_clicks := find_unique_target_clicks_count clicks in
      let percent := percent_clicks unique_clicks total_clicks in
      data ← set_level (campaign_data st) level "subject" (c_template_subject campaign);
      data ← set_level data level "sender" (c_smtp_from_address campaign);
      data ← set_level data level "start_date" (c_launch_date campaign);
      data ← set_level data level "end_date" (c_completed_date campaign);
      data ← set_level data level "redirect" (c_url campaign);
      data ← set_level data level "clicks" (VInt total_clicks);
      data ← set_level data level "unique_clicks" (VInt unique_clicks);
      data ← set_level data level "percent_clicks" (VFloat percent);
      subject ← get_level data level "subject";
      sender ← get_level data level "sender";
      start_date ← get_level data level "start_date";
      end_date ← get_level data level "end_date";
      redirect ← get_level data level "redirect";
      n_clicks ← get_level data level "clicks";
      n_unique ← get_level data level "unique_clicks";
      pct ← get_level data level "percent_clicks";
      Ok (mkSummary data
            (app (file_out st)
             [Text nl; Text (String.concat "" (replicate 50 "-"));
              Fmt (nl ++ "Campaign: %s") (VStr (c_name campaign));
              Fmt (nl ++ "Subject: %s") subject;
              Fmt (nl ++ "Sender: %s") sender;
              Fmt (nl ++ "Start Date: %s") start_date;
              Fmt (nl ++ "End Date: %s") end_date;
              Fmt (nl ++ "Redirect: %s") redirect;
              Fmt (nl ++ "Clicks: %i") n_clicks;
              Fmt (nl ++ "Unique Clicks: %i") n_unique;
              Fmt (nl ++ "Percentage Clicks: %f") pct])
            log1)
  end.

Fixpoint summary_loop (a : api) (campaign_ids : list pyval) (st : summary_state)
    : result summary_state :=
  match campaign_ids with
  | [] => Ok st
  | campaign_id :: rest =>
      st' ← summary_step a campaign_id st;
      summary_loop a rest st'
  end.

(** [template] is the content of [campaign_data.json]. *)
Definition write_campaign_summary (a : api) (assessment_id : string)
    (template : gmap string pyval) : result summary_state :=
  campaign_ids ← get_campaign_ids a assessment_id;
  st ← summary_loop a campaign_ids
         (mkSummary template
            [Text ("Campaigns for Assessment: " ++ assessment_id)]
            [LogInfo "Writing campaign summary report to %s"]);
  Ok (mkSummary (campaign_data st) (file_out st)
        (log st ++ [LogInfo "Writing out summary JSON to %s"])%list).

(** **** The user reports *)

Record user_report_doc : Type := mkReport {
  customer : string;
  doc_assessment : string;
  (** [str(campaign_id)]: the id is kept as it is *)
  doc_campaign : pyval;
  first_report : string;
  total_num_reports : Z
}.

(** The loop that finds the earliest click. *)
Fixpoint first_report_loop (clicks : list click) (first_report : option datetime)
    : result (option datetime) :=
  match clicks with
  | [] => Ok first_report
  | click :: rest =>
      click_time ← strptime_seconds (click_time click);
      first_report_loop rest
        (match first_report with
         | None => Some click_time
         | Some fr => if Datetime.lt click_time fr then Some click_time else Some fr
         end)
  end.

(** The body of the loop of [export_user_reports], for one campaign: the
    document written to the campaign's file. *)
Definition user_report (a : api) (assessment_id : string) (campaign_id : pyval)
    : result user_report_doc :=
  campaign ← get_campaign_data a campaign_id;
  first ← first_report_loop (cd_clicks campaign) None;
  let first_report :=
    match first with
    | Some t => Datetime.strftime t
    | None => "No clicks reported"
    end in
  total ← campaigns_summary_clicked a campaign_id;
  Ok (mkReport "" assessment_id campaign_id first_report total).

Definition export_user_reports (a : api) (assessment_id : string)
    : result (list user_report_doc) :=
  campaign_ids ← get_campaign_ids a assessment_id;
  mapR (user_report a assessment_id) campaign_ids.

End WithAgentParser.

End Exporter.

(* ===================================================================== *)
(** ** Vocabulary for the statements about the export *)
(* ===================================================================== *)

Module ExportSpec.
Import Py Exporter.
Local Open Scope string_scope.

(** The event's message tag is exactly [tag]. *)
Definition message_is (rawEvent : pyval) (tag : string) : bool :=
  match getitem rawEvent "message" with
  | Ok m => eq_str m tag
  | Raise _ => false
  end.

Definition is_click (rawEvent : pyval) : bool := message_is rawEvent "Clicked Link".

Definition is_send (rawEvent : pyval) : bool :=
  message_is rawEvent "Email Sent" || message_is rawEvent "Error Sending Email".

(** The record carries the SHA-256 identifier of the event's email. *)
Definition anonymized (rawEvent : pyval) (user : string) : Prop :=
  exists email, getitem rawEvent "email" = Ok (VStr email)
                /\ user = SHA256.hexdigest email.

Definition click_of (rawEvent : pyval) (c : click) : Prop :=
  anonymized rawEvent (click_user c).

Definition status_of (rawEvent : pyval) (s : email_status) : Prop :=
  anonymized rawEvent (st_user s)
  /\ ((message_is rawEvent "Email Sent" = true /\ st_status s = "SUCCESS")
      \/ (message_is rawEvent "Error Sending Email" = true /\ st_status s = "Failed")).

(** The click keeps the raw timestamp. *)
Definition click_time_raw (rawEvent : pyval) (c : click) : Prop :=
  getitem rawEvent "time" = Ok (click_time c).

(** A send success keeps the raw timestamp; a send failure records the
    [datetime] parsed from what precedes the first ["."] of the raw text. *)
Definition status_time (rawEvent : pyval) (s : email_status) : Prop :=
  if message_is rawEvent "Email Sent"
  then getitem rawEvent "time" = Ok (st_time s)
  else exists raw whole t,
      getitem rawEvent "time" = Ok (VStr raw)
      /\ head (split "." raw) = Some whole
      /\ Datetime.strptime whole = Ok t
      /\ st_time s = VDatetime t.

(** An event that [get_click_data] can process: it has a message tag and,
    if it is a click, the fields of a click. *)
Definition click_ready (detect : pyval -> result pyval) (rawEvent : pyval) : Prop :=
  exists message,
    getitem rawEvent "message" = Ok message
    /\ (is_click rawEvent = true ->
        exists email address time app,
          getitem rawEvent "email" = Ok (VStr email)
          /\ browser_detail rawEvent "address" = Ok address
          /\ getitem rawEvent "time" = Ok time
          /\ get_application detect rawEvent = Ok app).

(** An event that [get_email_status] can process: it has a message tag and,
    if it is a send status, an email and a time, which for a failure is a
    text that parses. *)
Definition status_ready (rawEvent : pyval) : Prop :=
  exists message,
    getitem rawEvent "message" = Ok message
    /\ (is_send rawEvent = true ->
        exists email time,
          getitem rawEvent "email" = Ok (VStr email)
          /\ getitem rawEvent "time" = Ok time
          /\ (message_is rawEvent "Email Sent" = false ->
              exists t, strptime_seconds time = Ok t)).

(** The claim about undetected platforms, as the specification words it:
    the application record is produced and has no platform fields. *)
Definition platform_fields_omitted (r : result (gmap string pyval)) : Prop :=
  exists app, r = Ok app /\ app !! "name" = None /\ app !! "version" = None.

(** What [httpagentparser.detect] answers when it recognises nothing. *)
Definition no_platform_report : pyval :=
  VDict {[ "platform" := VDict (<[ "version" := VNone ]> {[ "name" := VNone ]}) ]}.

(** The name ends with ["_level-N"], [N] one of [1] .. [6]. *)
Definition has_level_suffix (name : string) : Prop :=
  exists prefix d,
    name = prefix ++ "_level-" ++ String d ""
    /\ Regex.in_range "1" "6" d = true.

(** [m] is the earliest of [times]. *)
Definition earliest (m : datetime) (times : list datetime) : Prop :=
  m ∈ times /\ forall t, t ∈ times -> Datetime.lt t m = false.

(** One round of the loop that keeps the earliest click seen. *)
Definition keep_earliest (first_report : option datetime) (t : datetime) : option datetime :=
  match first_report with
  | None => Some t
  | Some fr => if Datetime.lt t fr then Some t else Some fr
  end.

End ExportSpec.

(* ===================================================================== *)
(** ** gophish_import.py *)
(* ===================================================================== *)

Module Importer.
Import Py.
Local Open Scope string_scope.

(** *** The server as the import drives it *)

(** The four kinds of resource that are created or replaced by name. *)
Inductive kind : Type := Page | Group | Template | SMTP.

(** [api.pages], [api.groups], [api.templates], [api.smtp]; [api.campaigns]. *)
Inductive endpoint : Type :=
| Of (k : kind)
| Campaigns.

(** A model object of the client library ([Page], [Group], [Template],
    [SMTP], [Campaign]): its [id] ([None] until the server assigns one), its
    [name] and its other attributes.  Names are strings. *)
Record model : Type := mkModel {
  m_id : option Z;
  m_name : string;
  m_attrs : gmap string pyval
}.

Definition id_value (id : option Z) : pyval :=
  match id with
  | Some z => VInt z
  | None => VNone
  end.

(** The object as a value embedded in another one. *)
Definition model_value (m : model) : pyval :=
  VDict (<[ "name" := VStr (m_name m) ]> (<[ "id" := id_value (m_id m) ]> (m_attrs m))).

(** The server: any state, with the three operations of an endpoint.  Each
    answers with a value or an exception and may change the state. *)
Record server (S : Type) : Type := mkServer {
  post : endpoint -> model -> S -> result model * S;
  get : endpoint -> S -> result (list model) * S;
  delete : endpoint -> option Z -> S -> result unit * S
}.
Arguments post {S} _ _ _ _.
Arguments get {S} _ _ _.
Arguments delete {S} _ _ _ _.

(** A call the import issued, with the answer it got. *)
Inductive entry : Type :=
| Posted (ep : endpoint) (m : model) (answer : result model)
| Listed (ep : endpoint) (answer : result (list model))
| Deleted (ep : endpoint) (id : option Z) (answer : result unit).

(** The state of a run: the server and the calls issued so far. *)
Record world (S : Type) : Type := mkWorld {
  remote : S;
  calls : list entry
}.
Arguments mkWorld {S} _ _.
Arguments remote {S} _.
Arguments calls {S} _.

(** How a computation ends: it returns, it raises, or the model's loop
    bound is used up (the source's loops have none). *)
Inductive outcome (A : Type) : Type :=
| Returns (a : A)
| Raises (e : exn)
| OutOfFuel.
Arguments Returns {A} a.
Arguments Raises {A} e.
Arguments OutOfFuel {A}.

Definition M (S A : Type) : Type := world S -> outcome A * world S.

Definition retM {S A} (a : A) : M S A := fun w => (Returns a, w).

Definition bindM {S A B} (m : M S A) (k : A -> M S B) : M S B :=
  fun w =>
    match m w with
    | (Returns a, w') => k a w'
    | (Raises e, w') => (Raises e, w')
    | (OutOfFuel, w') => (OutOfFuel, w')
    end.

#[global] Instance M_ret {S} : MRet (M S) := fun _ a => retM a.
#[global] Instance M_bind {S} : MBind (M S) := fun _ _ k m => bindM m k.

Definition of_result {A} (r : result A) : outcome A :=
  match r with
  | Ok a => Returns a
  | Raise e => Raises e
  end.

(** Code that does not talk to the server. *)
Definition lift {S A} (r : result A) : M S A := fun w => (of_result r, w).

(** The message of the conflict [Error] of each kind. *)
Definition name_in_use (k : kind) : string :=
  match k with
  | Page => "Page name already in use"
  | Group => "Group name already in use"
  | Template => "Template name already in use"
  | SMTP => "SMTP name already in use"
  end.

(** A name of the assessment document, as the [name] of a model object. *)
Definition as_name (v : pyval) : result string :=
  match v with
  | VStr s => Ok s
  | _ => Raise TypeError
  end.

(** [d[k] = v] *)
Definition setitem (d : pyval) (k : string) (v : pyval) : result pyval :=
  match d with
  | VDict m => Ok (VDict (<[ k := v ]> m))
  | _ => Raise TypeError
  end.

(** [k in d.keys()] *)
Definition has_key (d : pyval) (k : string) : result bool :=
  match d with
  | VDict m => Ok (match m !! k with Some _ => true | None => false end)
  | _ => Raise AttributeError
  end.

(** *** Building the model objects from the assessment document *)

Definition new_page_of (page : pyval) : result model :=
  name ← getitem page "name";
  name ← as_name name;
  capture_credentials ← getitem page "capture_credentials";
  capture_passwords ← getitem page "capture_passwords";
  html ← getitem page "html";
  redirect_url ← getitem page "redirect_url";
  let attrs : gmap string pyval :=
    <[ "html" := html ]>
      (<[ "capture_passwords" := capture_passwords ]>
         {[ "capture_credentials" := capture_credentials ]}) in
  Ok (mkModel None name
        (if truthy redirect_url then <[ "redirect_url" := redirect_url ]> attrs
         else attrs)).

(** A [User] of a group. *)
Definition new_target_of (tgt : pyval) : result pyval :=
  first_name ← getitem tgt "first_name";
  last_name ← getitem tgt "last_name";
  email ← getitem tgt "email";
  position ← getitem tgt "position";
  let target : gmap string pyval :=
    <[ "email" := email ]>
      (<[ "last_name" := last_name ]> {[ "first_name" := first_name ]}) in
  Ok (VDict (if truthy position then <[ "position" := position ]> target else target)).

Definition new_group_of (group : pyval) : result model :=
  name ← getitem group "name";
  name ← as_name name;
  targets ← getitem group "targets";
  targets ← as_list targets;
  users ← mapR new_target_of targets;
  Ok (mkModel None name {[ "targets" := VList users ]}).

Definition new_template_of (campaign : pyval) : result model :=
  template ← getitem campaign "template";
  name ← getitem template "name";
  name ← as_name name;
  subject ← getitem template "subject";
  html ← getitem template "html";
  text ← getitem template "text";
  Ok (mkModel None name
        (<[ "text" := text ]> (<[ "html" := html ]> {[ "subject" := subject ]}))).

Definition new_smtp_of (campaign : pyval) : result model :=
  smtp ← getitem campaign "smtp";
  name ← getitem smtp "name";
  name ← as_name name;
  host ← getitem smtp "host";
  from_address ← getitem smtp "from_address";
  let attrs : gmap string pyval :=
    <[ "ignore_cert_errors" := VBool true ]>
      (<[ "interface_type" := VStr "SMTP" ]>
         (<[ "from_address" := from_address ]> {[ "host" := host ]})) in
  has_username ← has_key smtp "username";
  has_password ← (if has_username then has_key smtp "password" else Ok false);
  if has_username && has_password then
    username ← getitem smtp "username";
    password ← getitem smtp "password";
    Ok (mkModel None name
          (<[ "password" := password ]> (<[ "username" := username ]> attrs)))
  else Ok (mkModel None name attrs).

Definition new_campaign_of (campaign : pyval) (new_template new_smtp : model)
    : result model :=
  name ← getitem campaign "name";
  name ← as_name name;
  group_name ← getitem campaign "group_name";
  page_name ← getitem campaign "page_name";
  url ← getitem campaign "url";
  launch_date ← getitem campaign "launch_date";
  complete_date ← getitem campaign "complete_date";
  Ok (mkModel None name
        (<[ "completed_date" := complete_date ]>
           (<[ "launch_date" := launch_date ]>
              (<[ "url" := url ]>
                 (<[ "smtp" := model_value new_smtp ]>
                    (<[ "template" := model_value new_template ]>
                       (<[ "page" := VDict {[ "name" := page_name ]} ]>
                          {[ "groups" := VList [VDict {[ "name" := group_name ]}] ]}))))))).

(** What a loader hands back: the assessment's records, or model objects
    of the client library. *)
Inductive returned : Type :=
| Records (l : list pyval)
| Models (l : list model).

Definition returned_value (r : returned) : pyval :=
  match r with
  | Records l => VList l
  | Models l => VList (map model_value l)
  end.

Section WithServer.

Context {S : Type}.
Variable srv : server S.

(** [api.<endpoint>.post(m)], [.get()] and [.delete(id)]: the call is made
    and recorded with its answer. *)
Definition call_post (ep : endpoint) (m : model) : M S model :=
  fun w =>
    let '(answer, s) := post srv ep m (remote w) in
    (of_result answer, mkWorld s (calls w ++ [Posted ep m answer])).

Definition call_get (ep : endpoint) : M S (list model) :=
  fun w =>
    let '(answer, s) := get srv ep (remote w) in
    (of_result answer, mkWorld s (calls w ++ [Listed ep answer])).

Definition call_delete (ep : endpoint) (id : option Z) : M S unit :=
  fun w =>
    let '(answer, s) := delete srv ep id (remote w) in
    (of_result answer, mkWorld s (calls w ++ [Deleted ep id answer])).

(** [for old in olds: if old.name == ...: api.<endpoint>.delete(old.id)] *)
Fixpoint delete_where (ep : endpoint) (same : model -> bool) (olds : list model)
    : M S unit :=
  match olds with
  | [] => mret tt
  | old :: rest =>
      if same old
      then _ ← call_delete ep (m_id old); delete_where ep same rest
      else delete_where ep same rest
  end.

(** The [while True] loop that the source repeats for pages, groups,
    templates and sending profiles.  [listing] is the variable that the
    loop assigns the server's listing to: [old_pages], [templates], [smtps],
    and in [load_groups] the variable [groups] itself. *)
Fixpoint upsert (fuel : nat) (k : kind) (new : model) (listing : option (list model))
    : M S (model * option (list model)) :=
  match fuel with
  | O => fun w => (OutOfFuel, w)
  | Datatypes.S fuel' =>
      fun w =>
        match call_post (Of k) new w with
        | (Returns created, w1) => (Returns (created, listing), w1)
        | (Raises (GophishError message), w1) =>
            if String.eqb message (name_in_use k)
            then (olds ← call_get (Of k);
                  _ ← delete_where (Of k)
                        (fun old => String.eqb (m_name old) (m_name new)) olds;
                  upsert fuel' k new (Some olds)) w1
            else (Raises (GophishError message), w1)
        | (Raises e, w1) => (Raises e, w1)
        | (OutOfFuel, w1) => (OutOfFuel, w1)
        end
  end.

(** The loop of [load_landings] over the assessment's pages; each page
    record gets the [id] of the created page. *)
Fixpoint landings_loop (fuel : nat) (pages : list pyval) : M S (list pyval) :=
  match pages with
  | [] => mret []
  | page :: rest =>
      new_page ← lift (new_page_of page);
      created ← upsert fuel Page new_page None;
      page' ← lift (setitem page "id" (id_value (m_id created.1)));
      rest' ← landings_loop fuel rest;
      mret (page' :: rest')
  end.

Definition load_landings (fuel : nat) (assessment : pyval) : M S returned :=
  pages ← lift (p ← getitem assessment "pages"; as_list p);
  pages' ← landings_loop fuel pages;
  mret (Records pages').

(** The loop of [load_groups] over the assessment's groups.  The loop runs
    over the list it started with; [listing] is what the variable [groups]
    was last assigned inside the loop, if it was. *)
Fixpoint groups_loop (fuel : nat) (groups : list pyval) (listing : option (list model))
    : M S (list pyval * option (list model)) :=
  match groups with
  | [] => mret ([], listing)
  | group :: rest =>
      new_group ← lift (new_group_of group);
      created ← upsert fuel Group new_group listing;
      group' ← lift (setitem group "id" (id_value (m_id created.1)));
      done ← groups_loop fuel rest created.2;
      mret (group' :: done.1, done.2)
  end.

(** [return groups]: the variable names the assessment's list unless the
    loop assigned it a listing. *)
Definition load_groups (fuel : nat) (assessment : pyval) : M S returned :=
  groups ← lift (g ← getitem assessment "groups"; as_list g);
  done ← groups_loop fuel groups None;
  mret (match done.2 with
        | None => Records done.1
        | Some listing => Models listing
        end).

(** The body of the loop of [build_campaigns], for one campaign. *)
Definition build_campaign (fuel : nat) (campaign : pyval) : M S unit :=
  name ← lift (getitem campaign "name");
  new_template ← lift (new_template_of campaign);
  new_template ← upsert fuel Template new_template None;
  new_smtp ← lift (new_smtp_of campaign);
  new_smtp ← upsert fuel SMTP new_smtp None;
  old_campaigns ← call_get Campaigns;
  _ ← delete_where Campaigns (fun old => eq_str name (m_name old)) old_campaigns;
  new_campaign ← lift (new_campaign_of campaign new_template.1 new_smtp.1);
  _ ← call_post Campaigns new_campaign;
  mret tt.

Fixpoint campaigns_loop (fuel : nat) (campaigns : list pyval) : M S unit :=
  match campaigns with
  | [] => mret tt
  | campaign :: rest =>
      _ ← build_campaign fuel campaign;
      campaigns_loop fuel rest
  end.

Definition build_campaigns (fuel : nat) (assessment : pyval) : M S unit :=
  campaigns ← lift (c ← getitem assessment "campaigns"; as_list c);
  campaigns_loop fuel campaigns.

(** The [try] block of [main]. *)
Definition import_assessment (fuel : nat) (assessment : pyval) : M S unit :=
  pages ← load_landings fuel assessment;
  assessment ← lift (setitem assessment "pages" (returned_value pages));
  groups ← load_groups fuel assessment;
  assessment ← lift (setitem assessment "groups" (returned_value groups));
  build_campaigns fuel assessment.

(** [main], from the loaded assessment on: the exit code ([None] when the
    loop bound of the model is used up). *)
Definition main (fuel : nat) (assessment : pyval) (w : world S) : option Z * world S :=
  match import_assessment fuel assessment w with
  | (Returns _, w') => (Some 0%Z, w')
  | (Raises _, w') => (Some 1%Z, w')
  | (OutOfFuel, w') => (None, w')
  end.

End WithServer.

End Importer.

(* ===================================================================== *)
(** ** Vocabulary for the statements about the import *)
(* ===================================================================== *)

Module ImportSpec.
Import Py Importer.
Local Open Scope string_scope.

(** The message with which the server refuses a create under a name that
    is taken, for each kind. *)
Definition conflict_message (k : kind) : string :=
  match k with
  | Page => "Page name already in use"
  | Group => "Group name already in use"
  | Template => "Template name already in use"
  | SMTP => "SMTP name already in use"
  end.

(** The conflict [Error] of a kind. *)
Definition conflict (k : kind) : exn := GophishError (conflict_message k).

(** [old] has the name of [new]. *)
Definition same_name (new old : model) : bool := String.eqb (m_name old) (m_name new).

(** A delete by id that the server accepted. *)
Definition deleted_ok (ep : endpoint) (old : model) : entry :=
  Deleted ep (m_id old) (Ok tt).

(** What ends a computation, without the value. *)
Definition ending {A} (o : outcome A) : outcome unit :=
  match o with
  | Returns _ => Returns tt
  | Raises e => Raises e
  | OutOfFuel => OutOfFuel
  end.

(** The calls of one run of the create-or-replace loop for [new], and how
    the run ends.  The number is the count of rounds that the model's loop
    bound allows (the loop of the source has no bound).
    - A run that is allowed a round starts by posting [new].  When the
      server accepts, the run returns the created object.
    - When the server refuses with anything but the conflict [Error] of the
      kind, the run raises that, with no other call.
    - When the server refuses with the conflict [Error], the run lists the
      resources of the kind and deletes, by id and in the order of the
      listing, every one that has the name of [new]; then it starts again,
      with one round less allowed.  An exception of the listing or of a
      delete ends the run.
    - Only a run that is allowed no round ends on the loop bound, and it
      makes no call. *)
Inductive rounds (k : kind) (new : model) : nat -> list entry -> outcome model -> Prop :=
| round_created n created :
    rounds k new (Datatypes.S n) [Posted (Of k) new (Ok created)] (Returns created)
| round_reraised n e :
    e <> conflict k ->
    rounds k new (Datatypes.S n) [Posted (Of k) new (Raise e)] (Raises e)
| round_listing_failed n e :
    rounds k new (Datatypes.S n)
      [Posted (Of k) new (Raise (conflict k)); Listed (Of k) (Raise e)]
      (Raises e)
| round_delete_failed n olds before old after e :
    List.filter (same_name new) olds = (before ++ old :: after)%list ->
    rounds k new (Datatypes.S n)
      ([Posted (Of k) new (Raise (conflict k)); Listed (Of k) (Ok olds)]
       ++ map (deleted_ok (Of k)) before
       ++ [Deleted (Of k) (m_id old) (Raise e)])%list
      (Raises e)
| round_retry n olds tr out :
    rounds k new n tr out ->
    rounds k new (Datatypes.S n)
      ([Posted (Of k) new (Raise (conflict k)); Listed (Of k) (Ok olds)]
       ++ map (deleted_ok (Of k)) (List.filter (same_name new) olds)
       ++ tr)%list
      out
| round_out_of_fuel :
    rounds k new 0 [] OutOfFuel.



Definition created_of (o : outcome (model * option (list model))) : outcome model :=
  match o with
  | Returns r => Returns r.1
  | Raises e => Raises e
  | OutOfFuel => OutOfFuel
  end.

Definition is_campaign_post (e : entry) : bool :=
  match e with
  | Posted Campaigns _ _ => true
  | _ => false
  end.

(** Every campaign create in the log comes right after a listing of the
    campaigns and the accepted deletion of each listed campaign that has
    the name of the new one. *)
Definition guarded (log : list entry) : Prop :=
  forall before m answer after,
    log = (before ++ Posted Campaigns m answer :: after)%list ->
    exists earlier olds,
      before = (earlier ++ Listed Campaigns (Ok olds)
                  :: map (deleted_ok Campaigns) (List.filter (same_name m) olds))%list.

(** The record of the assessment got the id that the server gave to the
    object created from it, in a call of the log. *)
Definition id_captured (k : kind) (new_of : pyval -> result model) (log : list entry)
    (record record' : pyval) : Prop :=
  exists new created,
    new_of record = Ok new
    /\ In (Posted (Of k) new (Ok created)) log
    /\ setitem record "id" (id_value (m_id created)) = Ok record'.

Definition kind_eqb (a b : kind) : bool :=
  match a, b with
  | Page, Page | Group, Group | Template, Template | SMTP, SMTP => true
  | _, _ => false
  end.

Definition endpoint_eqb (a b : endpoint) : bool :=
  match a, b with
  | Of k, Of k' => kind_eqb k k'
  | Campaigns, Campaigns => true
  | _, _ => false
  end.

(** The last listing of the endpoint [ep] that a log shows answered, or
    [init] when it shows none. *)
Fixpoint last_listing (ep : endpoint) (log : list entry) (init : option (list model))
    : option (list model) :=
  match log with
  | [] => init
  | Listed ep' (Ok olds) :: rest =>
      last_listing ep rest (if endpoint_eqb ep ep' then Some olds else init)
  | _ :: rest => last_listing ep rest init
  end.

(** [w'] continues [w] with calls that create no campaign. *)
Definition quietly_extends {S} (w w' : world S) : Prop :=
  exists tr, calls w' = (calls w ++ tr)%list
             /\ Forall (fun e => is_campaign_post e = false) tr.

(** A computation that creates no campaign. *)
Definition quiet {S A} (m : M S A) : Prop := forall w, quietly_extends w (m w).2.

(** A computation that keeps the log guarded. *)
Definition keeps_guard {S A} (m : M S A) : Prop :=
  forall w, guarded (calls w) -> guarded (calls (m w).2).

End ImportSpec.

(* ===================================================================== *)
(** ** gophish_export.py: the targets, the campaigns and [main] *)
(* ===================================================================== *)

Module ExportRun.
Import Py Exporter.
Local Open Scope string_scope.

(** [api.groups] as the export reads it: group objects are only looked at
    through [as_dict()]. *)
Record groups_api : Type := {
  (** [group.as_dict()] for each [group] of [api.groups.get()] *)
  groups_all : result (list pyval);
  (** [api.groups.get(group_id).as_dict()] *)
  groups_get : pyval -> result pyval
}.

(** [any(campaign.name.startswith(assessment_id) for campaign in allCampaigns)] *)
Definition assessment_exists (a : api) (assessment_id : string) : result bool :=
  allCampaigns ← campaigns_all a;
  Ok (existsb (fun campaign => String.prefix assessment_id (c_name campaign))
        allCampaigns).

(** The loop of [get_group_ids]. *)
Fixpoint group_ids_loop (assessment_id : string) (rawGroup : list pyval)
    (groups : list pyval) : result (list pyval) :=
  match rawGroup with
  | [] => Ok groups
  | group :: rest =>
      name ← getitem group "name";
      s ← as_str name;
      if String.prefix assessment_id s then
        id ← getitem group "id";
        group_ids_loop assessment_id rest (app groups [id])
      else group_ids_loop assessment_id rest groups
  end.

Definition get_group_ids (g : groups_api) (assessment_id : string)
    : result (list pyval) :=
  rawGroup ← groups_all g;
  group_ids_loop assessment_id rawGroup [].

(** [k in d] for a dictionary [d].  Where the export asks, [d["email"]]
    has been read before, so [d] is a dictionary. *)
Definition contains (d : pyval) (k : string) : result bool :=
  match d with
  | VDict m => Ok (match m !! k with Some _ => true | None => false end)
  | _ => Raise TypeError
  end.

(** The body of the inner loop of [export_targets]: the [target]
    dictionary built from one [raw_target]. *)
Definition target_of (assessment_id : string) (raw_target : pyval) : result pyval :=
  email ← getitem raw_target "email";
  id ← sha256_hex email;
  let no_labels : gmap string pyval := ∅ in
  let target : gmap string pyval :=
    <[ "customer_defined_labels" := VDict no_labels ]> {[ "id" := VStr id ]} in
  has_position ← contains raw_target "position";
  if (has_position : bool) then
    position ← getitem raw_target "position";
    let labels : gmap string pyval := <[ assessment_id := VList [position] ]> no_labels in
    Ok (VDict (<[ "customer_defined_labels" := VDict labels ]> target))
  else Ok (VDict target).

Fixpoint targets_loop (assessment_id : string) (raw_targets : list pyval)
    (targets : list pyval) : result (list pyval) :=
  match raw_targets with
  | [] => Ok targets
  | raw_target :: rest =>
      target ← target_of assessment_id raw_target;
      targets_loop assessment_id rest (app targets [target])
  end.

(** [api.groups.get(group_id).as_dict()["targets"]] *)
Definition raw_targets_of (g : groups_api) (group_id : pyval) : result (list pyval) :=
  group ← groups_get g group_id;
  raw_targets ← getitem group "targets";
  as_list raw_targets.

Fixpoint group_targets_loop (g : groups_api) (assessment_id : string)
    (groupIDs : list pyval) (targets : list pyval) : result (list pyval) :=
  match groupIDs with
  | [] => Ok targets
  | group_id :: rest =>
      raw_targets ← raw_targets_of g group_id;
      targets ← targets_loop assessment_id raw_targets targets;
      group_targets_loop g assessment_id rest targets
  end.

Definition export_targets (g : groups_api) (assessment_id : string)
    : result (list pyval) :=
  groupIDs ← get_group_ids g assessment_id;
  group_targets_loop g assessment_id groupIDs [].

Section WithAgentParser.

Variable detect : pyval -> result pyval.

(** [[get_campaign_data(api, campaign_id) for campaign_id in campaignIDs]] *)
Definition export_campaigns (a : api) (assessment_id : string)
    : result (list campaign) :=
  campaignIDs ← get_campaign_ids a assessment_id;
  mapR (get_campaign_data detect a) campaignIDs.

(** *** The dictionaries behind the records *)

Definition click_value (c : click) : pyval :=
  VDict (<[ "application" := VDict (click_application c) ]>
           (<[ "time" := click_time c ]>
              (<[ "source_ip" := click_source_ip c ]>
                 {[ "user" := VStr (click_user c) ]}))).

Definition status_value (e : email_status) : pyval :=
  VDict (<[ "status" := VStr (st_status e) ]>
           (<[ "time" := st_time e ]> {[ "user" := VStr (st_user e) ]})).

Definition campaign_value (c : campaign) : pyval :=
  VDict (<[ "status" := VList (map status_value (cd_status c)) ]>
           (<[ "clicks" := VList (map click_value (cd_clicks c)) ]>
              (<[ "template" := VStr (cd_template c) ]>
                 (<[ "subject" := cd_subject c ]>
                    (<[ "url" := cd_url c ]>
                       (<[ "end_time" := cd_end_time c ]>
                          (<[ "start_time" := cd_start_time c ]>
                             {[ "id" := cd_id c ]}))))))).

(** *** [json.dump] *)

(** What the default encoder of [json] takes: [None], booleans, numbers,
    strings, lists and dictionaries with string keys, of such values.  A
    [datetime] is none of them. *)
Fixpoint json_serializable (v : pyval) : bool :=
  match v with
  | VDatetime _ => false
  | VList l => forallb json_serializable l
  | VDict d => map_fold (fun _ x rest => json_serializable x && rest) true d
  | _ => true
  end.

(** [json.dump(v, fp, indent=4)]: the document written, or the
    [TypeError] of the encoder. *)
Definition json_dump (v : pyval) : result pyval :=
  if json_serializable v then Ok v else Raise TypeError.

(** *** [main] *)

(** A file that the export has written and closed. *)
Inductive output : Type :=
(** [data_<assessment_id>.json] *)
| DataFile (doc : pyval)
(** [<assessment_id>_<campaign_id>_user_report_doc.json] *)
| UserReportFile (doc : user_report_doc)
(** [<assessment_id>_summary_<now>.txt] *)
| SummaryText (text : list write)
(** [<assessment_id>_campaign_data.json] *)
| SummaryJson (data : gmap string pyval).

(** How the process ends: [main] returns, [sys.exit(code)], or an
    exception that nothing catches. *)
Inductive ending : Type :=
| Done
| Exit (code : Z)
| Uncaught (e : exn).

(** The loop of [export_user_reports] with the file it writes in each
    round: a round that raises leaves the files of the rounds before. *)
Fixpoint user_reports_loop (a : api) (assessment_id : string)
    (campaign_ids : list pyval) (written : list output)
    : list output * result unit :=
  match campaign_ids with
  | [] => (written, Ok tt)
  | campaign_id :: rest =>
      match user_report detect a assessment_id campaign_id with
      | Ok doc =>
          user_reports_loop a assessment_id rest (app written [UserReportFile doc])
      | Raise e => (written, Raise e)
      end
  end.

(** [export_user_reports] with the files it writes. *)
Definition export_user_reports_files (a : api) (assessment_id : string)
    (written : list output) : list output * result unit :=
  match get_campaign_ids a assessment_id with
  | Ok campaign_ids => user_reports_loop a assessment_id campaign_ids written
  | Raise e => (written, Raise e)
  end.

(** The assessment document that [main] dumps. *)
Definition assessment_dict (targets : list pyval) (campaigns : list campaign) : pyval :=
  VDict (<[ "campaigns" := VList (map campaign_value campaigns) ]>
           {[ "targets" := VList targets ]}).

(** [main], from the connected [api] on.  [template] is the content of
    [campaign_data.json]. *)
Definition main (a : api) (g : groups_api) (assessment_id : string)
    (template : gmap string pyval) : list output * ending :=
  match assessment_exists a assessment_id with
  | Raise e => ([], Uncaught e)
  | Ok false => ([], Exit 1)
  | Ok true =>
      match (targets ← export_targets g assessment_id;
             campaigns ← export_campaigns a assessment_id;
             json_dump (assessment_dict targets campaigns)) with
      | Raise e => ([], Uncaught e)
      | Ok doc =>
          match export_user_reports_files a assessment_id [DataFile doc] with
          | (written, Raise e) => (written, Uncaught e)
          | (written, Ok _) =>
              match write_campaign_summary detect a assessment_id template with
              | Raise e => (written, Uncaught e)
              | Ok st =>
                  match json_dump (VDict (campaign_data st)) with
                  | Raise e => (app written [SummaryText (file_out st)], Uncaught e)
                  | Ok _ =>
                      (app written [SummaryText (file_out st);
                                   SummaryJson (campaign_data st)], Done)
                  end
              end
          end
      end
  end.

End WithAgentParser.

End ExportRun.

(* ===================================================================== *)
(** ** Vocabulary for the statements about a whole run *)
(* ===================================================================== *)

Module RunSpec.
Import Py Exporter ExportSpec ExportRun Importer ImportSpec.
Local Open Scope string_scope.

(** [text] starts with [start]. *)
Definition starts_with (start text : string) : Prop :=
  exists rest, text = start ++ rest.

(** The dictionary of a campaign or of a group has a name, a string, that
    starts with [assessment_id]. *)
Definition named_for (assessment_id : string) (d : pyval) : bool :=
  match getitem d "name" with
  | Ok (VStr s) => String.prefix assessment_id s
  | _ => false
  end.

(** The campaign object and its [as_dict()] agree on the name, and the
    dictionary has the id. *)
Definition consistent (c : campaign_obj) : Prop :=
  getitem (c_as_dict c) "name" = Ok (VStr (c_name c))
  /\ exists id, getitem (c_as_dict c) "id" = Ok id.

(** The labels of an exported target: the position under the assessment
    id when the raw target has the key, else none. *)
Definition labels_of (assessment_id : string) (raw_target : pyval) : gmap string pyval :=
  match getitem raw_target "position" with
  | Ok position => {[ assessment_id := VList [position] ]}
  | Raise _ => ∅
  end.

(** [target] is what the export keeps of [raw_target]: the SHA-256
    identifier of the email and the labels, and nothing else. *)
Definition exported_target (assessment_id : string) (raw_target target : pyval) : Prop :=
  exists email,
    getitem raw_target "email" = Ok (VStr email)
    /\ target = VDict (<[ "customer_defined_labels" :=
                            VDict (labels_of assessment_id raw_target) ]>
                         {[ "id" := VStr (SHA256.hexdigest email) ]}).

(** The timeline has an event that reports a send failure. *)
Definition has_send_failure (events : list pyval) : bool :=
  existsb (fun ev => message_is ev "Error Sending Email") events.

(** The campaign of the user report and the campaign of the data file
    are the same one. *)
Definition reports_on (a : api) (doc : user_report_doc) (c : campaign) : Prop :=
  exists campaign_obj,
    campaigns_get a (doc_campaign doc) = Ok campaign_obj
    /\ getitem (c_as_dict campaign_obj) "name" = Ok (cd_id c).

(** The times of the clicks, parsed as the user report parses them. *)
Definition click_times (clicks : list click) : result (list datetime) :=
  mapR (fun k => strptime_seconds (click_time k)) clicks.

(** The endpoint a call went to. *)
Definition entry_endpoint (e : entry) : endpoint :=
  match e with
  | Posted ep _ _ | Listed ep _ | Deleted ep _ _ => ep
  end.

(** A call of the create-or-replace loop for [new] on the endpoint of
    [k], given the listings [seen] so far: a create of [new], a listing,
    or the delete of a listed resource that has the name of [new]. *)
Definition own_call (k : kind) (new : model) (seen : list model) (e : entry) : Prop :=
  match e with
  | Posted ep m _ => ep = Of k /\ m = new
  | Listed ep _ => ep = Of k
  | Deleted ep id _ =>
      ep = Of k /\ exists old, In old seen /\ m_name old = m_name new /\ m_id old = id
  end.

(** Every call of the trace is a call of the loop for [new]; [seen]
    collects what the listings answered. *)
Fixpoint own_calls (k : kind) (new : model) (seen : list model) (tr : list entry) : Prop :=
  match tr with
  | [] => True
  | e :: rest =>
      own_call k new seen e
      /\ own_calls k new
           (match e with
            | Listed _ (Ok olds) => seen ++ olds
            | _ => seen
            end)%list rest
  end.

(** The log shows that the server accepted the object built from the
    record. *)
Definition created_from (k : kind) (new_of : pyval -> result model) (log : list entry)
    (record : pyval) : Prop :=
  exists new created,
    new_of record = Ok new /\ In (Posted (Of k) new (Ok created)) log.

(** The log shows the campaign of the record created, with the template
    and the sending profile as the server answered them. *)
Definition campaign_built (log : list entry) (campaign : pyval) : Prop :=
  exists new_template template new_smtp smtp new_campaign created,
    new_template_of campaign = Ok new_template
    /\ In (Posted (Of Template) new_template (Ok template)) log
    /\ new_smtp_of campaign = Ok new_smtp
    /\ In (Posted (Of SMTP) new_smtp (Ok smtp)) log
    /\ new_campaign_of campaign template smtp = Ok new_campaign
    /\ In (Posted Campaigns new_campaign (Ok created)) log.

End RunSpec.

(* ===================================================================== *)
(** ** A small assessment on a server, to run the export on *)
(* ===================================================================== *)

Module Fixture.
Import Py Exporter ExportSpec.
Local Open Scope string_scope.

Definition dict (items : list (string * pyval)) : pyval := VDict (list_to_map items).

(** The value of a result that is known to be one. *)
Definition value_or {A} (r : result A) (default : A) : A :=
  match r with
  | Ok a => a
  | Raise _ => default
  end.

Definition john : string := "john.doe@domain.test".
Definition jane : string := "jane.smith@domain.test".
Definition bob : string := "bob.ray@domain.test".

Definition event (message email time : string) : pyval :=
  dict [("message", VStr message); ("email", VStr email); ("time", VStr time)].

Definition click_event (email time address agent : string) : pyval :=
  dict [("message", VStr "Clicked Link"); ("email", VStr email); ("time", VStr time);
        ("details",
         dict [("browser",
                dict [("address", VStr address); ("user-agent", VStr agent)])])].

Definition ev_created : pyval :=
  dict [("message", VStr "Campaign Created"); ("time", VStr "2025-01-01T13:00:00.000001Z")].
Definition ev_sent : pyval := event "Email Sent" john "2025-01-01T13:00:05.123456Z".
Definition ev_failed : pyval := event "Error Sending Email" jane "2025-01-01T13:00:06.987654Z".
Definition ev_opened : pyval := event "Email Opened" john "2025-01-01T13:05:00.25Z".
Definition ev_click1 : pyval :=
  click_event john "2025-01-01T13:10:00.5Z" "10.0.0.7" "Mozilla/5.0 (X11; Linux x86_64)".
Definition ev_click2 : pyval :=
  click_event john "2025-01-01T13:09:59.75Z" "10.0.0.8" "curl/8.0".

(** Three targets click; the server's statistics will count two. *)
Definition timeline4 : list pyval :=
  [ev_created;
   click_event john "2025-01-02T09:00:00.1Z" "10.0.0.7" "Mozilla/5.0";
   click_event jane "2025-01-02T09:00:01.2Z" "10.0.0.8" "Mozilla/5.0";
   click_event bob "2025-01-02T09:00:02.3Z" "10.0.0.9" "Mozilla/5.0"].

Definition timeline1 : list pyval :=
  [ev_created; ev_sent; ev_failed; ev_opened; ev_click1; ev_click2].

(** A parser that recognises Linux in every agent string. *)
Definition detect_linux (userAgent : pyval) : result pyval :=
  Ok (dict [("platform", dict [("name", VStr "Linux"); ("version", VNone)]);
            ("os", dict [("name", VStr "Linux")])]).

(** A parser that recognises nothing. *)
Definition detect_nothing (userAgent : pyval) : result pyval := Ok no_platform_report.

Definition campaign_object (id : Z) (name : string) (template_id : Z)
    (events : list pyval) : campaign_obj :=
  {| c_name := name;
     c_template_subject := VStr "Campaign 1";
     c_smtp_from_address := VStr "Camp1 Phish<camp1.phish@bad.domain>";
     c_launch_date := VStr "2025-01-01T13:00:00Z";
     c_completed_date := VStr "2025-01-01T14:00:00Z";
     c_url := VStr "http://bad.domain/camp1";
     c_as_dict :=
       dict [("id", VInt id); ("name", VStr name);
             ("launch_date", VStr "2025-01-01T13:00:00Z");
             ("completed_date", VStr "2025-01-01T14:00:00Z");
             ("url", VStr "http://bad.domain/camp1");
             ("template", dict [("id", VInt template_id); ("subject", VStr "Campaign 1")]);
             ("timeline", VList events)] |}.

Definition campaign1 : campaign_obj := campaign_object 1 "RVXXX1-C1_level-1" 11 timeline1.
Definition campaign2 : campaign_obj := campaign_object 2 "RVXXX1-C2" 11 [ev_created; ev_sent].
Definition campaign3 : campaign_obj := campaign_object 3 "RVXXX1-C3_level-3" 12 [ev_created].
Definition campaign4 : campaign_obj := campaign_object 4 "RVXXX1-C4_level-2" 11 timeline4.

(** The content of [campaign_data.json]: an entry for each level. *)
Definition summary_template : gmap string pyval :=
  list_to_map [("level-1", dict []); ("level-2", dict []); ("level-3", dict []);
               ("level-4", dict []); ("level-5", dict []); ("level-6", dict [])].

Definition summary_start : summary_state := mkSummary summary_template [] [].

Definition demo_api : api :=
  {| campaigns_all := Ok [campaign1; campaign2; campaign3; campaign4];
     campaigns_get := fun id =>
       match id with
       | VInt 1 => Ok campaign1
       | VInt 2 => Ok campaign2
       | VInt 3 => Ok campaign3
       | VInt 4 => Ok campaign4
       | _ => Raise (GophishError "Campaign not found")
       end;
     campaigns_summary_clicked := fun id =>
       match id with
       | VInt 1 => Ok 1%Z
       | VInt 2 | VInt 3 => Ok 0%Z
       | VInt 4 => Ok 2%Z
       | _ => Raise (GophishError "Campaign not found")
       end;
     templates_get := fun id =>
       match id with
       | VInt 11 => Ok (dict [("id", VInt 11); ("name", VStr "RVXXX1-T1-ID")])
       | VInt 12 => Ok (dict [("id", VInt 12); ("name", VStr "RVXXX1-T3")])
       | _ => Raise (GophishError "Template not found")
       end |}.

End Fixture.

(* ===================================================================== *)
(** ** A simulated server, to run the import on *)
(* ===================================================================== *)

(** The server keeps what was created, in creation order, and hands out
    increasing ids.  Creating a page, group, template or sending profile
    under a name that is taken is refused with the conflict [Error] of the
    kind; campaigns may share a name; a resource without a name is refused
    with another [Error]; deleting an unknown id is refused. *)
Module Sim.
Import Py Importer ImportSpec.
Local Open Scope string_scope.

Record state : Type := mkState {
  store : list (endpoint * model);
  next_id : Z
}.

Definition listing (ep : endpoint) (s : state) : list model :=
  map snd (List.filter (fun p => endpoint_eqb (fst p) ep) (store s)).

Definition has_id (id : option Z) (m : model) : bool :=
  match id, m_id m with
  | Some a, Some b => Z.eqb a b
  | _, _ => false
  end.

Definition create (ep : endpoint) (m : model) (s : state) : result model * state :=
  let created := mkModel (Some (next_id s)) (m_name m) (m_attrs m) in
  (Ok created, mkState (store s ++ [(ep, created)]) (next_id s + 1)).

Definition sim_post (ep : endpoint) (m : model) (s : state) : result model * state :=
  if String.eqb (m_name m) "" then (Raise (GophishError "Name not specified"), s)
  else match ep with
       | Of k =>
           if existsb (fun old => String.eqb (m_name old) (m_name m)) (listing ep s)
           then (Raise (GophishError (name_in_use k)), s)
           else create ep m s
       | Campaigns => create ep m s
       end.

Definition sim_get (ep : endpoint) (s : state) : result (list model) * state :=
  (Ok (listing ep s), s).

Definition sim_delete (ep : endpoint) (id : option Z) (s : state) : result unit * state :=
  if existsb (has_id id) (listing ep s)
  then (Ok tt,
        mkState (List.filter (fun p => negb (endpoint_eqb (fst p) ep && has_id id (snd p)))
                   (store s))
                (next_id s))
  else (Raise (GophishError "Not found"), s).

Definition sim : server state := mkServer state sim_post sim_get sim_delete.

(** The campaigns the server holds. *)
Definition campaigns_of (w : world state) : list model := listing Campaigns (remote w).

(** A computation that leaves the server's campaigns as they are. *)
Definition keeps_campaigns {A} (m : M state A) : Prop :=
  forall w, campaigns_of (m w).2 = campaigns_of w.

(** The sample assessment of the test suite. *)
Definition dict (items : list (string * pyval)) : pyval := VDict (list_to_map items).

(** The value of a result that is known to be one. *)
Definition value_or {A} (r : result A) (default : A) : A :=
  match r with
  | Ok a => a
  | Raise _ => default
  end.

Definition target (first_name last_name email position : string) : pyval :=
  dict [("first_name", VStr first_name); ("last_name", VStr last_name);
        ("email", VStr email); ("position", VStr position)].

Definition group1 : pyval :=
  dict [("name", VStr "RVXXX1-G1");
        ("targets", VList [target "John" "Doe" "john.doe@domain.test" "IT";
                           target "Jane" "Smith" "jane.smith@domain.test" "HR"])].

Definition page1 : pyval :=
  dict [("name", VStr "RVXXX1-AutoForward"); ("capture_credentials", VBool true);
        ("capture_passwords", VBool false); ("redirect_url", VStr "redirect.domain");
        ("html", VStr "<html></html>")].

Definition campaign1 : pyval :=
  dict [("name", VStr "RVXXX1-C1_level-1");
        ("launch_date", VStr "01/01/2025 13:00");
        ("complete_date", VStr "01/01/2025 14:00");
        ("url", VStr "http://bad.domain/camp1");
        ("group_name", VStr "RVXXX1-G1");
        ("page_name", VStr "RVXXX1-AutoForward");
        ("template",
         dict [("name", VStr "RVXXX1-T1-ID"); ("subject", VStr "Campaign 1");
               ("html", VStr "<html>Body Test</html>"); ("text", VStr "Body Test")]);
        ("smtp",
         dict [("name", VStr "RVXXX1-SP");
               ("from_address", VStr "Camp1 Phish<camp1.phish@bad.domain>");
               ("host", VStr "postfix:587")])].

Definition assessment1 : pyval :=
  dict [("id", VStr "RVXXX1"); ("pages", VList [page1]); ("groups", VList [group1]);
        ("campaigns", VList [campaign1])].



Definition fresh : world state := mkWorld (mkState [] 1) [].

(** A server on which the assessment was imported before: a group and a
    campaign of the same names are there. *)
Definition old_group : model := mkModel (Some 7%Z) "RVXXX1-G1" ∅.
Definition old_campaign : model := mkModel (Some 3%Z) "RVXXX1-C1_level-1" ∅.
Definition used : world state :=
  mkWorld (mkState [(Of Group, old_group); (Campaigns, old_campaign)] 8) [].

(** The model objects the import builds from the sample records. *)
Definition built (r : result model) : model :=
  match r with
  | Ok m => m
  | Raise _ => mkModel None "" ∅
  end.


End Sim.

(* ===================================================================== *)
(** ** Two assessments on a server, to run the whole export on *)
(* ===================================================================== *)

Module FixtureRun.
Import Py Exporter ExportSpec ExportRun Fixture.
Local Open Scope string_scope.

(** John has a position on record, Jane has none. *)
Definition raw_john : pyval :=
  dict [("id", VInt 31); ("first_name", VStr "John"); ("last_name", VStr "Doe");
        ("email", VStr john); ("position", VStr "IT")].
Definition raw_jane : pyval :=
  dict [("id", VInt 32); ("first_name", VStr "Jane"); ("last_name", VStr "Smith");
        ("email", VStr jane)].
Definition raw_bob : pyval :=
  dict [("id", VInt 33); ("first_name", VStr "Bob"); ("last_name", VStr "Ray");
        ("email", VStr bob); ("position", VStr "HR")].

Definition group21 : pyval :=
  dict [("id", VInt 21); ("name", VStr "RVXXX1-G1"); ("targets", VList [raw_john; raw_jane])].
Definition group22 : pyval :=
  dict [("id", VInt 22); ("name", VStr "RVXXX2-G1");
        ("targets", VList [raw_john; raw_jane; raw_bob])].

Definition demo_groups : groups_api :=
  {| groups_all := Ok [group21; group22];
     groups_get := fun id =>
       match id with
       | VInt 21 => Ok group21
       | VInt 22 => Ok group22
       | _ => Raise (GophishError "Group not found")
       end |}.

(** The second assessment: two campaigns of the same level, no send
    failure. *)
Definition campaign5 : campaign_obj := campaign_object 5 "RVXXX2-C1_level-2" 11 timeline4.
Definition campaign6 : campaign_obj :=
  campaign_object 6 "RVXXX2-C2_level-2" 11 [ev_created; ev_sent; ev_click1].

Definition clean_api : api :=
  {| campaigns_all := Ok [campaign1; campaign5; campaign6];
     campaigns_get := fun id =>
       match id with
       | VInt 1 => Ok campaign1
       | VInt 5 => Ok campaign5
       | VInt 6 => Ok campaign6
       | _ => Raise (GophishError "Campaign not found")
       end;
     campaigns_summary_clicked := fun id =>
       match id with
       | VInt 1 => Ok 1%Z
       | VInt 5 => Ok 3%Z
       | VInt 6 => Ok 1%Z
       | _ => Raise (GophishError "Campaign not found")
       end;
     templates_get := fun id =>
       match id with
       | VInt 11 => Ok (dict [("id", VInt 11); ("name", VStr "RVXXX1-T1-ID")])
       | _ => Raise (GophishError "Template not found")
       end |}.

(** A [campaign_data.json] that has no entry for level 2. *)
Definition template_without_level2 : gmap string pyval :=
  list_to_map [("level-1", dict []); ("level-3", dict [])].

End FixtureRun.

(* ===================================================================== *)
(** ** More records to import *)
(* ===================================================================== *)

Module SimRun.
Import Py Importer ImportSpec Sim.
Local Open Scope string_scope.

(** The value that a computation returned, when it did. *)
Definition returned_or {A} (o : outcome A) (default : A) : A :=
  match o with
  | Returns a => a
  | _ => default
  end.

Definition template1 : pyval :=
  dict [("name", VStr "RVXXX1-T1-ID"); ("subject", VStr "Campaign 1");
        ("html", VStr "<html>Body Test</html>"); ("text", VStr "Body Test")].

(** A sending profile with a username and no password. *)
Definition smtp_user_only : pyval :=
  dict [("name", VStr "RVXXX1-SP");
        ("from_address", VStr "Camp1 Phish<camp1.phish@bad.domain>");
        ("host", VStr "postfix:587"); ("username", VStr "mailer")].

Definition campaign_user_only : pyval :=
  dict [("name", VStr "RVXXX1-C1_level-1");
        ("launch_date", VStr "01/01/2025 13:00");
        ("complete_date", VStr "01/01/2025 14:00");
        ("url", VStr "http://bad.domain/camp1");
        ("group_name", VStr "RVXXX1-G1");
        ("page_name", VStr "RVXXX1-AutoForward");
        ("template", template1); ("smtp", smtp_user_only)].

(** A campaign record without ["page_name"], as the campaign of the test
    suite has none. *)
Definition campaign_no_page : pyval :=
  dict [("name", VStr "RVXXX1-C1_level-1");
        ("launch_date", VStr "01/01/2025 13:00");
        ("completed_date", VStr "01/01/2025 14:00");
        ("url", VStr "http://bad.domain/camp1");
        ("group_name", VStr "RVXXX1-G1");
        ("template", template1);
        ("smtp",
         dict [("name", VStr "RVXXX1-SP");
               ("from_address", VStr "Camp1 Phish<camp1.phish@bad.domain>");
               ("host", VStr "postfix:587")])].

End SimRun.

(* ===================================================================== *)
(** * Facts *)
(* ===================================================================== *)

(** ** Results, strings *)

Section PyFacts.
Import Py.

Lemma rbind_Ok {A B} (m : result A) (k : A -> result B) b :
  rbind m k = Ok b <-> exists a, m = Ok a /\ k a = Ok b.
Proof.
  destruct m as [a|e]; simpl; split.
  - intros H. exists a. auto.
  - intros (a' & Ha & Hk). congruence.
  - discriminate.
  - intros (a' & Ha & _). discriminate.
Qed.

Lemma split_nonempty sep s : split sep s <> [].
Proof.
  destruct s as [|c s]; simpl; [discriminate|].
  destruct (Ascii.eqb c sep); [discriminate|].
  destruct (split sep s); discriminate.
Qed.

Lemma split_length sep s : length (split sep s) = S (count_char sep s).
Proof.
  induction s as [|c s IH]; simpl; [reflexivity|].
  destruct (Ascii.eqb c sep); simpl.
  - now rewrite IH.
  - pose proof (split_nonempty sep s) as Hne.
    destruct (split sep s) as [|h t]; [congruence|]. simpl in *. exact IH.
Qed.

(** The first piece of [s.split(sep)] is what precedes the first [sep]. *)
Lemma split_head_app sep a b :
  count_char sep a = 0 ->
  head (split sep (a ++ String sep b)) = Some a.
Proof.
  induction a as [|c a IH]; simpl; intros Hc.
  - now rewrite Ascii.eqb_refl.
  - destruct (Ascii.eqb c sep); [discriminate|].
    specialize (IH Hc).
    destruct (split sep (a ++ String sep b)) as [|h t]; simpl in *; congruence.
Qed.

Lemma split_head_none sep a :
  count_char sep a = 0 -> split sep a = [a].
Proof.
  induction a as [|c a IH]; simpl; intros Hc; [reflexivity|].
  destruct (Ascii.eqb c sep); [discriminate|].
  now rewrite (IH Hc).
Qed.

End PyFacts.

(** ** SHA-256: the test vectors of FIPS 180-4 *)

Example sha256_empty :
  SHA256.hexdigest "" =
  "e3b0c44298fc1c149afbf4c8996fb92427ae41e4649b934ca495991b7852b855"%string.
Proof. vm_compute. reflexivity. Qed.

Example sha256_abc :
  SHA256.hexdigest "abc" =
  "ba7816bf8f01cfea414140de5dae2223b00361a396177a9cb410ff61f20015ad"%string.
Proof. vm_compute. reflexivity. Qed.

(** ** Dates *)

Section DatetimeFacts.
Import Py Datetime.
Local Open Scope Z_scope.

(** *** The order on dates *)

Lemma lex_refl xs : lex xs xs = Eq.
Proof. induction xs as [|x xs IH]; simpl; [reflexivity|]. now rewrite Z.compare_refl. Qed.

Lemma lex_antisym xs ys : lex ys xs = CompOpp (lex xs ys).
Proof.
  revert ys. induction xs as [|x xs IH]; intros [|y ys]; simpl; try reflexivity.
  rewrite (Z.compare_antisym x y).
  destruct (Z.compare x y); simpl; auto.
Qed.

Lemma lex_Eq xs ys : lex xs ys = Eq -> xs = ys.
Proof.
  revert ys. induction xs as [|x xs IH]; intros [|y ys]; simpl; try discriminate; auto.
  destruct (Z.compare x y) eqn:E; try discriminate.
  apply Z.compare_eq in E. intros H. f_equal; auto.
Qed.

Lemma lex_Lt_trans xs ys zs : lex xs ys = Lt -> lex ys zs = Lt -> lex xs zs = Lt.
Proof.
  revert ys zs. induction xs as [|x xs IH]; intros [|y ys] [|z zs]; simpl;
    try discriminate; auto.
  destruct (Z.compare_spec x y), (Z.compare_spec y z); try discriminate; subst.
  - rewrite Z.compare_refl. apply IH.
  - intros _ _. now rewrite (proj2 (Z.compare_lt_iff _ _) H0).
  - intros _ _. now rewrite (proj2 (Z.compare_lt_iff _ _) H).
  - intros _ _. assert (x < z) as Hxz by lia.
    now rewrite (proj2 (Z.compare_lt_iff _ _) Hxz).
Qed.

Lemma compare_Eq a b : compare a b = Eq -> a = b.
Proof.
  intros H. apply lex_Eq in H. destruct a, b. unfold fields in H. simpl in H.
  congruence.
Qed.

Lemma lt_irrefl a : lt a a = false.
Proof. unfold lt, compare. now rewrite lex_refl. Qed.

Lemma lt_trans a b c : lt a b = true -> lt b c = true -> lt a c = true.
Proof.
  unfold lt, compare. intros H1 H2.
  destruct (lex (fields a) (fields b)) eqn:E1; try discriminate.
  destruct (lex (fields b) (fields c)) eqn:E2; try discriminate.
  now rewrite (lex_Lt_trans _ _ _ E1 E2).
Qed.

Lemma lt_asym a b : lt a b = true -> lt b a = false.
Proof.
  unfold lt, compare. rewrite (lex_antisym (fields a) (fields b)).
  destruct (lex (fields a) (fields b)); simpl; congruence.
Qed.

Lemma lt_total a b : lt a b = false -> lt b a = false -> a = b.
Proof.
  unfold lt. intros H1 H2. apply compare_Eq.
  unfold compare in *. rewrite (lex_antisym (fields a) (fields b)) in H2.
  destruct (lex (fields a) (fields b)); simpl in *; congruence.
Qed.

(** [b] is not before [a], and [c] not before [b]: [c] is not before [a]. *)
Lemma not_lt_trans a b c : lt b a = false -> lt c b = false -> lt c a = false.
Proof.
  intros H1 H2. destruct (lt c a) eqn:E; [|reflexivity].
  destruct (lt a b) eqn:E2.
  - now rewrite (lt_trans _ _ _ E E2) in H2.
  - rewrite (lt_total _ _ E2 H1) in E. congruence.
Qed.

(** *** [strptime] reads back what [strftime] writes *)

Lemma Datetime_range (f : Z -> bool) (lo : Z) (n : nat) :
  forallb f (map (fun i => lo + Z.of_nat i) (seq 0 n)) = true ->
  forall z, lo <= z < lo + Z.of_nat n -> f z = true.
Proof.
  intros H z Hz. rewrite forallb_forall in H. apply H.
  apply in_map_iff. exists (Z.to_nat (z - lo)). split; [lia|].
  apply in_seq. lia.
Qed.

Lemma digit_digit_char d : 0 <= d <= 9 -> digit (digit_char d) = Some d.
Proof.
  intros Hd.
  pose proof (Datetime_range
    (fun d => match digit (digit_char d) with Some v => v =? d | None => false end)
    0 10 eq_refl d ltac:(lia)) as H.
  simpl in H. destruct (digit (digit_char d)); [|discriminate].
  f_equal. lia.
Qed.

Lemma field_two two one a b rest v :
  two a b = Some v -> field two one (a :: b :: rest) = Some (v, rest).
Proof. intros H. simpl. now rewrite H. Qed.

Lemma reads_back_field two one n rest :
  reads_back two n = true -> field two one (pad2 n ++ rest) = Some (n, rest).
Proof.
  unfold reads_back. intros H. simpl.
  destruct (two _ _) as [v|]; [|discriminate].
  apply Z.eqb_eq in H. now subst.
Qed.

Lemma dir_m_pad2 n rest : 1 <= n <= 12 -> dir_m (pad2 n ++ rest) = Some (n, rest).
Proof.
  intros H. apply reads_back_field.
  apply (Datetime_range (reads_back _) 1 12); [vm_compute; reflexivity | lia].
Qed.

Lemma dir_d_pad2 n rest : 1 <= n <= 31 -> dir_d (pad2 n ++ rest) = Some (n, rest).
Proof.
  intros H. apply reads_back_field.
  apply (Datetime_range (reads_back _) 1 31); [vm_compute; reflexivity | lia].
Qed.

Lemma dir_H_pad2 n rest : 0 <= n <= 23 -> dir_H (pad2 n ++ rest) = Some (n, rest).
Proof.
  intros H. apply reads_back_field.
  apply (Datetime_range (reads_back _) 0 24); [vm_compute; reflexivity | lia].
Qed.

Lemma dir_M_pad2 n rest : 0 <= n <= 59 -> dir_M (pad2 n ++ rest) = Some (n, rest).
Proof.
  intros H. apply reads_back_field.
  apply (Datetime_range (reads_back _) 0 60); [vm_compute; reflexivity | lia].
Qed.

Lemma dir_S_pad2 n rest : 0 <= n <= 59 -> dir_S (pad2 n ++ rest) = Some (n, rest).
Proof.
  intros H. apply reads_back_field.
  apply (Datetime_range (reads_back _) 0 60); [vm_compute; reflexivity | lia].
Qed.

Lemma dir_Y_pad4 n rest : 0 <= n <= 9999 -> dir_Y (pad4 n ++ rest) = Some (n, rest).
Proof.
  intros H. unfold dir_Y, pad4. simpl.
  rewrite !digit_digit_char by (Z.div_mod_to_equations; lia).
  do 2 f_equal. Z.div_mod_to_equations. lia.
Qed.

Lemma days_in_month_le y m : days_in_month y m <= 31.
Proof.
  unfold days_in_month.
  repeat match goal with |- context [match ?x with _ => _ end] => destruct x end; lia.
Qed.

Theorem strptime_strftime t : valid t = true -> strptime (strftime t) = Ok t.
Proof.
  intros Hv. pose proof Hv as Hv'. unfold valid in Hv'.
  rewrite !andb_true_iff, !Z.leb_le in Hv'.
  destruct Hv' as (((((((((((Hy1 & Hy2) & Hm1) & Hm2) & Hd1) & Hd2) & HH0) & HH)
                    & HM0) & HM) & HS0) & HS).
  pose proof (days_in_month_le (year t) (month t)) as Hdim.
  unfold strptime, strftime. rewrite list_ascii_of_string_of_list_ascii.
  unfold match_format.
  rewrite dir_Y_pad4 by lia. cbn [mbind option_bind expect is_char Ascii.eqb Bool.eqb].
  rewrite dir_m_pad2 by lia. cbn [mbind option_bind expect is_char Ascii.eqb Bool.eqb].
  rewrite dir_d_pad2 by lia. cbn [mbind option_bind expect is_char Ascii.eqb Bool.eqb orb].
  rewrite dir_H_pad2 by lia. cbn [mbind option_bind expect is_char Ascii.eqb Bool.eqb].
  rewrite dir_M_pad2 by lia. cbn [mbind option_bind expect is_char Ascii.eqb Bool.eqb].
  rewrite <- (app_nil_r (pad2 (second t))).
  rewrite dir_S_pad2 by lia. cbn [mbind option_bind].
  destruct t; simpl in *. now rewrite Hv.
Qed.

End DatetimeFacts.

(** ** Regular expressions: the matcher decides the language *)

Section RegexFacts.
Import Regex.
Local Open Scope string_scope.

Lemma cat_inv r1 r2 w :
  lang (Cat r1 r2) w -> exists s1 s2, w = s1 ++ s2 /\ lang r1 s1 /\ lang r2 s2.
Proof. intros H. inversion H; subst; eauto. Qed.

Lemma nullable_spec r : nullable r = true <-> lang r "".
Proof.
  induction r as [| | |c|lo hi|r1 IH1 r2 IH2|r1 IH1 r2 IH2|r IH]; simpl;
    split; intros H; try discriminate; try (inversion H; fail).
  - constructor.
  - reflexivity.
  - apply andb_true_iff in H as [H1 H2].
    change "" with ("" ++ ""). constructor; tauto.
  - apply cat_inv in H as (s1 & s2 & E & H1 & H2).
    destruct s1; [|discriminate]. destruct s2; [|discriminate].
    apply andb_true_iff; tauto.
  - apply orb_true_iff in H as [H|H]; [apply L_AltL | apply L_AltR]; tauto.
  - apply orb_true_iff. inversion H; subst; tauto.
  - constructor.
  - reflexivity.
Qed.

Lemma star_cons r c s :
  lang (Star r) (String c s) ->
  exists s1 s2, s = s1 ++ s2 /\ lang r (String c s1) /\ lang (Star r) s2.
Proof.
  intros H. remember (Star r) as r' eqn:Er. remember (String c s) as w eqn:Ew.
  revert Er Ew. 
  induction H as [| | | | | | | |r0 s1 s2 H1 _ H2 IH2]; try discriminate.
  intros Er Ew. injection Er as ->.
  destruct s1 as [|c1 s1]; cbv [String.append] in Ew; fold String.append in Ew.
  - apply IH2; auto.
  - injection Ew as -> <-. eauto.
Qed.

Lemma deriv_spec c r s : lang (deriv c r) s <-> lang r (String c s).
Proof.
  revert s. induction r as [| | |c'|lo hi|r1 IH1 r2 IH2|r1 IH1 r2 IH2|r IH];
    intros s; simpl.
  - split; intros H; inversion H.
  - split; intros H; inversion H.
  - destruct (Ascii.eqb_spec c newline) as [->|Hne]; split; intros H;
      inversion H; subst; try congruence; constructor; auto.
  - destruct (Ascii.eqb_spec c c') as [->|Hne]; split; intros H;
      inversion H; subst; try congruence; constructor.
  - destruct (in_range lo hi c) eqn:E; split; intros H;
      inversion H; subst; try congruence; constructor; auto.
  - assert (Hcat : lang (Cat (deriv c r1) r2) s ->
                   lang (Cat r1 r2) (String c s)).
    { intros H. apply cat_inv in H as (s1 & s2 & -> & H1 & H2).
      change (String c (s1 ++ s2)) with (String c s1 ++ s2).
      constructor; [apply IH1|]; auto. }
    assert (Hinv : lang (Cat r1 r2) (String c s) ->
                   lang (Cat (deriv c r1) r2) s
                   \/ (lang r1 "" /\ lang r2 (String c s))).
    { intros H. apply cat_inv in H as (s1 & s2 & E & H1 & H2).
      destruct s1 as [|c1 s1]; cbv [String.append] in E; fold String.append in E.
      - right. subst. split; assumption.
      - injection E as -> ->. left. constructor; [apply IH1|]; auto. }
    destruct (nullable r1) eqn:En.
    + split; intros H.
      * inversion H; subst; auto.
        change (String c s) with ("" ++ String c s). constructor.
        -- now apply nullable_spec. 
        -- now apply IH2.
      * destruct (Hinv H) as [H'|[_ H']]; [now apply L_AltL|].
        apply L_AltR. now apply IH2.
    + split; auto. intros H. destruct (Hinv H) as [H'|[H' _]]; auto.
      apply nullable_spec in H'. congruence.
  - split; intros H; inversion H; subst.
    + apply L_AltL. now apply IH1.
    + apply L_AltR. now apply IH2.
    + apply L_AltL. now apply IH1.
    + apply L_AltR. now apply IH2.
  - split; intros H.
    + apply cat_inv in H as (s1 & s2 & -> & H1 & H2).
      change (String c (s1 ++ s2)) with (String c s1 ++ s2).
      constructor; [apply IH|]; auto.
    + apply star_cons in H as (s1 & s2 & -> & H1 & H2).
      constructor; [apply IH|]; auto.
Qed.

Theorem fullmatch_spec r s : fullmatch r s = true <-> lang r s.
Proof.
  revert r. induction s as [|c s IH]; intros r; simpl.
  - apply nullable_spec.
  - rewrite IH. apply deriv_spec.
Qed.

End RegexFacts.

(* ===================================================================== *)
(** ** The timeline normalizer *)
(* ===================================================================== *)

Section TimelineFacts.
Import Py Exporter ExportSpec.
Local Open Scope string_scope.

Variable detect : pyval -> result pyval.

Lemma bind_Ok {A B} (m : result A) (k : A -> result B) b :
  (m ≫= k) = Ok b -> exists a, m = Ok a /\ k a = Ok b.
Proof. apply rbind_Ok. Qed.

Lemma bind_eq_Ok {A B} (m : result A) (k : A -> result B) a :
  m = Ok a -> (m ≫= k) = k a.
Proof. intros ->. reflexivity. Qed.

Lemma as_str_Ok v s : as_str v = Ok s -> v = VStr s.
Proof. destruct v; simpl; congruence. Qed.

Lemma sha256_hex_Ok v u :
  sha256_hex v = Ok u -> exists e, v = VStr e /\ u = SHA256.hexdigest e.
Proof.
  unfold sha256_hex. intros H. apply bind_Ok in H as (s & Hs & Hu).
  apply as_str_Ok in Hs. exists s. split; congruence.
Qed.

Lemma click_of_event_Some ev c :
  click_of_event detect ev = Ok (Some c) ->
  is_click ev = true /\ click_of ev c /\ click_time_raw ev c
  /\ browser_detail ev "address" = Ok (click_source_ip c)
  /\ get_application detect ev = Ok (click_application c).
Proof.
  unfold click_of_event, is_click, message_is. intros H.
  apply bind_Ok in H as (msg & Hm & H). rewrite Hm.
  destruct (eq_str msg "Clicked Link"); [|discriminate].
  apply bind_Ok in H as (email & He & H).
  apply bind_Ok in H as (user & Hu & H).
  apply bind_Ok in H as (ip & Hip & H).
  apply bind_Ok in H as (time & Ht & H).
  apply bind_Ok in H as (app & Ha & H).
  injection H as <-. simpl.
  apply sha256_hex_Ok in Hu as (e & -> & ->).
  repeat split; auto. exists e. auto.
Qed.

Lemma click_of_event_None ev :
  click_of_event detect ev = Ok None -> is_click ev = false.
Proof.
  unfold click_of_event, is_click, message_is. intros H.
  apply bind_Ok in H as (msg & Hm & H). rewrite Hm.
  destruct (eq_str msg "Clicked Link"); [|reflexivity].
  apply bind_Ok in H as (email & He & H).
  apply bind_Ok in H as (user & Hu & H).
  apply bind_Ok in H as (ip & Hip & H).
  apply bind_Ok in H as (time & Ht & H).
  apply bind_Ok in H as (app & Ha & H). discriminate.
Qed.

(** The loop appends to [clicks], one record per click event, in order. *)
Lemma click_loop_spec evs : forall acc clicks,
  click_loop detect evs acc = Ok clicks ->
  exists new, clicks = (acc ++ new)%list
    /\ Forall2 (fun ev c => click_of ev c /\ click_time_raw ev c
                            /\ browser_detail ev "address" = Ok (click_source_ip c)
                            /\ get_application detect ev = Ok (click_application c))
               (filter (fun ev => is_click ev = true) evs) new.
Proof.
  induction evs as [|ev evs IH]; intros acc clicks H; simpl in H.
  - injection H as <-. exists []. rewrite app_nil_r. split; [reflexivity|constructor].
  - apply bind_Ok in H as (oc & Hoc & H).
    apply IH in H as (new & -> & HF).
    destruct oc as [c|].
    + apply click_of_event_Some in Hoc as (Hc & Hrest).
      exists (c :: new). rewrite <- app_assoc. split; [reflexivity|].
      rewrite filter_cons_True by exact Hc. constructor; auto.
    + apply click_of_event_None in Hoc.
      exists new. split; [reflexivity|].
      rewrite filter_cons_False by congruence. exact HF.
Qed.

Lemma message_is_excl ev a b :
  a <> b -> message_is ev a = true -> message_is ev b = false.
Proof.
  unfold message_is. destruct (getitem ev "message") as [m|]; [|discriminate].
  destruct m; simpl; try discriminate.
  intros Hab Ha. apply String.eqb_eq in Ha. subst.
  now apply String.eqb_neq.
Qed.

Lemma status_of_event_Some ev s :
  status_of_event ev = Ok (Some s) ->
  is_send ev = true /\ status_of ev s /\ status_time ev s.
Proof.
  unfold status_of_event, is_send, status_of, status_time, message_is. intros H.
  apply bind_Ok in H as (msg & Hm & H). rewrite Hm.
  destruct (eq_str msg "Email Sent") eqn:E1.
  - apply bind_Ok in H as (email & He & H).
    apply bind_Ok in H as (user & Hu & H).
    apply bind_Ok in H as (time & Ht & H).
    injection H as <-. simpl.
    apply sha256_hex_Ok in Hu as (e & -> & ->).
    repeat split; auto. exists e. auto.
  - destruct (eq_str msg "Error Sending Email") eqn:E2; [|discriminate].
    apply bind_Ok in H as (email & He & H).
    apply bind_Ok in H as (user & Hu & H).
    apply bind_Ok in H as (time & Ht & H).
    apply bind_Ok in H as (t & Htr & H).
    injection H as <-. simpl.
    apply sha256_hex_Ok in Hu as (e & -> & ->).
    unfold strptime_seconds in Htr.
    apply bind_Ok in Htr as (raw & Hraw & Htr).
    apply bind_Ok in Htr as (whole & Hw & Htr).
    apply as_str_Ok in Hraw. subst time.
    unfold index in Hw.
    destruct (split "." raw) as [|h tl] eqn:Es; simpl in Hw; [discriminate|].
    injection Hw as ->.
    repeat split; auto.
    + exists e. auto.
    + exists raw, whole, t. rewrite Es. auto.
Qed.

Lemma status_of_event_None ev :
  status_of_event ev = Ok None -> is_send ev = false.
Proof.
  unfold status_of_event, is_send, message_is. intros H.
  apply bind_Ok in H as (msg & Hm & H). rewrite Hm.
  destruct (eq_str msg "Email Sent").
  - apply bind_Ok in H as (email & He & H).
    apply bind_Ok in H as (user & Hu & H).
    apply bind_Ok in H as (time & Ht & H). discriminate.
  - destruct (eq_str msg "Error Sending Email"); [|reflexivity].
    apply bind_Ok in H as (email & He & H).
    apply bind_Ok in H as (user & Hu & H).
    apply bind_Ok in H as (time & Ht & H).
    apply bind_Ok in H as (t & Htr & H). discriminate.
Qed.

Lemma status_loop_spec evs : forall acc status,
  status_loop evs acc = Ok status ->
  exists new, status = (acc ++ new)%list
    /\ Forall2 (fun ev s => status_of ev s /\ status_time ev s)
               (filter (fun ev => is_send ev = true) evs) new.
Proof.
  induction evs as [|ev evs IH]; intros acc status H; simpl in H.
  - injection H as <-. exists []. rewrite app_nil_r. split; [reflexivity|constructor].
  - apply bind_Ok in H as (os & Hos & H).
    apply IH in H as (new & -> & HF).
    destruct os as [s|].
    + apply status_of_event_Some in Hos as (Hs & Hrest).
      exists (s :: new). rewrite <- app_assoc. split; [reflexivity|].
      rewrite filter_cons_True by exact Hs. constructor; auto.
    + apply status_of_event_None in Hos.
      exists new. split; [reflexivity|].
      rewrite filter_cons_False by congruence. exact HF.
Qed.

(** On events that have the fields they need, the loops return. *)
Lemma click_loop_total evs :
  Forall (click_ready detect) evs ->
  forall acc, exists clicks, click_loop detect evs acc = Ok clicks.
Proof.
  induction 1 as [|ev evs (msg & Hm & Hc) _ IH]; intros acc; cbn [click_loop]; [eauto|].
  assert (exists c, click_of_event detect ev = Ok c) as (c & Hc').
  { unfold click_of_event. rewrite (bind_eq_Ok _ _ _ Hm).
    unfold is_click, message_is in Hc. rewrite Hm in Hc.
    destruct (eq_str msg "Clicked Link"); [|eauto].
    destruct (Hc eq_refl) as (email & address & time & app & He & Ha & Ht & Happ).
    rewrite (bind_eq_Ok _ _ _ He).
    rewrite (bind_eq_Ok _ _ (SHA256.hexdigest email) eq_refl).
    rewrite (bind_eq_Ok _ _ _ Ha), (bind_eq_Ok _ _ _ Ht), (bind_eq_Ok _ _ _ Happ).
    eauto. }
  rewrite (bind_eq_Ok _ _ _ Hc'). apply IH.
Qed.

Lemma status_loop_total evs :
  Forall status_ready evs ->
  forall acc, exists status, status_loop evs acc = Ok status.
Proof.
  induction 1 as [|ev evs (msg & Hm & Hs) _ IH]; intros acc; cbn [status_loop]; [eauto|].
  assert (exists s, status_of_event ev = Ok s) as (s & Hs').
  { unfold status_of_event. rewrite (bind_eq_Ok _ _ _ Hm).
    unfold is_send, message_is in Hs. rewrite Hm in Hs.
    destruct (eq_str msg "Email Sent") eqn:E1.
    - destruct (Hs eq_refl) as (email & time & He & Ht & _).
      rewrite (bind_eq_Ok _ _ _ He).
      rewrite (bind_eq_Ok _ _ (SHA256.hexdigest email) eq_refl).
      rewrite (bind_eq_Ok _ _ _ Ht). eauto.
    - destruct (eq_str msg "Error Sending Email"); [|eauto].
      destruct (Hs eq_refl) as (email & time & He & Ht & Hp).
      destruct (Hp eq_refl) as (t & Hparse).
      rewrite (bind_eq_Ok _ _ _ He).
      rewrite (bind_eq_Ok _ _ (SHA256.hexdigest email) eq_refl).
      rewrite (bind_eq_Ok _ _ _ Ht), (bind_eq_Ok _ _ _ Hparse). eauto. }
  rewrite (bind_eq_Ok _ _ _ Hs'). apply IH.
Qed.

End TimelineFacts.

Section TimelineClaims.
Import Py Exporter ExportSpec.
Local Open Scope string_scope.

Variable detect : pyval -> result pyval.

(** C3.  For every raw timeline: the click records that [get_click_data]
    emits are, in the order of the timeline, the events whose message is
    exactly "Clicked Link"; the send-status records that [get_email_status]
    emits are, in the order of the timeline, the events whose message is
    exactly "Email Sent" (status SUCCESS) or exactly "Error Sending Email"
    (status Failed); no other event produces a record; and every record
    carries the SHA-256 digest of its event's email. *)
Theorem timeline_classification (rawEvents : list pyval) :
  (forall clicks,
      click_loop detect rawEvents [] = Ok clicks ->
      Forall2 click_of (filter (fun ev => is_click ev = true) rawEvents) clicks)
  /\ (forall status,
         status_loop rawEvents [] = Ok status ->
         Forall2 status_of (filter (fun ev => is_send ev = true) rawEvents) status).
Proof.
  split.
  - intros clicks H. apply click_loop_spec in H as (new & -> & HF). simpl.
    eapply Forall2_impl; [exact HF|]. intros ev c (Hc & _). exact Hc.
  - intros status H. apply status_loop_spec in H as (new & -> & HF). simpl.
    eapply Forall2_impl; [exact HF|]. intros ev s (Hs & _). exact Hs.
Qed.

Lemma digit_char_not_dot d :
  (0 <= d <= 9)%Z -> Ascii.eqb (Datetime.digit_char d) "." = false.
Proof.
  intros Hd.
  pose proof (Datetime_range (fun d => negb (Ascii.eqb (Datetime.digit_char d) "."))
                0 10 eq_refl d ltac:(lia)) as H.
  now apply negb_true_iff in H.
Qed.

(** A rendered date has no ["."]. *)
Lemma strftime_no_dot t :
  Datetime.valid t = true -> count_char "." (Datetime.strftime t) = 0.
Proof.
  intros Hv. unfold Datetime.valid in Hv.
  rewrite !andb_true_iff, !Z.leb_le in Hv.
  destruct Hv as (((((((((((Hy1 & Hy2) & Hm1) & Hm2) & Hd1) & Hd2) & HH0) & HH)
                    & HM0) & HM) & HS0) & HS).
  pose proof (days_in_month_le (year t) (month t)) as Hdim.
  unfold Datetime.strftime, Datetime.pad4, Datetime.pad2. simpl.
  rewrite !digit_char_not_dot by (Z.div_mod_to_equations; lia).
  reflexivity.
Qed.

(** Cutting at the first ["."] and parsing gives back the date the text
    was rendered from, whatever the fraction that follows. *)
Lemma strptime_seconds_fraction t frac :
  Datetime.valid t = true ->
  strptime_seconds (VStr (Datetime.strftime t ++ String "." frac)) = Ok t.
Proof.
  intros Hv. unfold strptime_seconds.
  rewrite (bind_eq_Ok _ _ (Datetime.strftime t ++ String "." frac) eq_refl).
  pose proof (split_head_app "." _ frac (strftime_no_dot t Hv)) as Hh.
  assert (index (split "." (Datetime.strftime t ++ String "." frac)) 0
          = Ok (Datetime.strftime t)) as Hi.
  { unfold index.
    destruct (split "." (Datetime.strftime t ++ String "." frac)) as [|h tl];
      [discriminate|].
    cbn in Hh |- *. congruence. }
  rewrite (bind_eq_Ok _ _ _ Hi). now apply strptime_strftime.
Qed.

(** A raw text without fraction that carries a zone suffix does not parse:
    the export raises and records nothing. *)
Example strptime_seconds_zone_suffix :
  strptime_seconds (VStr "2025-01-01T13:00:06Z") = Raise ValueError
  /\ strptime_seconds (VStr "2025-01-01T13:00:06") = Ok (mkdt 2025 1 1 13 0 6).
Proof. split; vm_compute; reflexivity. Qed.

(** C6.  For every timeline: each click record keeps the raw timestamp of
    its "Clicked Link" event, each SUCCESS record keeps the raw timestamp of
    its "Email Sent" event, and each Failed record of an "Error Sending
    Email" event records the date and time parsed from the raw text cut at
    its first "."; for a raw text that is a date rendered to the second
    followed by "." and any fraction, that is the date to the second. *)
Theorem timestamp_precision (rawEvents : list pyval) :
  (forall clicks,
      click_loop detect rawEvents [] = Ok clicks ->
      Forall2 click_time_raw (filter (fun ev => is_click ev = true) rawEvents) clicks)
  /\ (forall status,
         status_loop rawEvents [] = Ok status ->
         Forall2 status_time (filter (fun ev => is_send ev = true) rawEvents) status)
  /\ (forall t frac,
         Datetime.valid t = true ->
         strptime_seconds (VStr (Datetime.strftime t ++ String "." frac)) = Ok t).
Proof.
  split; [|split].
  - intros clicks H. apply click_loop_spec in H as (new & -> & HF). simpl.
    eapply Forall2_impl; [exact HF|]. intros ev c (_ & Hc & _). exact Hc.
  - intros status H. apply status_loop_spec in H as (new & -> & HF). simpl.
    eapply Forall2_impl; [exact HF|]. intros ev s (_ & Hs). exact Hs.
  - apply strptime_seconds_fraction.
Qed.

(** C7 (as amended).  For every click event whose browser details give an
    address and a user-agent: whatever the parser reports as platform name
    and version is copied into the application record, next to the
    address; the record always has both fields.  When the parser detects no
    platform, its report carries [None] for both, and so does the record:
    the fields are present with value [None], and nothing is raised. *)
Theorem get_application_platform (rawEvent address userAgent report platform name version : pyval) :
  browser_detail rawEvent "address" = Ok address ->
  browser_detail rawEvent "user-agent" = Ok userAgent ->
  detect userAgent = Ok report ->
  getitem report "platform" = Ok platform ->
  getitem platform "name" = Ok name ->
  getitem platform "version" = Ok version ->
  exists app,
    get_application detect rawEvent = Ok app
    /\ app !! "external_ip" = Some address
    /\ app !! "name" = Some name
    /\ app !! "version" = Some version.
Proof.
  intros Ha Hu Hd Hp Hn Hv. unfold get_application.
  rewrite (bind_eq_Ok _ _ _ Ha), (bind_eq_Ok _ _ _ Hu), (bind_eq_Ok _ _ _ Hd),
    (bind_eq_Ok _ _ _ Hp), (bind_eq_Ok _ _ _ Hn), (bind_eq_Ok _ _ _ Hd),
    (bind_eq_Ok _ _ _ Hp), (bind_eq_Ok _ _ _ Hv).
  eexists. split; [reflexivity|]. 
  repeat split; simplify_map_eq; reflexivity.
Qed.

(** [get_application] has no handler: it returns a record only when the
    parser's report had a platform name and version, and then the record
    has both fields. *)
Lemma get_application_fields rawEvent app :
  get_application detect rawEvent = Ok app ->
  is_Some (app !! "name") /\ is_Some (app !! "version").
Proof.
  unfold get_application. intros H.
  apply bind_Ok in H as (address & Ha & H).
  apply bind_Ok in H as (ua & Hu & H).
  apply bind_Ok in H as (report & Hr & H).
  apply bind_Ok in H as (platform & Hp & H).
  apply bind_Ok in H as (name & Hn & H).
  apply bind_Ok in H as (report' & Hr' & H).
  apply bind_Ok in H as (platform' & Hp' & H).
  apply bind_Ok in H as (version & Hv & H).
  injection H as <-. split; simplify_map_eq; eauto.
Qed.

(** The third ["-"]-separated piece exists exactly when there are at least
    two ["-"]. *)
Lemma split_third s :
  match index (split "-" s) 2 with
  | Ok _ => 2 <= count_char "-" s
  | Raise e => e = IndexError /\ count_char "-" s < 2
  end.
Proof.
  unfold index. pose proof (split_length "-" s) as Hl.
  destruct (split "-" s !! 2) as [x|] eqn:E.
  - apply lookup_lt_Some in E. lia.
  - apply lookup_ge_None in E. split; [reflexivity|lia].
Qed.

(** C10.  For every campaign: when [get_campaign_data] returns, the name of
    the campaign's template on the server has at least two "-" and the
    exported [template] field is its third "-"-separated piece; and when the
    lookups before it succeed and the template's name has fewer than two
    "-", [get_campaign_data] raises [IndexError]. *)
Theorem template_name_needs_two_hyphens (a : api) (campaign_id : pyval) :
  (forall c,
      get_campaign_data detect a campaign_id = Ok c ->
      exists co template template_id t name,
        campaigns_get a campaign_id = Ok co
        /\ getitem (c_as_dict co) "template" = Ok template
        /\ getitem template "id" = Ok template_id
        /\ templates_get a template_id = Ok t
        /\ getitem t "name" = Ok (VStr name)
        /\ 2 <= count_char "-" name
        /\ split "-" name !! 2 = Some (cd_template c))
  /\ (forall co id start_time end_time url template subject template_id t name,
         campaigns_get a campaign_id = Ok co ->
         getitem (c_as_dict co) "name" = Ok id ->
         getitem (c_as_dict co) "launch_date" = Ok start_time ->
         getitem (c_as_dict co) "completed_date" = Ok end_time ->
         getitem (c_as_dict co) "url" = Ok url ->
         getitem (c_as_dict co) "template" = Ok template ->
         getitem template "subject" = Ok subject ->
         getitem template "id" = Ok template_id ->
         templates_get a template_id = Ok t ->
         getitem t "name" = Ok (VStr name) ->
         count_char "-" name < 2 ->
         get_campaign_data detect a campaign_id = Raise IndexError).
Proof.
  split.
  - intros c H. unfold get_campaign_data in H.
    apply bind_Ok in H as (co & Hco & H).
    apply bind_Ok in H as (id & Hid & H).
    apply bind_Ok in H as (st & Hst & H).
    apply bind_Ok in H as (et & Het & H).
    apply bind_Ok in H as (url & Hurl & H).
    apply bind_Ok in H as (template & Htpl & H).
    apply bind_Ok in H as (subject & Hsub & H).
    apply bind_Ok in H as (token & Htok & H).
    apply bind_Ok in H as (clicks & Hcl & H).
    apply bind_Ok in H as (status & Hs & H).
    injection H as <-. simpl.
    unfold template_token in Htok.
    apply bind_Ok in Htok as (template' & Htpl' & Htok).
    apply bind_Ok in Htok as (tid & Htid & Htok).
    apply bind_Ok in Htok as (t & Ht & Htok).
    apply bind_Ok in Htok as (name & Hname & Htok).
    apply bind_Ok in Htok as (s & Hs' & Htok).
    apply as_str_Ok in Hs'. subst name.
    assert (template' = template) as -> by congruence.
    exists co, template, tid, t, s.
    pose proof (split_third s) as H3. rewrite Htok in H3.
    unfold index in Htok. destruct (split "-" s !! 2) eqn:E; [|discriminate].
    injection Htok as ->. auto 10.
  - intros co id st et url template subject tid t name
      Hco Hid Hst Het Hurl Htpl Hsub Htid Ht Hname Hcount.
    unfold get_campaign_data.
    rewrite (bind_eq_Ok _ _ _ Hco). cbv zeta.
    rewrite (bind_eq_Ok _ _ _ Hid), (bind_eq_Ok _ _ _ Hst), (bind_eq_Ok _ _ _ Het),
      (bind_eq_Ok _ _ _ Hurl), (bind_eq_Ok _ _ _ Htpl), (bind_eq_Ok _ _ _ Hsub).
    unfold template_token.
    rewrite (bind_eq_Ok _ _ _ Htpl), (bind_eq_Ok _ _ _ Htid), (bind_eq_Ok _ _ _ Ht),
      (bind_eq_Ok _ _ _ Hname). simpl.
    pose proof (split_third name) as H3.
    destruct (index (split "-" name) 2) as [x|e]; [lia|].
    destruct H3 as [-> _]. reflexivity.
Qed.

End TimelineClaims.

(* ===================================================================== *)
(** ** The statistics aggregator *)
(* ===================================================================== *)

Section SummaryClaims.
Import Py Exporter ExportSpec.
Local Open Scope string_scope.

Variable detect : pyval -> result pyval.

Lemma Qc_of_Z_le (x y : Z) : (x <= y)%Z -> (Qc_of_Z x <= Qc_of_Z y)%Qc.
Proof.
  intros H. unfold Qc_of_Z, Qcle. simpl. rewrite !Qred_correct.
  unfold Qle. simpl. lia.
Qed.

Lemma Qc_of_Z_pos (x : Z) : (0 < x)%Z -> (0 < Qc_of_Z x)%Qc.
Proof.
  intros H. unfold Qc_of_Z, Qclt. simpl. rewrite !Qred_correct.
  unfold Qlt. simpl. lia.
Qed.

Lemma find_unique_target_clicks_count_nonneg clicks :
  (0 <= find_unique_target_clicks_count clicks)%Z.
Proof. unfold find_unique_target_clicks_count. lia. Qed.

(** The ratio of two counts, the smaller over the larger, is in [0, 1]. *)
Lemma percent_clicks_bounds (u t : Z) :
  (0 <= u <= t)%Z -> (0 <= percent_clicks u t <= 1)%Qc.
Proof.
  intros [Hu Hut]. unfold percent_clicks.
  destruct (Z.gtb_spec t 0) as [Ht|Ht].
  - pose proof (Qc_of_Z_pos t Ht) as Hpos.
    pose proof (Qc_of_Z_le 0 u Hu) as H0u.
    pose proof (Qc_of_Z_le u t Hut) as Hle.
    assert (Qc_of_Z t <> 0%Qc) as Hne.
    { intros E. rewrite E in Hpos. now apply Qclt_not_eq in Hpos. }
    change (Qc_of_Z 0) with 0%Qc in H0u.
    split.
    + apply (Qcmult_lt_0_le_reg_r _ _ (Qc_of_Z t) Hpos).
      rewrite Qcmult_0_l, Qcmult_comm, Qcmult_div_r by exact Hne. exact H0u.
    + apply (Qcmult_lt_0_le_reg_r _ _ (Qc_of_Z t) Hpos).
      rewrite Qcmult_1_l, Qcmult_comm, Qcmult_div_r by exact Hne. exact Hle.
  - split; [apply Qcle_refl | discriminate].
Qed.


(** C5 (as amended).  For every campaign summary: the click percentage is
    the unique-click count divided by the server-reported total-clicked
    count when that count is positive, and exactly 0 when it is 0 (or
    negative); the unique-click count is never negative; and the percentage
    lies in [0, 1] whenever the unique-click count does not exceed the
    total-clicked count. *)
Theorem click_percentage (clicks : list click) (total_clicks : Z) :
  ((0 < total_clicks)%Z ->
   percent_clicks (find_unique_target_clicks_count clicks) total_clicks
   = (Qc_of_Z (find_unique_target_clicks_count clicks) / Qc_of_Z total_clicks)%Qc)
  /\ ((total_clicks <= 0)%Z ->
      percent_clicks (find_unique_target_clicks_count clicks) total_clicks = 0%Qc)
  /\ (0 <= find_unique_target_clicks_count clicks)%Z
  /\ ((find_unique_target_clicks_count clicks <= total_clicks)%Z ->
      (0 <= percent_clicks (find_unique_target_clicks_count clicks) total_clicks <= 1)%Qc).
Proof.
  pose proof (find_unique_target_clicks_count_nonneg clicks) as Hu.
  unfold percent_clicks at 1 2.
  repeat split; try exact Hu.
  - intros Ht. destruct (Z.gtb_spec total_clicks 0); [reflexivity|lia].
  - intros Ht. destruct (Z.gtb_spec total_clicks 0); [lia|reflexivity].
  - apply percent_clicks_bounds. lia.
  - apply percent_clicks_bounds. lia.
Qed.

Lemma set_level_Ok data level key v data' :
  set_level data level key v = Ok data' ->
  exists d, data !! level = Some (VDict d)
            /\ data' = <[ level := VDict (<[ key := v ]> d) ]> data.
Proof.
  unfold set_level. destruct (data !! level) as [[]|]; try discriminate.
  intros [= <-]. eauto.
Qed.

Lemma get_level_insert data level d key :
  get_level (<[ level := VDict d ]> data) level key
  = match d !! key with
    | Some v => Ok v
    | None => Raise (KeyError key)
    end.
Proof. unfold get_level, getitem. cbn. now rewrite lookup_insert_eq. Qed.

(** What the summary writer records for a campaign with a level: the
    server's count, the number of distinct clickers of the timeline, and
    their ratio. *)
Lemma summary_step_counts (a : api) campaign_id st st' c level :
  campaigns_get a campaign_id = Ok c ->
  campaign_level (c_name c) = Some level ->
  summary_step detect a campaign_id st = Ok st' ->
  exists clicks total,
    get_click_data detect a campaign_id = Ok clicks
    /\ campaigns_summary_clicked a campaign_id = Ok total
    /\ get_level (campaign_data st') level "clicks" = Ok (VInt total)
    /\ get_level (campaign_data st') level "unique_clicks"
       = Ok (VInt (find_unique_target_clicks_count clicks))
    /\ get_level (campaign_data st') level "percent_clicks"
       = Ok (VFloat (percent_clicks (find_unique_target_clicks_count clicks) total)).
Proof.
  intros Hget Hlevel H. unfold summary_step in H.
  rewrite (bind_eq_Ok _ _ _ Hget), Hlevel in H.
  apply bind_Ok in H as (clicks & Hclicks & H).
  apply bind_Ok in H as (total & Htotal & H).
  cbv zeta in H.
  apply bind_Ok in H as (d1 & H1 & H). apply set_level_Ok in H1 as (e1 & _ & ->).
  apply bind_Ok in H as (d2 & H2 & H). apply set_level_Ok in H2 as (e2 & _ & ->).
  apply bind_Ok in H as (d3 & H3 & H). apply set_level_Ok in H3 as (e3 & _ & ->).
  apply bind_Ok in H as (d4 & H4 & H). apply set_level_Ok in H4 as (e4 & _ & ->).
  apply bind_Ok in H as (d5 & H5 & H). apply set_level_Ok in H5 as (e5 & _ & ->).
  apply bind_Ok in H as (d6 & H6 & H). apply set_level_Ok in H6 as (e6 & _ & ->).
  apply bind_Ok in H as (d7 & H7 & H). apply set_level_Ok in H7 as (e7 & E7 & ->).
  apply bind_Ok in H as (d8 & H8 & H). apply set_level_Ok in H8 as (e8 & E8 & ->).
  rewrite lookup_insert_eq in E8. injection E8 as <-.
  rewrite lookup_insert_eq in E7. injection E7 as <-.
  apply bind_Ok in H as (? & _ & H). apply bind_Ok in H as (? & _ & H).
  apply bind_Ok in H as (? & _ & H). apply bind_Ok in H as (? & _ & H).
  apply bind_Ok in H as (? & _ & H). apply bind_Ok in H as (? & _ & H).
  apply bind_Ok in H as (? & _ & H). apply bind_Ok in H as (? & _ & H).
  injection H as <-. cbn [campaign_data].
  exists clicks, total. rewrite !get_level_insert.
  repeat split; auto; now simplify_map_eq.
Qed.

(** *** The campaign-name pattern *)

Lemma string_app_cons c (s t : string) : String c s ++ t = String c (s ++ t).
Proof. reflexivity. Qed.

Lemma string_app_length (s t : string) :
  String.length (s ++ t) = String.length s + String.length t.
Proof.
  induction s as [|c s IH]; [reflexivity|].
  rewrite string_app_cons. cbn [String.length]. now rewrite IH.
Qed.

Lemma substring_app_skip (p s : string) (k n : nat) :
  substring (String.length p + k) n (p ++ s) = substring k n s.
Proof.
  induction p as [|c p IH]; [reflexivity|].
  rewrite string_app_cons. cbn [String.length Nat.add substring]. exact IH.
Qed.

Lemma lang_star_dot s :
  Regex.lang (Regex.Star Regex.Dot) s <-> count_char Regex.newline s = 0.
Proof.
  induction s as [|c s IH].
  - split; [reflexivity|constructor].
  - cbn [count_char]. split.
    + intros H. apply star_cons in H as (s1 & s2 & -> & H1 & H2).
      inversion H1 as [|c' Hc| | | | | | |]; subst.
      destruct (Ascii.eqb_spec c Regex.newline) as [->|_]; [congruence|].
      apply IH. exact H2.
    + destruct (Ascii.eqb_spec c Regex.newline) as [->|Hne]; [discriminate|].
      intros H. change (String c s) with (String c "" ++ s).
      constructor; [constructor; exact Hne | apply IH; exact H].
Qed.

Lemma lang_lit w s : Regex.lang (Regex.lit w) s <-> s = w.
Proof.
  revert s. induction w as [|c w IH]; intros s; cbn [Regex.lit].
  - split; [intros H; now inversion H | intros ->; constructor].
  - split.
    + intros H. apply cat_inv in H as (s1 & s2 & -> & H1 & H2).
      inversion H1; subst. apply IH in H2. now subst.
    + intros ->. change (String c w) with (String c "" ++ w).
      constructor; [constructor | now apply IH].
Qed.

Lemma lang_level_re name :
  Regex.lang level_re name <->
  exists prefix d,
    name = prefix ++ "_level-" ++ String d ""
    /\ count_char Regex.newline prefix = 0
    /\ Regex.in_range "1" "6" d = true.
Proof.
  unfold level_re. split.
  - intros H.
    apply cat_inv in H as (p & s1 & -> & Hp & H).
    apply cat_inv in H as (u & s2 & -> & Hu & H).
    apply cat_inv in H as (l & s3 & -> & Hl & H).
    inversion Hu; subst. apply lang_lit in Hl. subst l.
    inversion H as [| | |lo hi d Hd| | | | |]; subst.
    exists p, d. repeat split; [|exact Hd]. now apply lang_star_dot.
  - intros (p & d & -> & Hp & Hd).
    constructor; [now apply lang_star_dot|].
    change ("_level-" ++ String d "") with (String "_" "" ++ ("level-" ++ String d "")).
    constructor; [constructor|].
    constructor; [now apply lang_lit | now constructor].
Qed.

(** What [regex.fullmatch(name)] accepts and what [match["level"]] is. *)
Lemma campaign_level_Some name level :
  campaign_level name = Some level <->
  exists prefix d,
    name = prefix ++ "_level-" ++ String d ""
    /\ count_char Regex.newline prefix = 0
    /\ Regex.in_range "1" "6" d = true
    /\ level = "level-" ++ String d "".
Proof.
  unfold campaign_level.
  destruct (Regex.fullmatch level_re name) eqn:E.
  - apply fullmatch_spec, lang_level_re in E as (p & d & -> & Hp & Hd).
    assert (substring (String.length (p ++ "_level-" ++ String d "") - 7) 7
              (p ++ "_level-" ++ String d "") = "level-" ++ String d "") as Hs.
    { rewrite string_app_length.
      change (String.length ("_level-" ++ String d "")) with 8.
      replace (String.length p + 8 - 7) with (String.length p + 1) by lia.
      rewrite substring_app_skip. reflexivity. }
    rewrite Hs. split.
    + intros [= <-]. exists p, d. auto.
    + intros (p' & d' & Hn & _ & _ & ->). f_equal.
      assert (String.length p = String.length p') as Hlen.
      { apply (f_equal String.length) in Hn. rewrite !string_app_length in Hn.
        cbn [String.length] in Hn. lia. }
      apply (f_equal (substring (String.length p + 1) 7)) in Hn.
      rewrite substring_app_skip in Hn. rewrite Hlen in Hn.
      rewrite substring_app_skip in Hn. exact Hn.
  - split; [discriminate|].
    intros (p & d & Hn & Hp & Hd & _).
    assert (Regex.fullmatch level_re name = true) as E'.
    { apply fullmatch_spec, lang_level_re. eauto. }
    congruence.
Qed.

Lemma campaign_level_suffix name level :
  campaign_level name = Some level -> has_level_suffix name.
Proof.
  intros H. apply campaign_level_Some in H as (p & d & Hn & _ & Hd & _).
  exists p, d. auto.
Qed.

Lemma no_suffix_no_level name :
  ~ has_level_suffix name -> campaign_level name = None.
Proof.
  intros H. destruct (campaign_level name) eqn:E; [|reflexivity].
  now apply campaign_level_suffix in E.
Qed.

Lemma count_char_app c (s t : string) :
  count_char c (s ++ t) = count_char c s + count_char c t.
Proof.
  induction s as [|c' s IH]; [reflexivity|].
  rewrite string_app_cons. cbn [count_char]. rewrite IH. lia.
Qed.

(** On names without a newline the pattern accepts exactly the names with
    the suffix. *)
Lemma suffix_level name :
  has_level_suffix name -> count_char Regex.newline name = 0 ->
  exists level, campaign_level name = Some level.
Proof.
  intros (p & d & -> & Hd) Hnl. rewrite count_char_app in Hnl.
  eexists. apply campaign_level_Some. exists p, d.
  repeat split; [lia | exact Hd].
Qed.

Lemma no_level_no_suffix name :
  campaign_level name = None -> count_char Regex.newline name = 0 ->
  ~ has_level_suffix name.
Proof.
  intros Hnone Hnl Hs. destruct (suffix_level _ Hs Hnl) as (l & Hl). congruence.
Qed.

(** C8.  For every campaign whose name does not end with "_level-N", N in
    1..6: the summary writer logs one warning for it, leaves the summary
    document and the report text as they are, raises nothing and goes on
    with the remaining campaigns; and a campaign after which the summary
    document or the report text differ has a name with such a suffix. *)
Theorem unmatched_campaign_skipped (a : api) (campaign_id : pyval) (st : summary_state) :
  (forall c rest,
      campaigns_get a campaign_id = Ok c ->
      ~ has_level_suffix (c_name c) ->
      summary_step detect a campaign_id st
      = Ok (mkSummary (campaign_data st) (file_out st)
              (log st ++ [LogWarning skip_warning (c_name c)])%list)
      /\ summary_loop detect a (campaign_id :: rest) st
         = summary_loop detect a rest
             (mkSummary (campaign_data st) (file_out st)
                (log st ++ [LogWarning skip_warning (c_name c)])%list))
  /\ (forall st',
         summary_step detect a campaign_id st = Ok st' ->
         campaign_data st' <> campaign_data st \/ file_out st' <> file_out st ->
         exists c, campaigns_get a campaign_id = Ok c /\ has_level_suffix (c_name c)).
Proof.
  split.
  - intros c rest Hget Hno.
    assert (summary_step detect a campaign_id st
            = Ok (mkSummary (campaign_data st) (file_out st)
                    (log st ++ [LogWarning skip_warning (c_name c)])%list)) as Hstep.
    { unfold summary_step. rewrite (bind_eq_Ok _ _ _ Hget).
      now rewrite (no_suffix_no_level _ Hno). }
    split; [exact Hstep|].
    cbn [summary_loop]. now rewrite (bind_eq_Ok _ _ _ Hstep).
  - intros st' Hstep Hdiff. unfold summary_step in Hstep.
    apply bind_Ok in Hstep as (c & Hget & Hstep).
    exists c. split; [exact Hget|].
    destruct (campaign_level (c_name c)) as [level|] eqn:E.
    + now apply campaign_level_suffix in E.
    + injection Hstep as <-. simpl in Hdiff. destruct Hdiff; congruence.
Qed.

(** *** The first report *)

Lemma first_report_loop_fold clicks : forall acc r,
  first_report_loop clicks acc = Ok r ->
  exists times,
    mapR (fun k => strptime_seconds (click_time k)) clicks = Ok times
    /\ r = fold_left keep_earliest times acc.
Proof.
  induction clicks as [|k clicks IH]; intros acc r H; cbn [first_report_loop] in H.
  - injection H as <-. exists []. split; reflexivity.
  - apply bind_Ok in H as (t & Ht & H).
    apply IH in H as (times & Hm & ->).
    exists (t :: times). split; [|reflexivity].
    cbn [mapR]. rewrite (bind_eq_Ok _ _ _ Ht), (bind_eq_Ok _ _ _ Hm). reflexivity.
Qed.

Lemma fold_keep_earliest times : forall m0,
  exists m, fold_left keep_earliest times (Some m0) = Some m
            /\ earliest m (m0 :: times).
Proof.
  induction times as [|t times IH]; intros m0.
  - exists m0. split; [reflexivity|]. split; [left|].
    intros t Ht. apply list_elem_of_singleton in Ht as ->. apply lt_irrefl.
  - cbn [fold_left keep_earliest].
    set (m1 := if Datetime.lt t m0 then t else m0).
    assert ((if Datetime.lt t m0 then Some t else Some m0) = Some m1) as ->
      by (unfold m1; now destruct (Datetime.lt t m0)).
    assert (Datetime.lt m0 m1 = false /\ Datetime.lt t m1 = false
            /\ (m1 = m0 \/ m1 = t)) as (H0 & Ht & Hm1).
    { unfold m1. destruct (Datetime.lt t m0) eqn:E.
      - split; [now apply lt_asym|]. split; [apply lt_irrefl | now right].
      - split; [apply lt_irrefl|]. split; [exact E | now left]. }
    destruct (IH m1) as (m & Hf & Hin & Hmin).
    exists m. split; [exact Hf|]. split.
    + apply elem_of_cons in Hin as [->|Hin].
      * destruct Hm1 as [->| ->]; [left | right; left].
      * right; right; exact Hin.
    + assert (Datetime.lt m1 m = false) as Hm1m by (apply Hmin; left).
      intros x Hx. apply elem_of_cons in Hx as [->|Hx].
      * exact (not_lt_trans m m1 m0 Hm1m H0).
      * apply elem_of_cons in Hx as [->|Hx].
        -- exact (not_lt_trans m m1 t Hm1m Ht).
        -- apply Hmin. right; exact Hx.
Qed.

(** C9.  For every campaign whose data the export can read: the
    first-report time of its user-report document is "No clicks reported"
    when the campaign has no click, and otherwise the earliest of the
    clicks' times, each cut to whole seconds, written to the second; and
    with no click the document is produced whenever the server gives the
    campaign's statistics. *)
Theorem first_report_is_earliest_click (a : api) (assessment_id : string)
    (campaign_id : pyval) (c : campaign) :
  get_campaign_data detect a campaign_id = Ok c ->
  (forall doc,
      user_report detect a assessment_id campaign_id = Ok doc ->
      match cd_clicks c with
      | [] => first_report doc = "No clicks reported"
      | _ :: _ =>
          exists times m,
            mapR (fun k => strptime_seconds (click_time k)) (cd_clicks c) = Ok times
            /\ earliest m times
            /\ first_report doc = Datetime.strftime m
      end)
  /\ (cd_clicks c = [] ->
      forall total,
        campaigns_summary_clicked a campaign_id = Ok total ->
        user_report detect a assessment_id campaign_id
        = Ok (mkReport "" assessment_id campaign_id "No clicks reported" total)).
Proof.
  intros Hc. split.
  - intros doc H. unfold user_report in H.
    rewrite (bind_eq_Ok _ _ _ Hc) in H.
    apply bind_Ok in H as (first & Hf & H).
    apply bind_Ok in H as (total & Ht & H).
    injection H as <-. cbn [first_report].
    apply first_report_loop_fold in Hf as (times & Hm & ->).
    destruct (cd_clicks c) as [|k clicks].
    + cbn in Hm. injection Hm as <-. reflexivity.
    + cbn [mapR] in Hm.
      apply bind_Ok in Hm as (t & Ht0 & Hm).
      apply bind_Ok in Hm as (ts & Hts & Hm).
      injection Hm as <-.
      destruct (fold_keep_earliest ts t) as (m & Hfold & He).
      exists (t :: ts), m. cbn [fold_left keep_earliest]. rewrite Hfold.
      split; [|split; [exact He|reflexivity]].
      cbn [mapR]. rewrite (bind_eq_Ok _ _ _ Ht0), (bind_eq_Ok _ _ _ Hts). reflexivity.
  - intros Hnil total Ht. unfold user_report.
    rewrite (bind_eq_Ok _ _ _ Hc), Hnil. cbn [first_report_loop].
    rewrite (bind_eq_Ok _ _ (None : option datetime) eq_refl).
    now rewrite (bind_eq_Ok _ _ _ Ht).
Qed.

End SummaryClaims.

(* ===================================================================== *)
(** ** The resource upserter *)
(* ===================================================================== *)

Section UpsertFacts.
Import Py Importer ImportSpec.
Local Open Scope string_scope.

Context {S : Type}.
Variable srv : server S.

Lemma bindM_eq {A B} (m : M S A) (k : A -> M S B) w :
  (m ≫= k) w = match m w with
               | (Returns a, w') => k a w'
               | (Raises e, w') => (Raises e, w')
               | (OutOfFuel, w') => (OutOfFuel, w')
               end.
Proof. reflexivity. Qed.

Lemma bindM_Returns {A B} (m : M S A) (k : A -> M S B) w a w' :
  m w = (Returns a, w') -> (m ≫= k) w = k a w'.
Proof. intros H. rewrite bindM_eq, H. reflexivity. Qed.

Lemma bindM_Raises {A B} (m : M S A) (k : A -> M S B) w e w' :
  m w = (Raises e, w') -> (m ≫= k) w = (Raises e, w').
Proof. intros H. rewrite bindM_eq, H. reflexivity. Qed.

Lemma lift_eq {A} (r : result A) (w : world S) : lift r w = (of_result r, w).
Proof. reflexivity. Qed.

Lemma call_post_eq ep m (w : world S) :
  call_post srv ep m w
  = (of_result (post srv ep m (remote w)).1,
     mkWorld (post srv ep m (remote w)).2
       (calls w ++ [Posted ep m (post srv ep m (remote w)).1])%list).
Proof. unfold call_post. now destruct (post srv ep m (remote w)). Qed.

Lemma call_get_eq ep (w : world S) :
  call_get srv ep w
  = (of_result (get srv ep (remote w)).1,
     mkWorld (get srv ep (remote w)).2
       (calls w ++ [Listed ep (get srv ep (remote w)).1])%list).
Proof. unfold call_get. now destruct (get srv ep (remote w)). Qed.

Lemma call_delete_eq ep id (w : world S) :
  call_delete srv ep id w
  = (of_result (delete srv ep id (remote w)).1,
     mkWorld (delete srv ep id (remote w)).2
       (calls w ++ [Deleted ep id (delete srv ep id (remote w)).1])%list).
Proof. unfold call_delete. now destruct (delete srv ep id (remote w)). Qed.

(** The deletes of the inner loop: all accepted, or accepted up to the one
    that raised. *)
Lemma delete_where_calls ep same olds : forall w,
  (exists w',
      delete_where srv ep same olds w = (Returns tt, w')
      /\ calls w' = (calls w ++ map (deleted_ok ep) (List.filter same olds))%list)
  \/ (exists before old after e w',
         List.filter same olds = (before ++ old :: after)%list
         /\ delete_where srv ep same olds w = (Raises e, w')
         /\ calls w' = (calls w ++ map (deleted_ok ep) before
                          ++ [Deleted ep (m_id old) (Raise e)])%list).
Proof.
  induction olds as [|old olds IH]; intros w; cbn [delete_where List.filter].
  - left. exists w. split; [reflexivity|]. cbn. now rewrite app_nil_r.
  - destruct (same old) eqn:Es; [|apply IH].
    rewrite bindM_eq, call_delete_eq.
    destruct (delete srv ep (m_id old) (remote w)) as [[[]|e] s] eqn:Ed;
      cbn [of_result fst snd].
    + destruct (IH (mkWorld s (calls w ++ [Deleted ep (m_id old) (Ok tt)])%list))
        as [(w' & Hr & Hc)|(before & o & after & e & w' & Hf & Hr & Hc)].
      * left. exists w'. split; [exact Hr|].
        rewrite Hc. cbn. now rewrite <- app_assoc.
      * right. exists (old :: before), o, after, e, w'.
        split; [now rewrite Hf|]. split; [exact Hr|].
        rewrite Hc. cbn. now rewrite <- app_assoc.
    + right. exists [], old, (List.filter same olds), e,
        (mkWorld s (calls w ++ [Deleted ep (m_id old) (Raise e)])%list).
      repeat split.
Qed.

Lemma conflict_dec k e :
  {e = conflict k} + {e <> conflict k}.
Proof.
  unfold conflict. destruct e as [| | | | |msg|]; try (right; discriminate).
  destruct (String.eqb_spec msg (conflict_message k)) as [->|Hne].
  - now left.
  - right. congruence.
Qed.

(** The code compares with the messages of the server, kind by kind. *)
Lemma name_in_use_conflict k : name_in_use k = conflict_message k.
Proof. now destruct k. Qed.

(** The calls of a run of the loop are rounds, as many as the loop bound
    allows at most; a run that is allowed a round starts with the create,
    answered by the server. *)
Lemma upsert_trace fuel k new : forall listing w,
  exists tr,
    calls (upsert srv fuel k new listing w).2 = (calls w ++ tr)%list
    /\ rounds k new fuel tr (created_of (upsert srv fuel k new listing w).1)
    /\ (forall n, fuel = Datatypes.S n ->
        exists rest,
          tr = Posted (Of k) new (post srv (Of k) new (remote w)).1 :: rest).
Proof.
  induction fuel as [|fuel IH]; intros listing w; cbn [upsert].
  - exists []. rewrite app_nil_r. split; [reflexivity|]. split; [constructor|].
    intros n Hn. discriminate.
  - rewrite call_post_eq.
    destruct (post srv (Of k) new (remote w)) as [[created|e] s] eqn:Ep;
      cbn [of_result fst snd].
    + eexists. split; [reflexivity|]. split; [constructor|]. intros n _. eauto.
    + set (w1 := mkWorld s (calls w ++ [Posted (Of k) new (Raise e)])%list).
      destruct (conflict_dec k e) as [->|Hne].
      * change (conflict k) with (GophishError (name_in_use k)) in *.
        cbv beta iota. rewrite String.eqb_refl.
        rewrite bindM_eq, call_get_eq.
        destruct (get srv (Of k) (remote w1)) as [[olds|e] s2] eqn:Eg;
          cbn [of_result fst snd].
        -- set (w2 := mkWorld s2 (calls w1 ++ [Listed (Of k) (Ok olds)])%list).
           rewrite bindM_eq.
           destruct (delete_where_calls (Of k)
                       (fun old => String.eqb (m_name old) (m_name new)) olds w2)
             as [(w3 & Hr & Hc)|(before & o & after & e & w3 & Hf & Hr & Hc)];
             rewrite Hr.
           ++ destruct (IH (Some olds) w3) as (tr & Htr & Hrounds & _).
              eexists. split; [|split].
              ** rewrite Htr, Hc. unfold w2, w1. cbn [calls].
                 rewrite <- !app_assoc. reflexivity.
              ** apply (round_retry k new fuel olds tr). exact Hrounds.
              ** intros n _. cbn [app]. eauto.
           ++ eexists. split; [|split].
              ** cbn [snd]. rewrite Hc. unfold w2, w1. cbn [calls].
                 rewrite <- !app_assoc. reflexivity.
              ** cbn [fst created_of].
                 apply (round_delete_failed k new fuel olds before o after e). exact Hf.
              ** intros n _. cbn [app]. eauto.
        -- eexists. split; [|split].
           ++ cbn [snd calls]. unfold w1. cbn [calls].
              rewrite <- !app_assoc. reflexivity.
           ++ apply round_listing_failed.
           ++ intros n _. cbn [app]. eauto.
      * assert ((match e with
                 | GophishError message =>
                     if String.eqb message (name_in_use k)
                     then (olds ← call_get srv (Of k);
                           _ ← delete_where srv (Of k)
                                 (fun old => String.eqb (m_name old) (m_name new)) olds;
                           upsert srv fuel k new (Some olds)) w1
                     else (Raises (GophishError message), w1)
                 | _ => (Raises e, w1)
                 end) = (Raises e, w1)) as ->.
        { destruct e as [| | | | |msg|]; try reflexivity.
          destruct (String.eqb_spec msg (name_in_use k)) as [->|_]; [|reflexivity].
          now contradiction Hne. }
        eexists. split; [reflexivity|]. split; [now constructor|].
        intros n _. eauto.
Qed.

Lemma upsert_rounds fuel k new : forall listing w,
  exists tr,
    calls (upsert srv fuel k new listing w).2 = (calls w ++ tr)%list
    /\ rounds k new fuel tr (created_of (upsert srv fuel k new listing w).1).
Proof.
  intros listing w. destruct (upsert_trace fuel k new listing w) as (tr & Hc & Hr & _).
  eauto.
Qed.



(** *** An exception of the loop leaves the import *)









(** Whatever stage of the import raises, [main] exits with code 1 and calls
    the server no more. *)
Lemma main_exits_on_raise fuel assessment (w : world S) :
  (forall e w',
      load_landings srv fuel assessment w = (Raises e, w') ->
      main srv fuel assessment w = (Some 1%Z, w'))
  /\ (forall pages assessment1 e w1 w',
         load_landings srv fuel assessment w = (Returns pages, w1) ->
         setitem assessment "pages" (returned_value pages) = Ok assessment1 ->
         load_groups srv fuel assessment1 w1 = (Raises e, w') ->
         main srv fuel assessment w = (Some 1%Z, w'))
  /\ (forall pages assessment1 groups assessment2 e w1 w2 w',
         load_landings srv fuel assessment w = (Returns pages, w1) ->
         setitem assessment "pages" (returned_value pages) = Ok assessment1 ->
         load_groups srv fuel assessment1 w1 = (Returns groups, w2) ->
         setitem assessment1 "groups" (returned_value groups) = Ok assessment2 ->
         build_campaigns srv fuel assessment2 w2 = (Raises e, w') ->
         main srv fuel assessment w = (Some 1%Z, w')).
Proof.
  unfold main, import_assessment. repeat split.
  - intros e w' H. now rewrite (bindM_Raises _ _ _ _ _ H).
  - intros pages a1 e w1 w' Hl Hs Hg.
    rewrite (bindM_Returns _ _ _ _ _ Hl).
    rewrite (bindM_Returns _ _ w1 a1 w1) by (now rewrite lift_eq, Hs).
    now rewrite (bindM_Raises _ _ _ _ _ Hg).
  - intros pages a1 groups a2 e w1 w2 w' Hl Hs Hg Hs' Hb.
    rewrite (bindM_Returns _ _ _ _ _ Hl).
    rewrite (bindM_Returns _ _ w1 a1 w1) by (now rewrite lift_eq, Hs).
    rewrite (bindM_Returns _ _ _ _ _ Hg).
    rewrite (bindM_Returns _ _ w2 a2 w2) by (now rewrite lift_eq, Hs').
    now rewrite Hb.
Qed.



End UpsertFacts.

(* ===================================================================== *)
(** ** The campaign builder *)
(* ===================================================================== *)

Section CampaignFacts.
Import Py Importer ImportSpec.
Local Open Scope string_scope.

Context {S : Type}.
Variable srv : server S.

(** *** Logs *)

Lemma split_before_quiet (l l' before after : list entry) x :
  (l ++ l' = before ++ x :: after)%list ->
  Forall (fun e => is_campaign_post e = false) l' ->
  is_campaign_post x = true ->
  exists after0, l = (before ++ x :: after0)%list.
Proof.
  intros H Hq Hx. revert l H.
  induction before as [|b before IH]; intros [|y l] H; cbn in H.
  - subst l'. inversion Hq; congruence.
  - injection H as -> _. eauto.
  - subst l'. apply Forall_cons in Hq as [_ Hq].
    apply Forall_app in Hq as [_ Hq]. inversion Hq; congruence.
  - injection H as -> H. destruct (IH l H) as (after0 & ->). eauto.
Qed.

Lemma guarded_nil : guarded [].
Proof. intros [|] ? ? ? H; discriminate. Qed.

Lemma guarded_app_quiet l l' :
  guarded l -> Forall (fun e => is_campaign_post e = false) l' -> guarded (l ++ l').
Proof.
  intros Hg Hq before m answer after H.
  destruct (split_before_quiet _ _ _ _ _ H Hq eq_refl) as (after0 & ->).
  eapply Hg. reflexivity.
Qed.

Lemma split_last (X before after : list entry) p q :
  (X ++ [p] = before ++ q :: after)%list ->
  (after = [] /\ X = before /\ p = q)
  \/ (exists after0, after = (after0 ++ [p])%list /\ X = (before ++ q :: after0)%list).
Proof.
  intros H. destruct (@exists_last _ (q :: after) ltac:(discriminate)) as (l0 & z & E).
  destruct after as [|a after].
  - left. apply (app_inj_tail X before p q) in H as [-> ->]. auto.
  - right.
    destruct (@exists_last _ (a :: after) ltac:(discriminate)) as (after0 & z' & E').
    rewrite E' in H. change (q :: after0 ++ [z'])%list with ((q :: after0) ++ [z'])%list in H.
    rewrite app_assoc in H. apply app_inj_tail in H as [-> ->].
    exists after0. auto.
Qed.

Lemma deleted_quiet ep olds :
  Forall (fun e => is_campaign_post e = false) (map (deleted_ok ep) olds).
Proof. induction olds as [|o olds IH]; cbn; constructor; [reflexivity|exact IH]. Qed.

Lemma guarded_app_post l olds m answer :
  guarded l ->
  guarded (l ++ Listed Campaigns (Ok olds)
             :: map (deleted_ok Campaigns) (List.filter (same_name m) olds)
             ++ [Posted Campaigns m answer]).
Proof.
  intros Hg before m' answer' after H.
  change (l ++ Listed Campaigns (Ok olds)
            :: map (deleted_ok Campaigns) (List.filter (same_name m) olds)
            ++ [Posted Campaigns m answer])%list
    with (l ++ (Listed Campaigns (Ok olds)
                  :: map (deleted_ok Campaigns) (List.filter (same_name m) olds))
            ++ [Posted Campaigns m answer])%list in H.
  rewrite app_assoc in H.
  apply split_last in H as [(_ & <- & [= <- <-])|(after0 & _ & H)].
  - eauto.
  - assert (guarded (l ++ Listed Campaigns (Ok olds)
                       :: map (deleted_ok Campaigns) (List.filter (same_name m) olds)))
      as Hg'.
    { apply guarded_app_quiet; [exact Hg|]. constructor; [reflexivity|apply deleted_quiet]. }
    eapply Hg'. exact H.
Qed.

(** *** Computations that create no campaign *)

Lemma quietly_refl (w : world S) : quietly_extends w w.
Proof. exists []. rewrite app_nil_r. split; [reflexivity|constructor]. Qed.

Lemma quietly_trans (w1 w2 w3 : world S) :
  quietly_extends w1 w2 -> quietly_extends w2 w3 -> quietly_extends w1 w3.
Proof.
  intros (t1 & H1 & Q1) (t2 & H2 & Q2). exists (t1 ++ t2)%list.
  split; [now rewrite H2, H1, app_assoc | now apply Forall_app].
Qed.

Lemma quiet_bind {A B} (m : M S A) (k : A -> M S B) :
  quiet m -> (forall a, quiet (k a)) -> quiet (m ≫= k).
Proof.
  intros Hm Hk w. rewrite bindM_eq. specialize (Hm w).
  destruct (m w) as [[a|e|] w']; cbn [snd] in *; [|exact Hm|exact Hm].
  eapply quietly_trans; [exact Hm | apply Hk].
Qed.

Lemma quiet_ret {A} (a : A) : quiet (mret a : M S A).
Proof. intros w. apply quietly_refl. Qed.

Lemma quiet_lift {A} (r : result A) : quiet (lift r : M S A).
Proof. intros w. apply quietly_refl. Qed.

Lemma quiet_call_get ep : quiet (call_get srv ep).
Proof.
  intros w. rewrite call_get_eq. eexists. split; [reflexivity|].
  constructor; [reflexivity|constructor].
Qed.

Lemma quiet_delete_where ep same olds : quiet (delete_where srv ep same olds).
Proof.
  intros w.
  destruct (delete_where_calls srv ep same olds w)
    as [(w' & -> & Hc)|(before & o & after & e & w' & _ & -> & Hc)];
    eexists; (split; [exact Hc|]).
  - apply deleted_quiet.
  - apply Forall_app. split; [apply deleted_quiet|].
    constructor; [reflexivity|constructor].
Qed.

Lemma rounds_quiet k new n tr out :
  rounds k new n tr out -> Forall (fun e => is_campaign_post e = false) tr.
Proof.
  induction 1 as [n created|n e Hne|n e|n olds before old after e Hf
                 |n olds tr out Hr IH|].
  - constructor; [reflexivity|constructor].
  - constructor; [reflexivity|constructor].
  - do 2 (constructor; [reflexivity|]). constructor.
  - cbn [app]. do 2 (constructor; [reflexivity|]).
    apply Forall_app. split; [apply deleted_quiet|].
    constructor; [reflexivity|constructor].
  - cbn [app]. do 2 (constructor; [reflexivity|]).
    apply Forall_app. split; [apply deleted_quiet|exact IH].
  - constructor.
Qed.

Lemma quiet_upsert fuel k new listing : quiet (upsert srv fuel k new listing).
Proof.
  intros w. destruct (upsert_rounds srv fuel k new listing w) as (tr & Hc & Hr).
  exists tr. split; [exact Hc|]. eapply rounds_quiet; exact Hr.
Qed.

Lemma quiet_landings_loop fuel pages : quiet (landings_loop srv fuel pages).
Proof.
  induction pages as [|page rest IH]; cbn [landings_loop]; [apply quiet_ret|].
  apply quiet_bind; [apply quiet_lift|]. intros new_page.
  apply quiet_bind; [apply quiet_upsert|]. intros created.
  apply quiet_bind; [apply quiet_lift|]. intros page'.
  apply quiet_bind; [exact IH|]. intros rest'. apply quiet_ret.
Qed.

Lemma quiet_groups_loop fuel groups : forall listing,
  quiet (groups_loop srv fuel groups listing).
Proof.
  induction groups as [|group rest IH]; intros listing; cbn [groups_loop];
    [apply quiet_ret|].
  apply quiet_bind; [apply quiet_lift|]. intros new_group.
  apply quiet_bind; [apply quiet_upsert|]. intros created.
  apply quiet_bind; [apply quiet_lift|]. intros group'.
  apply quiet_bind; [apply IH|]. intros done. apply quiet_ret.
Qed.

Lemma quiet_load_landings fuel assessment : quiet (load_landings srv fuel assessment).
Proof.
  unfold load_landings.
  apply quiet_bind; [apply quiet_lift|]. intros pages.
  apply quiet_bind; [apply quiet_landings_loop|]. intros pages'. apply quiet_ret.
Qed.

Lemma quiet_load_groups fuel assessment : quiet (load_groups srv fuel assessment).
Proof.
  unfold load_groups.
  apply quiet_bind; [apply quiet_lift|]. intros groups.
  apply quiet_bind; [apply quiet_groups_loop|]. intros done. apply quiet_ret.
Qed.

(** *** Computations that keep the log guarded *)

Lemma quiet_keeps_guard {A} (m : M S A) : quiet m -> keeps_guard m.
Proof.
  intros Hq w Hg. destruct (Hq w) as (tr & -> & Htr). now apply guarded_app_quiet.
Qed.

Lemma keeps_guard_bind {A B} (m : M S A) (k : A -> M S B) :
  keeps_guard m -> (forall a, keeps_guard (k a)) -> keeps_guard (m ≫= k).
Proof.
  intros Hm Hk w Hg. rewrite bindM_eq. specialize (Hm w Hg).
  destruct (m w) as [[a|e|] w']; cbn [snd] in *; [|exact Hm|exact Hm].
  now apply Hk.
Qed.

Lemma new_campaign_name campaign name new_template new_smtp m :
  getitem campaign "name" = Ok name ->
  new_campaign_of campaign new_template new_smtp = Ok m ->
  name = VStr (m_name m).
Proof.
  intros Hname H. unfold new_campaign_of in H.
  apply bind_Ok in H as (name' & Hname' & H).
  apply bind_Ok in H as (s & Hs & H).
  apply bind_Ok in H as (group_name & _ & H).
  apply bind_Ok in H as (page_name & _ & H).
  apply bind_Ok in H as (url & _ & H).
  apply bind_Ok in H as (launch_date & _ & H).
  apply bind_Ok in H as (complete_date & _ & H).
  injection H as <-. cbn [m_name].
  assert (name' = name) as -> by congruence.
  destruct name; cbn in Hs; congruence.
Qed.

(** From the listing of the campaigns on: the deletes, then the create. *)
Lemma list_delete_create_keeps_guard campaign name new_template new_smtp :
  getitem campaign "name" = Ok name ->
  keeps_guard
    (old_campaigns ← call_get srv Campaigns;
     _ ← delete_where srv Campaigns (fun old => eq_str name (m_name old)) old_campaigns;
     new_campaign ← lift (new_campaign_of campaign new_template new_smtp);
     _ ← call_post srv Campaigns new_campaign;
     (mret tt : M S unit)).
Proof.
  intros Hname w Hg. rewrite bindM_eq.
  pose proof (quiet_keeps_guard _ (quiet_call_get Campaigns) w Hg) as Hg1.
  rewrite call_get_eq in Hg1 |- *.
  destruct (get srv Campaigns (remote w)) as [[olds|e] s1]; cbn [of_result fst snd] in *;
    [|exact Hg1].
  set (w1 := mkWorld s1 (calls w ++ [Listed Campaigns (Ok olds)])%list) in *.
  rewrite bindM_eq.
  destruct (delete_where_calls srv Campaigns (fun old => eq_str name (m_name old)) olds w1)
    as [(w2 & Hr & Hc)|(before & o & after & e & w2 & _ & Hr & Hc)]; rewrite Hr.
  - rewrite bindM_eq, lift_eq.
    assert (guarded (calls w2)) as Hg2.
    { rewrite Hc. apply guarded_app_quiet; [exact Hg1|apply deleted_quiet]. }
    destruct (new_campaign_of campaign new_template new_smtp) as [m|e] eqn:Em;
      cbn [of_result]; [|exact Hg2].
    rewrite bindM_eq, call_post_eq.
    assert (guarded (calls w2 ++ [Posted Campaigns m (post srv Campaigns m (remote w2)).1]))
      as Hg3.
    { rewrite Hc. unfold w1. cbn [calls]. rewrite <- !app_assoc. cbn [app].
      pose proof (new_campaign_name _ _ _ _ _ Hname Em) as ->.
      rewrite (List.filter_ext (fun old => eq_str (VStr (m_name m)) (m_name old))
                 (same_name m)).
      - now apply guarded_app_post.
      - intros old. unfold same_name. cbn [eq_str]. apply String.eqb_sym. }
    destruct (post srv Campaigns m (remote w2)) as [[c|e] s3]; cbn [of_result fst snd] in *;
      exact Hg3.
  - cbn [snd]. rewrite Hc. apply guarded_app_quiet; [exact Hg1|].
    apply Forall_app. split; [apply deleted_quiet|].
    constructor; [reflexivity|constructor].
Qed.

Lemma build_campaign_keeps_guard fuel campaign :
  keeps_guard (build_campaign srv fuel campaign).
Proof.
  unfold build_campaign. intros w Hg. rewrite bindM_eq, lift_eq.
  destruct (getitem campaign "name") as [name|e] eqn:Hname; cbn [of_result];
    [|exact Hg].
  revert w Hg. change (keeps_guard
    (new_template ← lift (new_template_of campaign);
     new_template ← upsert srv fuel Template new_template None;
     new_smtp ← lift (new_smtp_of campaign);
     new_smtp ← upsert srv fuel SMTP new_smtp None;
     old_campaigns ← call_get srv Campaigns;
     _ ← delete_where srv Campaigns (fun old => eq_str name (m_name old)) old_campaigns;
     new_campaign ← lift (new_campaign_of campaign new_template.1 new_smtp.1);
     _ ← call_post srv Campaigns new_campaign;
     (mret tt : M S unit))).
  apply keeps_guard_bind; [apply quiet_keeps_guard, quiet_lift|]. intros nt.
  apply keeps_guard_bind; [apply quiet_keeps_guard, quiet_upsert|]. intros ct.
  apply keeps_guard_bind; [apply quiet_keeps_guard, quiet_lift|]. intros ns.
  apply keeps_guard_bind; [apply quiet_keeps_guard, quiet_upsert|]. intros cs.
  now apply list_delete_create_keeps_guard.
Qed.

Lemma campaigns_loop_keeps_guard fuel campaigns :
  keeps_guard (campaigns_loop srv fuel campaigns).
Proof.
  induction campaigns as [|campaign rest IH]; cbn [campaigns_loop].
  - apply quiet_keeps_guard, quiet_ret.
  - apply keeps_guard_bind; [apply build_campaign_keeps_guard|]. intros _. exact IH.
Qed.

Lemma build_campaigns_keeps_guard fuel assessment :
  keeps_guard (build_campaigns srv fuel assessment).
Proof.
  unfold build_campaigns.
  apply keeps_guard_bind; [apply quiet_keeps_guard, quiet_lift|]. intros campaigns.
  apply campaigns_loop_keeps_guard.
Qed.

Lemma import_assessment_keeps_guard fuel assessment :
  keeps_guard (import_assessment srv fuel assessment).
Proof.
  unfold import_assessment.
  apply keeps_guard_bind; [apply quiet_keeps_guard, quiet_load_landings|]. intros pages.
  apply keeps_guard_bind; [apply quiet_keeps_guard, quiet_lift|]. intros a1.
  apply keeps_guard_bind; [apply quiet_keeps_guard, quiet_load_groups|]. intros groups.
  apply keeps_guard_bind; [apply quiet_keeps_guard, quiet_lift|]. intros a2.
  apply build_campaigns_keeps_guard.
Qed.

(** C4.  For every import, on every server and from every state of it: in
    the calls that [build_campaigns], and [main] as a whole, issue, each
    campaign create comes right after a listing of the remote campaigns and
    the accepted deletion, by id, of every listed campaign whose name equals
    the new campaign's name.  The deletions come before the create, and no
    create is issued for a name that the last listing still shows
    undeleted. *)
Theorem campaign_created_after_deletes (fuel : nat) (assessment : pyval) (s : S) :
  guarded (calls (build_campaigns srv fuel assessment (mkWorld s [])).2)
  /\ guarded (calls (main srv fuel assessment (mkWorld s [])).2).
Proof.
  split.
  - apply build_campaigns_keeps_guard. apply guarded_nil.
  - pose proof (import_assessment_keeps_guard fuel assessment (mkWorld s []) guarded_nil)
      as H.
    unfold main.
    destruct (import_assessment srv fuel assessment (mkWorld s [])) as [[u|e|] w'];
      exact H.
Qed.

End CampaignFacts.

(* ===================================================================== *)
(** ** What the loaders hand back *)
(* ===================================================================== *)

Section LoaderFacts.
Import Py Importer ImportSpec.
Local Open Scope string_scope.

Context {S : Type}.
Variable srv : server S.

Lemma rounds_returns k new n tr created :
  rounds k new n tr (Returns created) -> In (Posted (Of k) new (Ok created)) tr.
Proof.
  intros H. remember (Returns created) as out eqn:E.
  induction H as [n c|n e Hne|n e|n olds before old after e Hf|n olds tr out Hr IH|];
    try discriminate.
  - injection E as ->. now left.
  - cbn [app]. do 2 right. apply in_or_app. right. now apply IH.
Qed.

(** A run of the loop that returns has created what it returns, and its
    calls extend the log. *)
Lemma upsert_returns fuel k new listing (w w' : world S) created listing' :
  upsert srv fuel k new listing w = (Returns (created, listing'), w') ->
  exists tr, calls w' = (calls w ++ tr)%list
             /\ In (Posted (Of k) new (Ok created)) tr.
Proof.
  intros H. destruct (upsert_rounds srv fuel k new listing w) as (tr & Hc & Hr).
  rewrite H in Hc, Hr. cbn in Hc, Hr.
  exists tr. split; [exact Hc|]. eapply rounds_returns. exact Hr.
Qed.

Lemma quiet_extends {A} (m : M S A) (w w' : world S) o :
  quiet m -> m w = (o, w') -> exists tr, calls w' = (calls w ++ tr)%list.
Proof. intros Hq H. destruct (Hq w) as (tr & Hc & _). rewrite H in Hc. eauto. Qed.

Lemma id_captured_later k new_of log tr r r' :
  id_captured k new_of log r r' -> id_captured k new_of (log ++ tr) r r'.
Proof.
  intros (new & created & Hn & Hin & Hs). exists new, created.
  repeat split; auto. apply in_or_app. now left.
Qed.

Lemma bindM_Returns_inv {A B} (m : M S A) (k : A -> M S B) (w w' : world S) b :
  (m ≫= k) w = (Returns b, w') ->
  exists a w1, m w = (Returns a, w1) /\ k a w1 = (Returns b, w').
Proof.
  rewrite bindM_eq. destruct (m w) as [[a|e|] w1]; try discriminate. eauto.
Qed.

Lemma lift_Returns_inv {A} (r : result A) (w w' : world S) a :
  lift r w = (Returns a, w') -> r = Ok a /\ w' = w.
Proof. rewrite lift_eq. destruct r; cbn; intros [= <- <-]; auto. Qed.

(** The loop of [load_landings] hands back the page records, each with the
    id of the page created from it. *)
Lemma landings_loop_ids fuel pages : forall (w w' : world S) pages',
  landings_loop srv fuel pages w = (Returns pages', w') ->
  Forall2 (id_captured Page new_page_of (calls w')) pages pages'.
Proof.
  induction pages as [|page rest IH]; intros w w' pages' H; cbn [landings_loop] in H.
  - injection H as <- <-. constructor.
  - apply bindM_Returns_inv in H as (np & w0 & Hn & H).
    apply lift_Returns_inv in Hn as [Hn ->].
    apply bindM_Returns_inv in H as ([created l] & w1 & Hu & H).
    apply bindM_Returns_inv in H as (page' & w2 & Hs & H).
    apply lift_Returns_inv in Hs as [Hs ->].
    apply bindM_Returns_inv in H as (rest' & w3 & Hl & H).
    injection H as <- <-.
    apply upsert_returns in Hu as (tr & Hc & Hin).
    destruct (quiet_extends _ _ _ _ (quiet_landings_loop srv fuel rest) Hl) as (tr' & Hc').
    constructor; [|now apply (IH w1 w3)].
    rewrite Hc'. apply id_captured_later.
    exists np, created. repeat split; auto.
    rewrite Hc. apply in_or_app. now right.
Qed.

Lemma last_listing_app k tr1 tr2 init :
  last_listing k (tr1 ++ tr2) init = last_listing k tr2 (last_listing k tr1 init).
Proof.
  revert init. induction tr1 as [|e tr1 IH]; intros init; [reflexivity|].
  cbn [app last_listing]. destruct e as [| ep [olds|]|]; apply IH.
Qed.

Lemma last_listing_deleted k ep olds init :
  last_listing k (map (deleted_ok ep) olds) init = init.
Proof. induction olds as [|o olds IH]; [reflexivity|]. exact IH. Qed.

Lemma rounds_listing fuel k new : forall listing (w w' : world S) created listing' tr,
  upsert srv fuel k new listing w = (Returns (created, listing'), w') ->
  calls w' = (calls w ++ tr)%list ->
  listing' = last_listing (Of k) tr listing.
Proof.
  induction fuel as [|fuel IH]; intros listing w w' created listing' tr H Hc;
    cbn [upsert] in H; [discriminate|].
  rewrite call_post_eq in H.
  destruct (post srv (Of k) new (remote w)) as [[c|e] s] eqn:Ep;
    cbn [of_result fst snd] in H.
  - injection H as <- <- <-. cbn [calls] in Hc.
    apply app_inv_head in Hc as <-. reflexivity.
  - destruct e as [| | | | |msg|]; try discriminate.
    destruct (String.eqb_spec msg (name_in_use k)) as [->|_]; [|discriminate].
    apply bindM_Returns_inv in H as (olds & w1 & Hg & H).
    rewrite call_get_eq in Hg. cbn [remote] in Hg.
    destruct (get srv (Of k) s) as [[olds'|e] s2]; cbn [of_result fst snd] in Hg;
      [|discriminate].
    injection Hg as <- <-.
    apply bindM_Returns_inv in H as ([] & w2 & Hd & H).
    destruct (delete_where_calls srv (Of k)
                (fun old => String.eqb (m_name old) (m_name new)) olds'
                (mkWorld s2 ((calls w ++ [Posted (Of k) new
                                            (Raise (GophishError (name_in_use k)))])
                             ++ [Listed (Of k) (Ok olds')])%list))
      as [(w2' & Hr & Hc2)|(before & o & after & e & w2' & _ & Hr & _)];
      rewrite Hr in Hd; [|discriminate].
    injection Hd as <-. cbn [calls] in Hc2.
    destruct (upsert_rounds srv fuel k new (Some olds') w2') as (tr' & Hc' & _).
    rewrite H in Hc'. cbn [snd] in Hc'.
    rewrite Hc', Hc2, <- !app_assoc in Hc.
    apply app_inv_head in Hc as <-.
    rewrite (IH (Some olds') w2' w' created listing' tr' H Hc').
    cbn [app last_listing]. rewrite last_listing_app, last_listing_deleted.
    now destruct k.
Qed.

(** The loop of [load_groups] hands back the group records, each with the
    id of the group created from it, and the listing that the variable
    [groups] was assigned last, if any. *)
Lemma groups_loop_ids fuel groups : forall listing (w w' : world S) groups' listing',
  groups_loop srv fuel groups listing w = (Returns (groups', listing'), w') ->
  Forall2 (id_captured Group new_group_of (calls w')) groups groups'
  /\ exists tr, calls w' = (calls w ++ tr)%list
                /\ listing' = last_listing (Of Group) tr listing.
Proof.
  induction groups as [|group rest IH]; intros listing w w' groups' listing' H;
    cbn [groups_loop] in H.
  - injection H as <- <- <-. split; [constructor|].
    exists []. now rewrite app_nil_r.
  - apply bindM_Returns_inv in H as (ng & w0 & Hn & H).
    apply lift_Returns_inv in Hn as [Hn ->].
    apply bindM_Returns_inv in H as ([created l] & w1 & Hu & H).
    apply bindM_Returns_inv in H as (group' & w2 & Hs & H).
    apply lift_Returns_inv in Hs as [Hs ->].
    apply bindM_Returns_inv in H as ([rest' l'] & w3 & Hl & H).
    injection H as <- <- <-. cbn [fst snd] in *.
    destruct (upsert_returns _ _ _ _ _ _ _ _ Hu) as (tr & Hc & Hin).
    pose proof (rounds_listing _ _ _ _ _ _ _ _ _ Hu Hc) as Hl1.
    destruct (IH l w1 w3 rest' l' Hl) as (HF & tr' & Hc' & Hl2).
    split.
    + constructor; [|exact HF].
      rewrite Hc'. apply id_captured_later.
      exists ng, created. repeat split; auto.
      rewrite Hc. apply in_or_app. now right.
    + exists (tr ++ tr')%list. split.
      * now rewrite Hc', Hc, app_assoc.
      * now rewrite last_listing_app, <- Hl1.
Qed.

(** X17.  [load_landings] hands back the assessment's page records, with the ids;
    [load_groups] hands back the assessment's group records, with the ids,
    exactly when no listing of the groups was assigned to [groups], that
    is, when no group met a name conflict; otherwise it hands back the
    listing assigned last: model objects of the groups the server had. *)
Lemma loaders_return fuel assessment (w w' : world S) :
  (forall r,
      load_landings srv fuel assessment w = (Returns r, w') ->
      exists pages pages',
        getitem assessment "pages" = Ok (VList pages)
        /\ r = Records pages'
        /\ Forall2 (id_captured Page new_page_of (calls w')) pages pages')
  /\ (forall r,
         load_groups srv fuel assessment w = (Returns r, w') ->
         exists groups groups' tr,
           getitem assessment "groups" = Ok (VList groups)
           /\ calls w' = (calls w ++ tr)%list
           /\ Forall2 (id_captured Group new_group_of (calls w')) groups groups'
           /\ r = match last_listing (Of Group) tr None with
                  | None => Records groups'
                  | Some listing => Models listing
                  end).
Proof.
  split.
  - intros r H. unfold load_landings in H.
    apply bindM_Returns_inv in H as (pages & w0 & Hp & H).
    apply lift_Returns_inv in Hp as [Hp ->].
    apply bindM_Returns_inv in H as (pages' & w1 & Hl & H).
    injection H as <- <-.
    apply bind_Ok in Hp as (p & Hp & Hlist).
    destruct p; try discriminate. injection Hlist as ->.
    exists pages, pages'. repeat split; auto.
    eapply landings_loop_ids. exact Hl.
  - intros r H. unfold load_groups in H.
    apply bindM_Returns_inv in H as (groups & w0 & Hp & H).
    apply lift_Returns_inv in Hp as [Hp ->].
    apply bindM_Returns_inv in H as ([groups' listing'] & w1 & Hl & H).
    injection H as <- <-. cbn [fst snd].
    apply bind_Ok in Hp as (p & Hp & Hlist).
    destruct p; try discriminate. injection Hlist as ->.
    destruct (groups_loop_ids _ _ _ _ _ _ _ Hl) as (HF & tr & Hc & ->).
    exists groups, groups', tr. repeat split; auto.
Qed.

End LoaderFacts.

(* ===================================================================== *)
(** ** The campaign builder on the simulated server *)
(* ===================================================================== *)

(** On a server that does what it is asked, the deletes that come before
    the create leave no campaign of the name: after a campaign is built,
    the server holds exactly one campaign of its name. *)
Section SimFacts.
Import Py Importer ImportSpec Sim.
Local Open Scope string_scope.

Lemma endpoint_eqb_campaigns ep k :
  endpoint_eqb ep Campaigns = true -> endpoint_eqb ep (Of k) = false.
Proof. destruct ep; [discriminate|reflexivity]. Qed.

Lemma sim_post_kind_keeps k m s :
  listing Campaigns (sim_post (Of k) m s).2 = listing Campaigns s.
Proof.
  unfold sim_post. destruct (String.eqb (m_name m) ""); [reflexivity|].
  destruct (existsb _ _); [reflexivity|].
  unfold create, listing. cbn [snd store]. rewrite List.filter_app. cbn.
  now rewrite app_nil_r.
Qed.

Lemma sim_delete_kind_keeps k id s :
  listing Campaigns (sim_delete (Of k) id s).2 = listing Campaigns s.
Proof.
  unfold sim_delete. destruct (existsb _ _); [|reflexivity].
  unfold listing. cbn [snd store]. f_equal.
  induction (store s) as [|p l IH]; [reflexivity|]. cbn [List.filter].
  destruct (endpoint_eqb p.1 Campaigns) eqn:E.
  - rewrite (endpoint_eqb_campaigns _ k E). cbn [andb negb List.filter].
    rewrite E. now rewrite IH.
  - destruct (negb _); cbn [List.filter]; [rewrite E|]; exact IH.
Qed.

Lemma sim_delete_campaigns id s :
  existsb (has_id id) (listing Campaigns s) = true ->
  listing Campaigns (sim_delete Campaigns id s).2
  = List.filter (fun m => negb (has_id id m)) (listing Campaigns s).
Proof.
  intros H. unfold sim_delete. rewrite H. clear H.
  unfold listing. cbn [snd store].
  induction (store s) as [|p l IH]; [reflexivity|]. cbn [List.filter].
  destruct (endpoint_eqb p.1 Campaigns) eqn:E; cbn [andb negb map List.filter].
  - destruct (has_id id p.2); cbn [negb List.filter map]; [|rewrite E; cbn [map]];
      now rewrite IH.
  - rewrite E. exact IH.
Qed.

Lemma keeps_bind {A B} (m : M state A) (k : A -> M state B) :
  keeps_campaigns m -> (forall a, keeps_campaigns (k a)) -> keeps_campaigns (m ≫= k).
Proof.
  intros Hm Hk w. rewrite bindM_eq. specialize (Hm w).
  destruct (m w) as [[a|e|] w']; cbn [snd] in *; [|exact Hm|exact Hm].
  now rewrite Hk.
Qed.

Lemma keeps_ret {A} (a : A) : keeps_campaigns (mret a : M state A).
Proof. intros w. reflexivity. Qed.

Lemma keeps_lift {A} (r : result A) : keeps_campaigns (lift r : M state A).
Proof. intros w. reflexivity. Qed.

Lemma keeps_call_post k m : keeps_campaigns (call_post sim (Of k) m).
Proof. intros w. rewrite call_post_eq. apply sim_post_kind_keeps. Qed.

Lemma keeps_call_get ep : keeps_campaigns (call_get sim ep).
Proof. intros w. rewrite call_get_eq. reflexivity. Qed.

Lemma keeps_call_delete k id : keeps_campaigns (call_delete sim (Of k) id).
Proof. intros w. rewrite call_delete_eq. apply sim_delete_kind_keeps. Qed.

Lemma keeps_delete_where k same olds : keeps_campaigns (delete_where sim (Of k) same olds).
Proof.
  induction olds as [|old olds IH]; cbn [delete_where]; [apply keeps_ret|].
  destruct (same old); [|exact IH].
  apply keeps_bind; [apply keeps_call_delete|]. intros _. exact IH.
Qed.

Lemma keeps_upsert fuel k new : forall listing,
  keeps_campaigns (upsert sim fuel k new listing).
Proof.
  induction fuel as [|fuel IH]; intros listing w; cbn [upsert]; [reflexivity|].
  pose proof (keeps_call_post k new w) as Hp.
  destruct (call_post sim (Of k) new w) as [[created|e|] w1]; cbn [snd] in *;
    try exact Hp.
  assert (keeps_campaigns
            (olds ← call_get sim (Of k);
             _ ← delete_where sim (Of k)
                   (fun old => String.eqb (m_name old) (m_name new)) olds;
             upsert sim fuel k new (Some olds))) as Hk.
  { apply keeps_bind; [apply keeps_call_get|]. intros olds.
    apply keeps_bind; [apply keeps_delete_where|]. intros _. apply IH. }
  destruct e as [| | | | |msg|]; try exact Hp.
  destruct (String.eqb msg (name_in_use k)); [|exact Hp].
  now rewrite Hk.
Qed.

(** The deletes of the campaigns that [same] selects, all accepted: every
    selected campaign had an id, and no campaign of that id is left. *)
Lemma delete_where_campaigns same olds : forall (w w' : world state),
  delete_where sim Campaigns same olds w = (Returns tt, w') ->
  (forall m, In m (campaigns_of w') -> In m (campaigns_of w))
  /\ (forall o, In o olds -> same o = true ->
                (exists z, m_id o = Some z)
                /\ forall m, In m (campaigns_of w') -> has_id (m_id o) m = false).
Proof.
  induction olds as [|old olds IH]; intros w w' H; cbn [delete_where] in H.
  - injection H as <-. split; [auto|]. intros o [].
  - destruct (same old) eqn:Es.
    + apply bindM_Returns_inv in H as ([] & w1 & Hd & H).
      rewrite call_delete_eq in Hd.
      assert (existsb (has_id (m_id old)) (campaigns_of w) = true) as Hex.
      { unfold campaigns_of. cbn [delete sim] in Hd. unfold sim_delete in Hd.
        destruct (existsb _ _); [reflexivity|discriminate]. }
      assert (campaigns_of w1
              = List.filter (fun m => negb (has_id (m_id old) m)) (campaigns_of w)) as Hw1.
      { injection Hd as _ <-. unfold campaigns_of. cbn [remote delete sim].
        now apply sim_delete_campaigns. }
      destruct (IH w1 w' H) as (Hin & Hsel).
      split.
      * intros m Hm. apply Hin in Hm. rewrite Hw1 in Hm.
        now apply filter_In in Hm as [Hm _].
      * intros o [<-|Ho] Hso.
        -- split.
           ++ apply existsb_exists in Hex as (x & _ & Hx). unfold has_id in Hx.
              destruct (m_id old); [eauto|discriminate].
           ++ intros m Hm. apply Hin in Hm. rewrite Hw1 in Hm.
              apply filter_In in Hm as [_ Hm]. now apply negb_true_iff in Hm.
        -- now apply Hsel.
    + destruct (IH w w' H) as (Hin & Hsel). split; [exact Hin|].
      intros o [<-|Ho] Hso; [congruence|now apply Hsel].
Qed.

Lemma filter_none {A} (f : A -> bool) (l : list A) :
  (forall x, In x l -> f x = false) -> List.filter f l = [].
Proof.
  induction l as [|a l IH]; intros H; [reflexivity|]. cbn [List.filter].
  rewrite (H a (or_introl eq_refl)). apply IH. intros x Hx. apply H. now right.
Qed.

(** X20.  On the simulated server (ids are not reused, a delete removes
    the resource of that id), a campaign that was built is the only
    campaign of its name: whatever campaigns of the name the server held,
    one is left, so that importing an assessment again does not pile up
    campaigns. *)
Lemma build_campaign_leaves_one fuel campaign (w w' : world state) :
  build_campaign sim fuel campaign w = (Returns tt, w') ->
  exists name,
    getitem campaign "name" = Ok (VStr name)
    /\ length (List.filter (fun m => String.eqb (m_name m) name) (campaigns_of w')) = 1.
Proof.
  intros H. unfold build_campaign in H.
  apply bindM_Returns_inv in H as (n & w0 & Hname & H).
  apply lift_Returns_inv in Hname as [Hname ->].
  apply bindM_Returns_inv in H as (nt & w0 & Hnt & H).
  apply lift_Returns_inv in Hnt as [Hnt ->].
  apply bindM_Returns_inv in H as (ct & w1 & Hut & H).
  apply bindM_Returns_inv in H as (ns & w0 & Hns & H).
  apply lift_Returns_inv in Hns as [Hns ->].
  apply bindM_Returns_inv in H as (cs & w2 & Hus & H).
  apply bindM_Returns_inv in H as (olds & w3 & Hg & H).
  apply bindM_Returns_inv in H as ([] & w4 & Hd & H).
  apply bindM_Returns_inv in H as (m & w0 & Hm & H).
  apply lift_Returns_inv in Hm as [Hm ->].
  apply bindM_Returns_inv in H as (created & w5 & Hp & H).
  injection H as <-.
  pose proof (new_campaign_name _ _ _ _ _ Hname Hm) as ->.
  exists (m_name m). split; [exact Hname|].
  rewrite call_get_eq in Hg. cbn [get sim sim_get of_result fst snd] in Hg.
  injection Hg as <- <-.
  destruct (delete_where_campaigns _ _ _ _ Hd) as (Hin & Hsel).
  assert (List.filter (fun x => String.eqb (m_name x) (m_name m)) (campaigns_of w4) = [])
    as Hnone.
  { apply filter_none. intros x Hx.
    destruct (String.eqb (m_name x) (m_name m)) eqn:E; [|reflexivity].
    pose proof (Hin x Hx) as Hx0. unfold campaigns_of in Hx0. cbn [remote] in Hx0.
    destruct (Hsel x Hx0) as ((z & Hz) & Hno).
    { cbn [eq_str]. now rewrite String.eqb_sym. }
    specialize (Hno x Hx). unfold has_id in Hno. rewrite Hz in Hno.
    now rewrite Z.eqb_refl in Hno. }
  rewrite call_post_eq in Hp. cbn [post sim] in Hp. unfold sim_post in Hp.
  destruct (String.eqb (m_name m) ""); [discriminate|].
  unfold create in Hp. cbn [of_result fst snd] in Hp. injection Hp as _ <-.
  unfold campaigns_of, listing. cbn [remote store].
  rewrite List.filter_app, map_app, List.filter_app. cbn [List.filter endpoint_eqb map fst snd].
  fold (listing Campaigns (remote w4)). fold (campaigns_of w4). rewrite Hnone.
  cbn [m_name app]. now rewrite String.eqb_refl.
Qed.

End SimFacts.

(* ===================================================================== *)
(** ** The export as a whole: ids, targets, campaigns, [main] *)
(* ===================================================================== *)

Section RunExportFacts.
Import Py Exporter ExportSpec ExportRun RunSpec.
Local Open Scope string_scope.

Variable detect : pyval -> result pyval.

Lemma prefix_starts_with a s : String.prefix a s = true <-> starts_with a s.
Proof.
  revert s. induction a as [|c a IH]; intros s.
  - split; [|now destruct s]. intros _. now exists s.
  - destruct s as [|c' s]; cbn [String.prefix].
    + split; [discriminate|]. intros (rest & H). discriminate.
    + destruct (Ascii.ascii_dec c c') as [->|Hne].
      * rewrite IH. split; intros (rest & H); exists rest.
        -- rewrite string_app_cons. now f_equal.
        -- rewrite string_app_cons in H. now injection H.
      * split; [discriminate|]. intros (rest & H).
        rewrite string_app_cons in H. injection H as <- _. now destruct Hne.
Qed.

Lemma named_for_spec assessment_id d :
  named_for assessment_id d = true <->
  exists s, getitem d "name" = Ok (VStr s) /\ starts_with assessment_id s.
Proof.
  unfold named_for. destruct (getitem d "name") as [v|e].
  - destruct v; try (split; [discriminate|intros (s0 & [=] & _)]).
    rewrite prefix_starts_with. split.
    + intros H. eauto.
    + now intros (s0 & [= <-] & H).
  - split; [discriminate|]. now intros (s0 & [=] & _).
Qed.

Lemma campaign_ids_loop_spec assessment_id cs : forall acc ids,
  campaign_ids_loop assessment_id cs acc = Ok ids ->
  exists new, ids = (acc ++ new)%list
    /\ Forall2 (fun c id => getitem (c_as_dict c) "id" = Ok id)
         (List.filter (fun c => named_for assessment_id (c_as_dict c)) cs) new.
Proof.
  induction cs as [|c cs IH]; intros acc ids H; cbn [campaign_ids_loop] in H.
  - injection H as <-. exists []. rewrite app_nil_r. split; [reflexivity|constructor].
  - apply bind_Ok in H as (name & Hn & H).
    apply bind_Ok in H as (s & Hs & H). apply as_str_Ok in Hs. subst name.
    cbn [List.filter]. unfold named_for at 1. rewrite Hn.
    destruct (String.prefix assessment_id s).
    + apply bind_Ok in H as (id & Hid & H).
      apply IH in H as (new & -> & HF).
      exists (id :: new). rewrite <- app_assoc. split; [reflexivity|].
      constructor; assumption.
    + now apply IH.
Qed.

Lemma group_ids_loop_spec assessment_id gs : forall acc ids,
  group_ids_loop assessment_id gs acc = Ok ids ->
  exists new, ids = (acc ++ new)%list
    /\ Forall2 (fun group id => getitem group "id" = Ok id)
         (List.filter (named_for assessment_id) gs) new.
Proof.
  induction gs as [|group gs IH]; intros acc ids H; cbn [group_ids_loop] in H.
  - injection H as <-. exists []. rewrite app_nil_r. split; [reflexivity|constructor].
  - apply bind_Ok in H as (name & Hn & H).
    apply bind_Ok in H as (s & Hs & H). apply as_str_Ok in Hs. subst name.
    cbn [List.filter]. unfold named_for at 1. rewrite Hn.
    destruct (String.prefix assessment_id s).
    + apply bind_Ok in H as (id & Hid & H).
      apply IH in H as (new & -> & HF).
      exists (id :: new). rewrite <- app_assoc. split; [reflexivity|].
      constructor; assumption.
    + now apply IH.
Qed.

(** X1.  The ids that [get_campaign_ids] and [get_group_ids] return are the
    ids of the campaigns, or groups, of the server's listing whose name
    starts with the assessment id, one for each and in the order of the
    listing. *)
Theorem ids_of_named_resources (a : api) (g : groups_api) (assessment_id : string) :
  (forall ids,
      get_campaign_ids a assessment_id = Ok ids ->
      exists cs,
        campaigns_all a = Ok cs
        /\ Forall2 (fun c id => getitem (c_as_dict c) "id" = Ok id)
             (List.filter (fun c => named_for assessment_id (c_as_dict c)) cs) ids)
  /\ (forall ids,
         get_group_ids g assessment_id = Ok ids ->
         exists gs,
           groups_all g = Ok gs
           /\ Forall2 (fun group id => getitem group "id" = Ok id)
                (List.filter (named_for assessment_id) gs) ids)
  /\ (forall d,
         named_for assessment_id d = true <->
         exists s, getitem d "name" = Ok (VStr s) /\ starts_with assessment_id s).
Proof.
  split; [|split].
  - intros ids H. unfold get_campaign_ids in H.
    apply bind_Ok in H as (cs & Hcs & H).
    apply campaign_ids_loop_spec in H as (new & -> & HF). eauto.
  - intros ids H. unfold get_group_ids in H.
    apply bind_Ok in H as (gs & Hgs & H).
    apply group_ids_loop_spec in H as (new & -> & HF). eauto.
  - apply named_for_spec.
Qed.

Lemma campaign_ids_loop_total assessment_id cs :
  Forall consistent cs ->
  forall acc, exists new,
    campaign_ids_loop assessment_id cs acc = Ok (acc ++ new)%list
    /\ length new
       = length (List.filter (fun c => String.prefix assessment_id (c_name c)) cs).
Proof.
  induction 1 as [|c cs (Hn & id & Hid) _ IH]; intros acc; cbn [campaign_ids_loop].
  - exists []. now rewrite app_nil_r.
  - rewrite (bind_eq_Ok _ _ _ Hn). cbn [as_str]. rewrite (bind_eq_Ok _ _ _ eq_refl).
    cbn [List.filter]. destruct (String.prefix assessment_id (c_name c)).
    + rewrite (bind_eq_Ok _ _ _ Hid).
      destruct (IH (acc ++ [id])%list) as (new & -> & Hl).
      exists (id :: new). rewrite <- app_assoc. split; [reflexivity|].
      cbn [length]. now rewrite Hl.
    + apply IH.
Qed.

(** X2.  When the campaign objects and their dictionaries agree on the names,
    [assessment_exists] says yes exactly when [get_campaign_ids] finds a
    campaign: the ids are as many as the campaigns whose name starts with
    the assessment id. *)
Theorem assessment_exists_agrees (a : api) (assessment_id : string)
    (cs : list campaign_obj) :
  campaigns_all a = Ok cs ->
  Forall consistent cs ->
  exists ids,
    get_campaign_ids a assessment_id = Ok ids
    /\ length ids
       = length (List.filter (fun c => String.prefix assessment_id (c_name c)) cs)
    /\ assessment_exists a assessment_id = Ok (negb (Nat.eqb (length ids) 0)).
Proof.
  intros Hcs Hall.
  destruct (campaign_ids_loop_total assessment_id cs Hall []) as (ids & Hloop & Hlen).
  exists ids. unfold get_campaign_ids, assessment_exists.
  rewrite !(bind_eq_Ok _ _ _ Hcs). split; [exact Hloop|]. split; [exact Hlen|].
  rewrite Hlen. f_equal. clear.
  induction cs as [|c cs IH]; [reflexivity|]. cbn [existsb List.filter].
  destruct (String.prefix assessment_id (c_name c)); [reflexivity|exact IH].
Qed.

End RunExportFacts.

Section RunExportFacts2.
Import Py Exporter ExportSpec ExportRun RunSpec.
Local Open Scope string_scope.

Variable detect : pyval -> result pyval.

Lemma users_size_cons (u : string) (l : list string) :
  size (list_to_set (u :: l) : gset string)
  = if decide (u ∈ l) then size (list_to_set l : gset string)
    else Datatypes.S (size (list_to_set l : gset string)).
Proof.
  cbn [list_to_set foldr]. destruct (decide (u ∈ l)) as [Hin|Hout].
  - f_equal. apply subseteq_union_1_L, singleton_subseteq_l.
    now apply elem_of_list_to_set.
  - rewrite size_union, size_singleton; [reflexivity|].
    apply disjoint_singleton_l. now rewrite elem_of_list_to_set.
Qed.

Lemma users_size_le (l : list string) :
  size (list_to_set l : gset string) <= length l.
Proof.
  induction l as [|u l IH]; [reflexivity|].
  rewrite users_size_cons. cbn [length]. destruct (decide (u ∈ l)); lia.
Qed.

Lemma users_size_NoDup (l : list string) :
  size (list_to_set l : gset string) = length l <-> NoDup l.
Proof.
  induction l as [|u l IH].
  - split; [constructor|reflexivity].
  - rewrite users_size_cons. cbn [length]. rewrite NoDup_cons.
    pose proof (users_size_le l). destruct (decide (u ∈ l)) as [Hin|Hout].
    + split; [lia|]. now intros [? _].
    + split.
      * intros E. split; [exact Hout|]. apply IH. lia.
      * intros [_ Hnd]. f_equal. now apply IH.
Qed.

(** X3.  The count of unique clicks is the number of different users among the
    clicks: it is at most the number of click records, equal to it
    exactly when no user clicked twice, zero only without clicks, and it
    does not depend on the order or the repetition of the clicks. *)
Theorem unique_clicks_counts_users (clicks : list click) :
  (0 <= find_unique_target_clicks_count clicks <= Z.of_nat (length clicks))%Z
  /\ (find_unique_target_clicks_count clicks = Z.of_nat (length clicks)
      <-> NoDup (map click_user clicks))
  /\ (find_unique_target_clicks_count clicks = 0%Z <-> clicks = [])
  /\ (forall clicks',
         (forall u, u ∈ map click_user clicks <-> u ∈ map click_user clicks') ->
         find_unique_target_clicks_count clicks'
         = find_unique_target_clicks_count clicks).
Proof.
  unfold find_unique_target_clicks_count.
  pose proof (users_size_le (map click_user clicks)) as Hle.
  rewrite length_map in Hle.
  split; [lia|]. split; [|split].
  - rewrite <- users_size_NoDup, length_map. lia.
  - destruct clicks as [|c clicks]; [now split|].
    split; [|discriminate]. intros H. exfalso.
    cbn [map] in H. rewrite users_size_cons in H.
    destruct (decide (click_user c ∈ map click_user clicks)) as [Hin|Hout]; [|lia].
    assert (size (list_to_set (map click_user clicks) : gset string) = 0)
      as H0 by lia.
    apply size_empty_inv in H0.
    apply (elem_of_empty (C := gset string) (click_user c)).
    rewrite <- H0. now apply elem_of_list_to_set.
  - intros clicks' Hsame. do 2 f_equal. apply leibniz_equiv.
    intros u. rewrite !elem_of_list_to_set. symmetry. apply Hsame.
Qed.

Lemma contains_Ok d k b :
  contains d k = Ok b ->
  exists m, d = VDict m /\ b = match m !! k with Some _ => true | None => false end.
Proof. destruct d; cbn; try discriminate. intros [= <-]. eauto. Qed.

Lemma target_of_spec assessment_id raw_target target :
  target_of assessment_id raw_target = Ok target ->
  exported_target assessment_id raw_target target.
Proof.
  unfold target_of, exported_target, labels_of. intros H.
  apply bind_Ok in H as (email & He & H).
  apply bind_Ok in H as (id & Hid & H).
  apply sha256_hex_Ok in Hid as (e & -> & ->).
  apply bind_Ok in H as (b & Hb & H).
  apply contains_Ok in Hb as (m & -> & ->).
  exists e. split; [exact He|]. cbn [getitem] in *.
  destruct (m !! "position") as [position|].
  - cbn in H. injection H as <-. rewrite insert_insert_eq.
    now rewrite insert_empty.
  - now injection H as <-.
Qed.

Lemma targets_loop_spec assessment_id raw_targets : forall acc targets,
  targets_loop assessment_id raw_targets acc = Ok targets ->
  exists new, targets = (acc ++ new)%list
    /\ Forall2 (exported_target assessment_id) raw_targets new.
Proof.
  induction raw_targets as [|raw rest IH]; intros acc targets H;
    cbn [targets_loop] in H.
  - injection H as <-. exists []. rewrite app_nil_r. split; [reflexivity|constructor].
  - apply bind_Ok in H as (t & Ht & H). apply target_of_spec in Ht.
    apply IH in H as (new & -> & HF).
    exists (t :: new). rewrite <- app_assoc. split; [reflexivity|].
    now constructor.
Qed.

Lemma group_targets_loop_spec g assessment_id groupIDs : forall acc targets,
  group_targets_loop g assessment_id groupIDs acc = Ok targets ->
  exists raws new,
    Forall2 (fun group_id raw_targets => raw_targets_of g group_id = Ok raw_targets)
      groupIDs raws
    /\ targets = (acc ++ new)%list
    /\ Forall2 (exported_target assessment_id) (concat raws) new.
Proof.
  induction groupIDs as [|group_id rest IH]; intros acc targets H;
    cbn [group_targets_loop] in H.
  - injection H as <-. exists [], []. rewrite app_nil_r.
    repeat split; constructor.
  - apply bind_Ok in H as (raw & Hraw & H).
    apply bind_Ok in H as (ts & Hts & H).
    apply targets_loop_spec in Hts as (new1 & -> & HF1).
    apply IH in H as (raws & new2 & HFr & -> & HF2).
    exists (raw :: raws), (new1 ++ new2)%list. split; [now constructor|].
    split; [now rewrite app_assoc|].
    cbn [concat]. now apply Forall2_app.
Qed.

(** X4.  [export_targets] hands back one target for each raw target of each
    group whose name starts with the assessment id, in the order of the
    groups and of their targets.  An exported target has the SHA-256
    identifier of the email and the labels: the position, under the
    assessment id, when the raw target has one, else none; it has no
    other field of the raw target. *)
Theorem export_targets_anonymized (g : groups_api) (assessment_id : string)
    (targets : list pyval) :
  export_targets g assessment_id = Ok targets ->
  exists groupIDs raws,
    get_group_ids g assessment_id = Ok groupIDs
    /\ Forall2 (fun group_id raw_targets => raw_targets_of g group_id = Ok raw_targets)
         groupIDs raws
    /\ Forall2 (exported_target assessment_id) (concat raws) targets.
Proof.
  unfold export_targets. intros H.
  apply bind_Ok in H as (groupIDs & Hids & H).
  apply group_targets_loop_spec in H as (raws & new & HFr & -> & HF).
  exists groupIDs, raws. auto.
Qed.

(** X5.  The identifier of an exported target is the user of the click and of
    the send status that the export records for an event with the same
    email: the three can be joined on it. *)
Theorem target_id_joins_events (assessment_id : string)
    (raw_target target rawEvent email : pyval) :
  target_of assessment_id raw_target = Ok target ->
  getitem raw_target "email" = Ok email ->
  getitem rawEvent "email" = Ok email ->
  (forall c, click_of_event detect rawEvent = Ok (Some c) ->
             getitem target "id" = Ok (VStr (click_user c)))
  /\ (forall s, status_of_event rawEvent = Ok (Some s) ->
                getitem target "id" = Ok (VStr (st_user s))).
Proof.
  intros Ht Hr He. apply target_of_spec in Ht as (e & Hre & ->).
  rewrite Hr in Hre. injection Hre as ->.
  assert (forall u, anonymized rawEvent u ->
            getitem (VDict (<[ "customer_defined_labels" :=
                                 VDict (labels_of assessment_id raw_target) ]>
                              {[ "id" := VStr (SHA256.hexdigest e) ]})) "id"
            = Ok (VStr u)) as Hjoin.
  { intros u (e' & He' & ->). rewrite He in He'. injection He' as <-.
    cbn [getitem]. rewrite lookup_insert_ne by discriminate.
    now rewrite lookup_singleton_eq. }
  split.
  - intros c Hc. apply click_of_event_Some in Hc as (_ & Hc & _). now apply Hjoin.
  - intros s Hs. apply status_of_event_Some in Hs as (_ & (Hs & _) & _).
    now apply Hjoin.
Qed.

Lemma mapR_Ok_iff {A B} (f : A -> result B) xs ys :
  mapR f xs = Ok ys <-> Forall2 (fun x y => f x = Ok y) xs ys.
Proof.
  revert ys. induction xs as [|x xs IH]; intros ys; cbn [mapR].
  - split.
    + intros [= <-]. constructor.
    + intros H. now apply Forall2_nil_inv_l in H as ->.
  - split.
    + intros H. apply bind_Ok in H as (y & Hy & H).
      apply bind_Ok in H as (ys' & Hys & H). injection H as <-.
      constructor; [exact Hy|]. now apply IH.
    + intros H. apply Forall2_cons_inv_l in H as (y & ys' & Hy & HF & ->).
      rewrite (bind_eq_Ok _ _ _ Hy). apply IH in HF.
      now rewrite (bind_eq_Ok _ _ _ HF).
Qed.

Lemma mapR_Raise {A B} (f : A -> result B) xs x e :
  In x xs -> f x = Raise e -> forall ys, mapR f xs <> Ok ys.
Proof.
  intros Hin Hx ys H. apply mapR_Ok_iff in H. revert ys H.
  induction xs as [|x' xs IH]; intros ys H; [destruct Hin|].
  apply Forall2_cons_inv_l in H as (y & ys' & Hy & HF & ->).
  destruct Hin as [->|Hin]; [congruence|]. now apply (IH Hin ys').
Qed.

(** X6.  [export_campaigns] and [export_user_reports] give one record for each
    id of [get_campaign_ids], in that order, and give nothing at all when
    one campaign of the assessment cannot be read. *)
Theorem export_is_all_or_nothing (a : api) (assessment_id : string)
    (campaign_ids : list pyval) :
  get_campaign_ids a assessment_id = Ok campaign_ids ->
  (forall campaigns,
      export_campaigns detect a assessment_id = Ok campaigns <->
      Forall2 (fun campaign_id c => get_campaign_data detect a campaign_id = Ok c)
        campaign_ids campaigns)
  /\ (forall docs,
         export_user_reports detect a assessment_id = Ok docs <->
         Forall2 (fun campaign_id doc =>
                    user_report detect a assessment_id campaign_id = Ok doc)
           campaign_ids docs)
  /\ (forall campaign_id e,
         In campaign_id campaign_ids ->
         get_campaign_data detect a campaign_id = Raise e ->
         (forall campaigns, export_campaigns detect a assessment_id <> Ok campaigns)
         /\ (forall docs, export_user_reports detect a assessment_id <> Ok docs)).
Proof.
  intros Hids. unfold export_campaigns, export_user_reports.
  rewrite !(bind_eq_Ok _ _ _ Hids). split; [|split].
  - intros campaigns. apply mapR_Ok_iff.
  - intros docs. apply mapR_Ok_iff.
  - intros campaign_id e Hin He. split.
    + now apply (mapR_Raise _ _ campaign_id e).
    + assert (exists e', user_report detect a assessment_id campaign_id = Raise e')
        as (e' & He').
      { unfold user_report. rewrite He. now exists e. }
      now apply (mapR_Raise _ _ campaign_id e').
Qed.

End RunExportFacts2.

Section RunMainFacts.
Import Py Exporter ExportSpec ExportRun RunSpec.
Local Open Scope string_scope.

Variable detect : pyval -> result pyval.

Lemma json_serializable_dict d :
  json_serializable (VDict d)
  = map_fold (fun _ x rest => json_serializable x && rest) true d.
Proof. reflexivity. Qed.

Lemma json_dict_lookup d k v :
  json_serializable (VDict d) = true -> d !! k = Some v -> json_serializable v = true.
Proof.
  rewrite json_serializable_dict. intros H. revert H k v.
  apply (map_fold_weak_ind
           (fun b m => b = true ->
                       forall k v, m !! k = Some v -> json_serializable v = true)).
  - intros _ k v H. now rewrite lookup_empty in H.
  - intros i x m r Hi IH Hr k v Hk. apply andb_prop in Hr as [Hx Hr].
    rewrite lookup_insert in Hk. destruct (decide (i = k)) as [->|Hne].
    + now injection Hk as <-.
    + now apply (IH Hr k).
Qed.

Lemma json_list_in l v :
  json_serializable (VList l) = true -> In v l -> json_serializable v = true.
Proof.
  intros H Hin. cbn [json_serializable] in H.
  rewrite forallb_forall in H. now apply H.
Qed.

Lemma Forall2_In_l {A B} (P : A -> B -> Prop) l k x :
  Forall2 P l k -> In x l -> exists y, In y k /\ P x y.
Proof.
  induction 1 as [|a b l k Hab _ IH]; intros Hin; [destruct Hin|].
  destruct Hin as [->|Hin].
  - exists b. split; [now left|exact Hab].
  - destruct (IH Hin) as (y & Hy & HP). exists y. split; [now right|exact HP].
Qed.

Lemma Forall2_In_r {A B} (P : A -> B -> Prop) l k y :
  Forall2 P l k -> In y k -> exists x, In x l /\ P x y.
Proof.
  induction 1 as [|a b l k Hab _ IH]; intros Hin; [destruct Hin|].
  destruct Hin as [->|Hin].
  - exists a. split; [now left|exact Hab].
  - destruct (IH Hin) as (x & Hx & HP). exists x. split; [now right|exact HP].
Qed.

(** A send failure is recorded with a [datetime] as its time. *)
Lemma failed_status_time ev s :
  status_of ev s -> status_time ev s -> st_status s = "Failed" ->
  exists t, st_time s = VDatetime t.
Proof.
  intros (_ & [[_ Hs]|[He _]]) Ht Hf; [congruence|].
  unfold status_time in Ht.
  rewrite (message_is_excl ev "Error Sending Email" "Email Sent") in Ht
    by (discriminate || exact He).
  destruct Ht as (raw & whole & t & _ & _ & _ & Ht). eauto.
Qed.

Lemma status_is_success_or_failed ev s :
  status_of ev s -> st_status s = "SUCCESS" \/ st_status s = "Failed".
Proof. intros (_ & [[_ Hs]|[_ Hs]]); auto. Qed.

Lemma send_failure_recorded events status :
  status_loop events [] = Ok status ->
  has_send_failure events = true ->
  exists s t, In s status /\ st_time s = VDatetime t.
Proof.
  intros Hloop Hf. apply status_loop_spec in Hloop as (new & -> & HF).
  cbn [app]. unfold has_send_failure in Hf.
  apply existsb_exists in Hf as (ev & Hin & Hev).
  assert (In ev (filter (fun ev => is_send ev = true) events)) as Hin'.
  { apply list_elem_of_In, list_elem_of_filter. split.
    - unfold is_send. rewrite Hev. apply orb_true_r.
    - now apply list_elem_of_In. }
  destruct (Forall2_In_l _ _ _ _ HF Hin') as (s & Hs & Hof & Htime).
  unfold status_time in Htime.
  rewrite (message_is_excl ev "Error Sending Email" "Email Sent") in Htime
    by (discriminate || exact Hev).
  destruct Htime as (raw & whole & t & _ & _ & _ & Ht). eauto.
Qed.

Lemma get_campaign_data_status (a : api) campaign_id c :
  get_campaign_data detect a campaign_id = Ok c ->
  exists events,
    timeline a campaign_id = Ok events /\ status_loop events [] = Ok (cd_status c).
Proof.
  unfold get_campaign_data. intros H.
  apply bind_Ok in H as (obj & _ & H).
  apply bind_Ok in H as (id & _ & H).
  apply bind_Ok in H as (start_time & _ & H).
  apply bind_Ok in H as (end_time & _ & H).
  apply bind_Ok in H as (url & _ & H).
  apply bind_Ok in H as (template & _ & H).
  apply bind_Ok in H as (subject & _ & H).
  apply bind_Ok in H as (token & _ & H).
  apply bind_Ok in H as (clicks & _ & H).
  apply bind_Ok in H as (status & Hs & H).
  injection H as <-. cbn [cd_status].
  unfold get_email_status in Hs. apply bind_Ok in Hs as (events & He & Hs). eauto.
Qed.

Lemma status_value_time s :
  json_serializable (status_value s) = true -> json_serializable (st_time s) = true.
Proof.
  intros H. apply (json_dict_lookup _ "time" _ H). unfold status_value.
  rewrite lookup_insert_ne by discriminate. apply lookup_insert_eq.
Qed.

Lemma campaign_value_status c s :
  json_serializable (campaign_value c) = true -> In s (cd_status c) ->
  json_serializable (st_time s) = true.
Proof.
  intros H Hin. apply status_value_time.
  apply (json_list_in (map status_value (cd_status c))); [|now apply in_map].
  apply (json_dict_lookup _ "status" _ H). apply lookup_insert_eq.
Qed.

Lemma assessment_dict_status targets campaigns c s :
  json_serializable (assessment_dict targets campaigns) = true ->
  In c campaigns -> In s (cd_status c) ->
  json_serializable (st_time s) = true.
Proof.
  intros H Hc Hs. apply (campaign_value_status c); [|exact Hs].
  apply (json_list_in (map campaign_value campaigns)); [|now apply in_map].
  apply (json_dict_lookup _ "campaigns" _ H). apply lookup_insert_eq.
Qed.

(** X7.  An assessment with a send failure cannot be exported: when the
    timeline of one of its campaigns has an "Error Sending Email" event,
    the status record of that event holds a [datetime], the encoder of
    [json.dump] refuses the assessment document with [TypeError], and
    [main] stops there: no file is completed, the user reports and the
    summary are not started. *)
Theorem main_stops_on_send_failure (a : api) (g : groups_api)
    (assessment_id : string) (template : gmap string pyval)
    (targets : list pyval) (campaigns : list campaign)
    (campaign_ids : list pyval) (campaign_id : pyval) (events : list pyval) :
  assessment_exists a assessment_id = Ok true ->
  export_targets g assessment_id = Ok targets ->
  export_campaigns detect a assessment_id = Ok campaigns ->
  get_campaign_ids a assessment_id = Ok campaign_ids ->
  In campaign_id campaign_ids ->
  timeline a campaign_id = Ok events ->
  has_send_failure events = true ->
  main detect a g assessment_id template = ([], Uncaught TypeError).
Proof.
  intros Hex Ht Hc Hids Hin Hev Hf.
  assert (json_serializable (assessment_dict targets campaigns) = false) as Hjson.
  { destruct (json_serializable (assessment_dict targets campaigns)) eqn:E;
      [exfalso|reflexivity].
    pose proof Hc as Hc'. unfold export_campaigns in Hc'.
    rewrite (bind_eq_Ok _ _ _ Hids) in Hc'. apply mapR_Ok_iff in Hc'.
    destruct (Forall2_In_l _ _ _ _ Hc' Hin) as (c & Hcin & Hdata).
    apply get_campaign_data_status in Hdata as (events' & Hev' & Hloop).
    rewrite Hev in Hev'. injection Hev' as <-.
    destruct (send_failure_recorded _ _ Hloop Hf) as (s & t & Hs & Htime).
    pose proof (assessment_dict_status _ _ _ _ E Hcin Hs) as Hser.
    rewrite Htime in Hser. discriminate. }
  unfold main. rewrite Hex, (bind_eq_Ok _ _ _ Ht), (bind_eq_Ok _ _ _ Hc).
  unfold json_dump. now rewrite Hjson.
Qed.

Lemma user_reports_loop_Ok (a : api) assessment_id campaign_ids :
  forall written out,
    user_reports_loop detect a assessment_id campaign_ids written = (out, Ok tt) <->
    exists docs,
      mapR (user_report detect a assessment_id) campaign_ids = Ok docs
      /\ out = (written ++ map UserReportFile docs)%list.
Proof.
  induction campaign_ids as [|campaign_id rest IH]; intros written out;
    cbn [user_reports_loop mapR].
  - split.
    + intros [= <-]. exists []. now rewrite app_nil_r.
    + intros (docs & [= <-] & ->). now rewrite app_nil_r.
  - destruct (user_report detect a assessment_id campaign_id) as [doc|e].
    + rewrite IH. split.
      * intros (docs & Hd & ->). exists (doc :: docs).
        rewrite (bind_eq_Ok _ _ _ eq_refl), (bind_eq_Ok _ _ _ Hd).
        now rewrite <- app_assoc.
      * intros (docs & Hd & ->).
        rewrite (bind_eq_Ok _ _ _ eq_refl) in Hd.
        apply bind_Ok in Hd as (docs' & Hd & [= <-]).
        exists docs'. now rewrite <- app_assoc.
    + split; [discriminate|]. intros (docs & Hd & _). discriminate.
Qed.

Lemma export_user_reports_files_Ok (a : api) assessment_id written out :
  export_user_reports_files detect a assessment_id written = (out, Ok tt) <->
  exists docs,
    export_user_reports detect a assessment_id = Ok docs
    /\ out = (written ++ map UserReportFile docs)%list.
Proof.
  unfold export_user_reports_files, export_user_reports.
  destruct (get_campaign_ids a assessment_id) as [ids|e].
  - rewrite (bind_eq_Ok _ _ _ eq_refl). apply user_reports_loop_Ok.
  - split; [discriminate|]. intros (docs & Hd & _). discriminate.
Qed.

(** X8.  A run of [main] that returns has written, in this order, the data
    file with the targets and the campaigns, one user report for each
    campaign of the data file, the summary text and the summary JSON.
    Every send status in the data file is a SUCCESS: a Failed status is
    never exported. *)
Theorem main_done_outputs (a : api) (g : groups_api) (assessment_id : string)
    (template : gmap string pyval) (out : list output) :
  main detect a g assessment_id template = (out, Done) ->
  exists targets campaigns docs st,
    export_targets g assessment_id = Ok targets
    /\ export_campaigns detect a assessment_id = Ok campaigns
    /\ export_user_reports detect a assessment_id = Ok docs
    /\ write_campaign_summary detect a assessment_id template = Ok st
    /\ out = (DataFile (assessment_dict targets campaigns)
                :: map UserReportFile docs
                ++ [SummaryText (file_out st); SummaryJson (campaign_data st)])%list
    /\ length docs = length campaigns
    /\ Forall (fun c => Forall (fun s => st_status s = "SUCCESS") (cd_status c))
         campaigns.
Proof.
  unfold main. intros H.
  destruct (assessment_exists a assessment_id) as [[|]|]; try discriminate.
  destruct (export_targets g assessment_id) as [targets|] eqn:Et;
    [rewrite (bind_eq_Ok _ _ _ eq_refl) in H|discriminate].
  destruct (export_campaigns detect a assessment_id) as [campaigns|] eqn:Ec;
    [rewrite (bind_eq_Ok _ _ _ eq_refl) in H|discriminate].
  unfold json_dump in H.
  destruct (json_serializable (assessment_dict targets campaigns)) eqn:Ejson;
    [|discriminate].
  destruct (export_user_reports_files detect a assessment_id
              [DataFile (assessment_dict targets campaigns)])
    as [written [[]|]] eqn:Er; [|discriminate].
  apply export_user_reports_files_Ok in Er as (docs & Hdocs & ->).
  destruct (write_campaign_summary detect a assessment_id template) as [st|] eqn:Es;
    [|discriminate].
  destruct (json_serializable (VDict (campaign_data st))); [|discriminate].
  injection H as <-.
  exists targets, campaigns, docs, st.
  split; [reflexivity|]. split; [reflexivity|]. split; [exact Hdocs|].
  split; [reflexivity|]. split; [reflexivity|]. split.
  - unfold export_campaigns in Ec. unfold export_user_reports in Hdocs.
    apply bind_Ok in Ec as (ids & Hids & Ec). rewrite (bind_eq_Ok _ _ _ Hids) in Hdocs.
    apply mapR_Ok_iff, Forall2_length in Ec.
    apply mapR_Ok_iff, Forall2_length in Hdocs. congruence.
  - apply List.Forall_forall. intros c Hc. apply List.Forall_forall. intros s Hs.
    pose proof (assessment_dict_status _ _ _ _ Ejson Hc Hs) as Hser.
    unfold export_campaigns in Ec. apply bind_Ok in Ec as (ids & Hids & Ec).
    apply mapR_Ok_iff in Ec.
    destruct (Forall2_In_r _ _ _ _ Ec Hc) as (id & _ & Hdata).
    apply get_campaign_data_status in Hdata as (events & _ & Hloop).
    apply status_loop_spec in Hloop as (new & Hnew & HF). cbn [app] in Hnew.
    rewrite Hnew in Hs.
    destruct (Forall2_In_r _ _ _ _ HF Hs) as (ev & _ & Hof & Htime).
    destruct (status_is_success_or_failed _ _ Hof) as [Hok|Hfailed]; [exact Hok|].
    destruct (failed_status_time _ _ Hof Htime Hfailed) as (t & Ht).
    rewrite Ht in Hser. discriminate.
Qed.


End RunMainFacts.

Section RunSummaryFacts.
Import Py Exporter ExportSpec ExportRun RunSpec.
Local Open Scope string_scope.

Variable detect : pyval -> result pyval.

(** The summary document after the step of a campaign with a level: the
    eight fields set in the entry of the level, over what it held. *)
Lemma summary_step_data (a : api) campaign_id st st' c level :
  campaigns_get a campaign_id = Ok c ->
  campaign_level (c_name c) = Some level ->
  summary_step detect a campaign_id st = Ok st' ->
  exists d clicks total,
    campaign_data st !! level = Some (VDict d)
    /\ get_click_data detect a campaign_id = Ok clicks
    /\ campaigns_summary_clicked a campaign_id = Ok total
    /\ campaign_data st'
       = <[ level :=
              VDict (<[ "percent_clicks" :=
                          VFloat (percent_clicks
                                    (find_unique_target_clicks_count clicks) total) ]>
                    (<[ "unique_clicks" :=
                          VInt (find_unique_target_clicks_count clicks) ]>
                    (<[ "clicks" := VInt total ]>
                    (<[ "redirect" := c_url c ]>
                    (<[ "end_date" := c_completed_date c ]>
                    (<[ "start_date" := c_launch_date c ]>
                    (<[ "sender" := c_smtp_from_address c ]>
                    (<[ "subject" := c_template_subject c ]> d)))))))) ]>
           (campaign_data st).
Proof.
  intros Hget Hlevel H. unfold summary_step in H.
  rewrite (bind_eq_Ok _ _ _ Hget), Hlevel in H.
  apply bind_Ok in H as (clicks & Hclicks & H).
  apply bind_Ok in H as (total & Htotal & H).
  cbv zeta in H.
  apply bind_Ok in H as (d1 & H1 & H). apply set_level_Ok in H1 as (e1 & E1 & ->).
  apply bind_Ok in H as (d2 & H2 & H). apply set_level_Ok in H2 as (e2 & E2 & ->).
  rewrite lookup_insert_eq in E2. injection E2 as <-. rewrite insert_insert_eq in H.
  apply bind_Ok in H as (d3 & H3 & H). apply set_level_Ok in H3 as (e3 & E3 & ->).
  rewrite lookup_insert_eq in E3. injection E3 as <-. rewrite insert_insert_eq in H.
  apply bind_Ok in H as (d4 & H4 & H). apply set_level_Ok in H4 as (e4 & E4 & ->).
  rewrite lookup_insert_eq in E4. injection E4 as <-. rewrite insert_insert_eq in H.
  apply bind_Ok in H as (d5 & H5 & H). apply set_level_Ok in H5 as (e5 & E5 & ->).
  rewrite lookup_insert_eq in E5. injection E5 as <-. rewrite insert_insert_eq in H.
  apply bind_Ok in H as (d6 & H6 & H). apply set_level_Ok in H6 as (e6 & E6 & ->).
  rewrite lookup_insert_eq in E6. injection E6 as <-. rewrite insert_insert_eq in H.
  apply bind_Ok in H as (d7 & H7 & H). apply set_level_Ok in H7 as (e7 & E7 & ->).
  rewrite lookup_insert_eq in E7. injection E7 as <-. rewrite insert_insert_eq in H.
  apply bind_Ok in H as (d8 & H8 & H). apply set_level_Ok in H8 as (e8 & E8 & ->).
  rewrite lookup_insert_eq in E8. injection E8 as <-. rewrite insert_insert_eq in H.
  apply bind_Ok in H as (? & _ & H). apply bind_Ok in H as (? & _ & H).
  apply bind_Ok in H as (? & _ & H). apply bind_Ok in H as (? & _ & H).
  apply bind_Ok in H as (? & _ & H). apply bind_Ok in H as (? & _ & H).
  apply bind_Ok in H as (? & _ & H). apply bind_Ok in H as (? & _ & H).
  injection H as <-. cbn [campaign_data].
  exists e1, clicks, total. auto.
Qed.

(** X10.  The step of a campaign with a level changes the summary document in
    the entry of that level only, and there in the eight fields of the
    summary only: the entries of the other levels and the other keys of
    the entry are as before, and no entry appears or disappears.  The
    five descriptive fields hold the attributes of the campaign object. *)
Theorem summary_step_touches_one_level (a : api) (campaign_id : pyval)
    (st st' : summary_state) (c : campaign_obj) (level : string) :
  campaigns_get a campaign_id = Ok c ->
  campaign_level (c_name c) = Some level ->
  summary_step detect a campaign_id st = Ok st' ->
  (forall other, other <> level ->
                 campaign_data st' !! other = campaign_data st !! other)
  /\ (forall l, is_Some (campaign_data st' !! l) <-> is_Some (campaign_data st !! l))
  /\ (forall key,
         ~ In key ["subject"; "sender"; "start_date"; "end_date"; "redirect";
                   "clicks"; "unique_clicks"; "percent_clicks"] ->
         get_level (campaign_data st') level key
         = get_level (campaign_data st) level key)
  /\ get_level (campaign_data st') level "subject" = Ok (c_template_subject c)
  /\ get_level (campaign_data st') level "sender" = Ok (c_smtp_from_address c)
  /\ get_level (campaign_data st') level "start_date" = Ok (c_launch_date c)
  /\ get_level (campaign_data st') level "end_date" = Ok (c_completed_date c)
  /\ get_level (campaign_data st') level "redirect" = Ok (c_url c).
Proof.
  intros Hget Hlevel H.
  destruct (summary_step_data _ _ _ _ _ _ Hget Hlevel H)
    as (d & clicks & total & Hd & _ & _ & ->).
  split; [|split; [|split]].
  - intros other Hne. now rewrite lookup_insert_ne.
  - intros l. destruct (decide (level = l)) as [<-|Hne].
    + rewrite lookup_insert_eq, Hd. split; eauto.
    + now rewrite lookup_insert_ne.
  - intros key Hkey. rewrite get_level_insert.
    unfold get_level. cbn [getitem]. rewrite Hd.
    rewrite (bind_eq_Ok _ _ _ eq_refl). cbn [getitem].
    rewrite !lookup_insert_ne; [reflexivity|..];
      intros <-; apply Hkey; cbn; tauto.
  - rewrite !get_level_insert. repeat split; now simplify_map_eq.
Qed.

Lemma summary_step_keeps_absent (a : api) campaign_id st st' l :
  summary_step detect a campaign_id st = Ok st' ->
  campaign_data st !! l = None -> campaign_data st' !! l = None.
Proof.
  intros H Hl. pose proof H as H0. unfold summary_step in H0.
  apply bind_Ok in H0 as (c & Hget & H0).
  destruct (campaign_level (c_name c)) as [level|] eqn:Hlevel.
  - destruct (summary_step_data _ _ _ _ _ _ Hget Hlevel H)
      as (d & clicks & total & Hd & _ & _ & ->).
    rewrite lookup_insert_ne; [exact Hl|]. intros <-. congruence.
  - now injection H0 as <-.
Qed.

Lemma summary_loop_needs_level (a : api) campaign_id c level campaign_ids :
  In campaign_id campaign_ids ->
  campaigns_get a campaign_id = Ok c ->
  campaign_level (c_name c) = Some level ->
  forall st st',
    campaign_data st !! level = None ->
    summary_loop detect a campaign_ids st <> Ok st'.
Proof.
  intros Hin Hget Hlevel.
  induction campaign_ids as [|x rest IH]; intros st st' Hnone H; [destruct Hin|].
  cbn [summary_loop] in H. apply bind_Ok in H as (st1 & Hstep & H).
  destruct Hin as [->|Hin].
  - destruct (summary_step_data _ _ _ _ _ _ Hget Hlevel Hstep) as (d & _ & _ & Hd & _).
    congruence.
  - apply (IH Hin st1 st'); [|exact H].
    eapply summary_step_keeps_absent; eauto.
Qed.

(** X11.  The content of [campaign_data.json] must have an entry for the level
    of every campaign of the assessment: when it lacks the level of one
    of them, the step of that campaign raises [KeyError] for the level,
    and the summary as a whole raises, so that no summary JSON is
    written. *)
Theorem summary_needs_every_level (a : api) (assessment_id : string)
    (template : gmap string pyval) (campaign_ids : list pyval)
    (campaign_id : pyval) (c : campaign_obj) (level : string) :
  get_campaign_ids a assessment_id = Ok campaign_ids ->
  In campaign_id campaign_ids ->
  campaigns_get a campaign_id = Ok c ->
  campaign_level (c_name c) = Some level ->
  template !! level = None ->
  (exists e, write_campaign_summary detect a assessment_id template = Raise e)
  /\ (forall st clicks total,
         campaign_data st !! level = None ->
         get_click_data detect a campaign_id = Ok clicks ->
         campaigns_summary_clicked a campaign_id = Ok total ->
         summary_step detect a campaign_id st = Raise (KeyError level)).
Proof.
  intros Hids Hin Hget Hlevel Hnone. split.
  - destruct (write_campaign_summary detect a assessment_id template) as [st|e] eqn:E;
      [exfalso|eauto].
    unfold write_campaign_summary in E. rewrite (bind_eq_Ok _ _ _ Hids) in E.
    apply bind_Ok in E as (st1 & Hloop & _).
    revert Hloop. apply (summary_loop_needs_level _ _ _ _ _ Hin Hget Hlevel).
    exact Hnone.
  - intros st clicks total Hst Hclicks Htotal. unfold summary_step.
    rewrite (bind_eq_Ok _ _ _ Hget), Hlevel.
    rewrite (bind_eq_Ok _ _ _ Hclicks), (bind_eq_Ok _ _ _ Htotal).
    cbv zeta. unfold set_level at 8. now rewrite Hst.
Qed.

End RunSummaryFacts.

Section RunReportFacts.
Import Py Exporter ExportSpec ExportRun RunSpec.
Local Open Scope string_scope.

Variable detect : pyval -> result pyval.

(** The loop that finds the earliest click parses the times and keeps
    the earliest, and raises what the first text that does not parse
    raises. *)
Lemma first_report_loop_eq clicks : forall acc,
  first_report_loop clicks acc
  = (times ← click_times clicks; Ok (fold_left keep_earliest times acc)).
Proof.
  unfold click_times.
  induction clicks as [|k clicks IH]; intros acc; cbn [first_report_loop mapR];
    [reflexivity|].
  destruct (strptime_seconds (click_time k)) as [t|e]; [|reflexivity].
  rewrite !(bind_eq_Ok _ _ _ eq_refl). rewrite IH.
  destruct (mapR (fun k0 => strptime_seconds (click_time k0)) clicks) as [times|e];
    reflexivity.
Qed.

Lemma click_times_Permutation clicks clicks' :
  Permutation clicks clicks' ->
  forall times, click_times clicks = Ok times ->
  exists times', click_times clicks' = Ok times' /\ Permutation times times'.
Proof.
  unfold click_times.
  induction 1 as [|k l l' Hp IH|k1 k2 l|l l' l'' Hp1 IH1 Hp2 IH2];
    intros times H; cbn [mapR] in *.
  - injection H as <-. eauto.
  - apply bind_Ok in H as (t & Ht & H). apply bind_Ok in H as (ts & Hts & H).
    injection H as <-. destruct (IH _ Hts) as (ts' & Hts' & Hperm).
    exists (t :: ts'). rewrite (bind_eq_Ok _ _ _ Ht), (bind_eq_Ok _ _ _ Hts').
    split; [reflexivity|]. now constructor.
  - apply bind_Ok in H as (t2 & Ht2 & H). apply bind_Ok in H as (ts & Hts & H).
    injection H as <-.
    apply bind_Ok in Hts as (t1 & Ht1 & H). apply bind_Ok in H as (ts' & Hts' & H).
    injection H as <-.
    exists (t1 :: t2 :: ts').
    rewrite (bind_eq_Ok _ _ _ Ht1), (bind_eq_Ok _ _ _ Ht2), (bind_eq_Ok _ _ _ Hts').
    split; [reflexivity|]. apply perm_swap.
  - destruct (IH1 _ H) as (ts' & Hts' & Hperm1).
    destruct (IH2 _ Hts') as (ts'' & Hts'' & Hperm2).
    exists ts''. split; [exact Hts''|]. now transitivity ts'.
Qed.

Lemma earliest_unique m m' times times' :
  Permutation times times' -> earliest m times -> earliest m' times' -> m = m'.
Proof.
  intros Hp [Hin Hmin] [Hin' Hmin'].
  apply lt_total.
  - apply Hmin'. now rewrite <- Hp.
  - apply Hmin. now rewrite Hp.
Qed.

Lemma fold_keep_earliest_None times :
  match times with
  | [] => fold_left keep_earliest times None = None
  | _ :: _ => exists m, fold_left keep_earliest times None = Some m /\ earliest m times
  end.
Proof.
  destruct times as [|t ts]; [reflexivity|]. cbn [fold_left keep_earliest].
  apply fold_keep_earliest.
Qed.

(** X12.  The earliest click does not depend on the order in which the clicks
    come: on any rearrangement of the clicks the loop gives the same time
    (or, without clicks, none). *)
Theorem first_report_ignores_click_order (clicks clicks' : list click)
    (first : option datetime) :
  Permutation clicks clicks' ->
  first_report_loop clicks None = Ok first ->
  first_report_loop clicks' None = Ok first.
Proof.
  intros Hp H. rewrite first_report_loop_eq in *.
  apply bind_Ok in H as (times & Ht & H). injection H as <-.
  destruct (click_times_Permutation _ _ Hp _ Ht) as (times' & Ht' & Hperm).
  rewrite (bind_eq_Ok _ _ _ Ht'). f_equal.
  pose proof (fold_keep_earliest_None times) as H1.
  pose proof (fold_keep_earliest_None times') as H2.
  destruct times as [|t ts], times' as [|t' ts'].
  - reflexivity.
  - now apply Permutation_nil_cons in Hperm.
  - symmetry in Hperm. now apply Permutation_nil_cons in Hperm.
  - destruct H1 as (m & -> & Hm), H2 as (m' & -> & Hm'). f_equal.
    symmetry. exact (earliest_unique _ _ _ _ Hperm Hm Hm').
Qed.





End RunReportFacts.

Section RunLevelFacts.
Import Py Exporter ExportSpec ExportRun RunSpec.
Local Open Scope string_scope.

Lemma string_app_assoc (s t u : string) : (s ++ t) ++ u = s ++ (t ++ u).
Proof.
  induction s as [|c s IH]; [reflexivity|].
  rewrite !string_app_cons. now rewrite IH.
Qed.

Lemma string_app_nil_l (s : string) : "" ++ s = s.
Proof. reflexivity. Qed.

Lemma string_last_inj (s t : string) c d :
  s ++ String c "" = t ++ String d "" -> c = d.
Proof.
  revert t. induction s as [|a s IH]; intros [|b t] H.
  - now injection H.
  - rewrite string_app_cons in H. injection H as _ H.
    destruct t; discriminate.
  - rewrite string_app_cons in H. injection H as _ H.
    destruct s; discriminate.
  - rewrite !string_app_cons in H. injection H as _ H. now apply (IH t).
Qed.

Lemma level_digit d :
  Regex.in_range "1" "6" d = true ->
  In ("level-" ++ String d "")
     ["level-1"; "level-2"; "level-3"; "level-4"; "level-5"; "level-6"].
Proof.
  destruct d as [[] [] [] [] [] [] [] []]; intros H; try discriminate H;
    cbn; tauto.
Qed.

(** X14.  The level of a campaign is read off its name by the pattern
    [^.*_(?P<level>level-[1-6])$] on the whole name: a name has a level
    exactly when it is a text without a line break followed by
    ["_level-"] and one digit from 1 to 6, and the level is then
    ["level-"] with that digit.  So the level is one of six texts, and a
    name with a line break at its end has none. *)
Theorem campaign_level_pattern (name : string) :
  (forall level,
      campaign_level name = Some level <->
      exists prefix d,
        name = prefix ++ "_level-" ++ String d ""
        /\ count_char Regex.newline prefix = 0
        /\ Regex.in_range "1" "6" d = true
        /\ level = "level-" ++ String d "")
  /\ (forall level,
         campaign_level name = Some level ->
         In level ["level-1"; "level-2"; "level-3"; "level-4"; "level-5"; "level-6"])
  /\ campaign_level (name ++ nl) = None.
Proof.
  split; [|split].
  - intros level. apply campaign_level_Some.
  - intros level H. apply campaign_level_Some in H as (prefix & d & _ & _ & Hd & ->).
    now apply level_digit.
  - destruct (campaign_level (name ++ nl)) as [level|] eqn:E; [exfalso|reflexivity].
    apply campaign_level_Some in E as (prefix & d & Hname & _ & Hd & _).
    unfold nl in Hname.
    rewrite <- (string_app_assoc prefix "_level-" (String d "")) in Hname.
    apply string_last_inj in Hname. subst d. discriminate Hd.
Qed.

End RunLevelFacts.


(* ===================================================================== *)
(** ** The import as a whole *)
(* ===================================================================== *)

Section RunImportFacts.
Import Py Importer ImportSpec RunSpec.
Local Open Scope string_scope.

Context {S : Type}.
Variable srv : server S.

Lemma own_deletes k new seen olds rest :
  (forall old, In old olds -> In old seen /\ m_name old = m_name new) ->
  own_calls k new seen rest ->
  own_calls k new seen (map (deleted_ok (Of k)) olds ++ rest).
Proof.
  induction olds as [|old olds IH]; intros Hall Hrest; [exact Hrest|].
  cbn [map app own_calls deleted_ok own_call]. split.
  - split; [reflexivity|]. exists old.
    destruct (Hall old (or_introl eq_refl)) as [Hin Hname]. auto.
  - apply IH; [|exact Hrest]. intros o Ho. apply Hall. now right.
Qed.

Lemma same_named_listed new seen olds old :
  In old (List.filter (same_name new) olds) ->
  In old (seen ++ olds) /\ m_name old = m_name new.
Proof.
  intros H. apply filter_In in H as [Hin Hname]. split.
  - apply in_or_app. now right.
  - now apply String.eqb_eq in Hname.
Qed.

Lemma rounds_own k new n tr out :
  rounds k new n tr out -> forall seen, own_calls k new seen tr.
Proof.
  induction 1 as [n created|n e Hne|n e|n olds before old after e Hf
                 |n olds tr out Hr IH|]; intros seen.
  - cbn. auto.
  - cbn. auto.
  - cbn. auto.
  - cbn [app own_calls own_call]. split; [auto|]. split; [reflexivity|].
    apply own_deletes.
    + intros o Ho. apply same_named_listed. rewrite Hf.
      apply in_or_app. now left.
    + cbn [own_calls own_call]. split; [|exact I]. split; [reflexivity|].
      exists old. destruct (same_named_listed new seen olds old) as [Hin Hname].
      { rewrite Hf. apply in_or_app. right. now left. }
      auto.
  - cbn [app own_calls own_call]. split; [auto|]. split; [reflexivity|].
    apply own_deletes; [|apply IH].
    intros o Ho. now apply same_named_listed.
  - exact I.
Qed.

(** X15.  The create-or-replace loop for a resource stays on the endpoint of
    its kind, creates nothing but that resource, and deletes nothing but
    resources that a listing of the run showed under the name of that
    resource: no resource of another name is deleted, on any server. *)
Theorem upsert_stays_on_its_resource (fuel : nat) (k : kind) (new : model)
    (listing : option (list model)) (w : world S) :
  exists tr,
    calls (upsert srv fuel k new listing w).2 = (calls w ++ tr)%list
    /\ own_calls k new [] tr
    /\ Forall (fun e => entry_endpoint e = Of k) tr.
Proof.
  destruct (upsert_rounds srv fuel k new listing w) as (tr & Hc & Hr).
  exists tr. split; [exact Hc|]. split; [exact (rounds_own _ _ _ _ _ Hr [])|].
  pose proof (rounds_own _ _ _ _ _ Hr []) as Hown. clear Hc Hr.
  generalize dependent (@nil model). induction tr as [|e tr IH]; intros seen Hown;
    [constructor|].
  destruct Hown as [He Hrest]. constructor; [|exact (IH _ Hrest)].
  destruct e; cbn in He |- *; tauto.
Qed.

Lemma created_from_later k new_of log tr record :
  created_from k new_of log record -> created_from k new_of (log ++ tr) record.
Proof.
  intros (new & created & Hn & Hin). exists new, created.
  split; [exact Hn|]. apply in_or_app. now left.
Qed.

Lemma campaign_built_later log tr campaign :
  campaign_built log campaign -> campaign_built (log ++ tr) campaign.
Proof.
  intros (nt & t & ns & s & nc & created & Hnt & Ht & Hns & Hs & Hnc & Hc).
  exists nt, t, ns, s, nc, created.
  repeat split; auto; apply in_or_app; now left.
Qed.

Lemma call_post_Returns ep m (w w' : world S) created :
  call_post srv ep m w = (Returns created, w') ->
  calls w' = (calls w ++ [Posted ep m (Ok created)])%list.
Proof.
  rewrite call_post_eq. destruct (post srv ep m (remote w)) as [[c|e] s];
    cbn [of_result fst snd]; [|discriminate].
  now intros [= <- <-].
Qed.

Lemma call_get_extends ep (w w' : world S) o :
  call_get srv ep w = (o, w') -> exists tr, calls w' = (calls w ++ tr)%list.
Proof. rewrite call_get_eq. intros [= _ <-]. cbn [calls]. eauto. Qed.

Lemma delete_where_extends ep same olds (w w' : world S) o :
  delete_where srv ep same olds w = (o, w') ->
  exists tr, calls w' = (calls w ++ tr)%list.
Proof.
  intros H.
  destruct (delete_where_calls srv ep same olds w)
    as [(w1 & Hr & Hc)|(before & old & after & e & w1 & _ & Hr & Hc)];
    rewrite Hr in H; injection H as _ <-; eauto.
Qed.

(** A campaign that was built is in the log: its template, its sending
    profile, and the campaign with the two as the server answered them. *)
Lemma build_campaign_built fuel campaign (w w' : world S) :
  build_campaign srv fuel campaign w = (Returns tt, w') ->
  campaign_built (calls w') campaign
  /\ exists tr, calls w' = (calls w ++ tr)%list.
Proof.
  intros H. unfold build_campaign in H.
  apply bindM_Returns_inv in H as (n & w0 & Hname & H).
  apply lift_Returns_inv in Hname as [Hname ->].
  apply bindM_Returns_inv in H as (nt & w0 & Hnt & H).
  apply lift_Returns_inv in Hnt as [Hnt ->].
  apply bindM_Returns_inv in H as ([ct lt] & w1 & Hut & H).
  apply bindM_Returns_inv in H as (ns & w0 & Hns & H).
  apply lift_Returns_inv in Hns as [Hns ->].
  apply bindM_Returns_inv in H as ([cs ls] & w2 & Hus & H).
  apply bindM_Returns_inv in H as (olds & w3 & Hg & H).
  apply bindM_Returns_inv in H as ([] & w4 & Hd & H).
  apply bindM_Returns_inv in H as (m & w0 & Hm & H).
  apply lift_Returns_inv in Hm as [Hm ->].
  apply bindM_Returns_inv in H as (created & w5 & Hp & H).
  injection H as <-. cbn [fst] in *.
  apply upsert_returns in Hut as (tr1 & Hc1 & Hin1).
  apply upsert_returns in Hus as (tr2 & Hc2 & Hin2).
  apply call_get_extends in Hg as (tr3 & Hc3).
  apply delete_where_extends in Hd as (tr4 & Hc4).
  apply call_post_Returns in Hp.
  rewrite Hp, Hc4, Hc3, Hc2, Hc1. split.
  - exists nt, ct, ns, cs, m, created.
    repeat split; auto; rewrite ?in_app_iff; cbn [In]; tauto.
  - rewrite <- !app_assoc. eauto.
Qed.

Lemma campaigns_loop_built fuel campaigns : forall (w w' : world S),
  campaigns_loop srv fuel campaigns w = (Returns tt, w') ->
  Forall (campaign_built (calls w')) campaigns
  /\ exists tr, calls w' = (calls w ++ tr)%list.
Proof.
  induction campaigns as [|campaign rest IH]; intros w w' H; cbn [campaigns_loop] in H.
  - injection H as <-. split; [constructor|]. exists []. now rewrite app_nil_r.
  - apply bindM_Returns_inv in H as ([] & w1 & Hb & H).
    apply build_campaign_built in Hb as (Hbuilt & tr1 & Hc1).
    apply IH in H as (Hrest & tr2 & Hc2). split.
    + constructor; [|exact Hrest]. rewrite Hc2. now apply campaign_built_later.
    + exists (tr1 ++ tr2)%list. now rewrite Hc2, Hc1, app_assoc.
Qed.

Lemma id_captured_created k new_of log l l' :
  Forall2 (id_captured k new_of log) l l' -> Forall (created_from k new_of log) l.
Proof.
  induction 1 as [|r r' l l' (new & created & Hn & Hin & _) _ IH]; constructor;
    [|exact IH].
  now exists new, created.
Qed.

Lemma getitem_setitem_ne d k v d' k' :
  setitem d k v = Ok d' -> k <> k' -> getitem d' k' = getitem d k'.
Proof.
  destruct d; cbn; try discriminate. intros [= <-] Hne. cbn.
  now rewrite lookup_insert_ne.
Qed.

(** X16.  When [main] exits with code 0, every page, every group and every
    campaign of the assessment document was created on the server: the
    log has the accepted create of the object built from each page and
    each group, and for each campaign the accepted creates of its
    template, of its sending profile and of the campaign itself, which
    carries the template and the sending profile as the server answered
    them. *)
Theorem import_creates_everything (fuel : nat) (assessment : pyval)
    (w w' : world S) :
  main srv fuel assessment w = (Some 0%Z, w') ->
  exists pages groups campaigns,
    getitem assessment "pages" = Ok (VList pages)
    /\ getitem assessment "groups" = Ok (VList groups)
    /\ getitem assessment "campaigns" = Ok (VList campaigns)
    /\ Forall (created_from Page new_page_of (calls w')) pages
    /\ Forall (created_from Group new_group_of (calls w')) groups
    /\ Forall (campaign_built (calls w')) campaigns.
Proof.
  unfold main. intros H.
  destruct (import_assessment srv fuel assessment w) as [[[]|e|] w1] eqn:E;
    try discriminate.
  injection H as <-. unfold import_assessment in E.
  apply bindM_Returns_inv in E as (rp & w2 & Hlp & E).
  apply bindM_Returns_inv in E as (a1 & w0 & Ha1 & E).
  apply lift_Returns_inv in Ha1 as [Ha1 ->].
  apply bindM_Returns_inv in E as (rg & w3 & Hlg & E).
  apply bindM_Returns_inv in E as (a2 & w0 & Ha2 & E).
  apply lift_Returns_inv in Ha2 as [Ha2 ->].
  (* the pages *)
  unfold load_landings in Hlp.
  apply bindM_Returns_inv in Hlp as (pages & wp & Hp & Hlp).
  apply lift_Returns_inv in Hp as [Hp ->].
  apply bindM_Returns_inv in Hlp as (pages' & wp & Hll & Hlp).
  injection Hlp as <- <-.
  apply bind_Ok in Hp as (p & Hp & Hlist).
  destruct p; try discriminate. injection Hlist as ->.
  apply landings_loop_ids, id_captured_created in Hll.
  (* the groups *)
  pose proof Hlg as Hlg0. unfold load_groups in Hlg.
  apply bindM_Returns_inv in Hlg as (groups & wg & Hg & Hlg).
  apply lift_Returns_inv in Hg as [Hg ->].
  apply bindM_Returns_inv in Hlg as ([groups' listing'] & wg & Hgl & Hlg).
  injection Hlg as _ <-.
  apply bind_Ok in Hg as (g & Hg & Hlist).
  destruct g; try discriminate. injection Hlist as ->.
  rewrite (getitem_setitem_ne _ _ _ _ _ Ha1) in Hg by discriminate.
  apply groups_loop_ids in Hgl as (Hgroups & trg & Hcg & _).
  apply id_captured_created in Hgroups.
  (* the campaigns *)
  unfold build_campaigns in E.
  apply bindM_Returns_inv in E as (campaigns & wc & Hc & E).
  apply lift_Returns_inv in Hc as [Hc ->].
  apply bind_Ok in Hc as (c & Hc & Hlist).
  destruct c; try discriminate. injection Hlist as ->.
  rewrite (getitem_setitem_ne _ _ _ _ _ Ha2) in Hc by discriminate.
  rewrite (getitem_setitem_ne _ _ _ _ _ Ha1) in Hc by discriminate.
  apply campaigns_loop_built in E as (Hcampaigns & trc & Hcc).
  exists pages, groups, campaigns.
  split; [exact Hp|]. split; [exact Hg|]. split; [exact Hc|].
  split; [|split; [|exact Hcampaigns]].
  - rewrite Hcc, Hcg, <- app_assoc.
    eapply Forall_impl; [exact Hll|]. intros r Hr. now apply created_from_later.
  - rewrite Hcc.
    eapply Forall_impl; [exact Hgroups|]. intros r Hr. now apply created_from_later.
Qed.

End RunImportFacts.

Section RunImportFacts2.
Import Py Importer ImportSpec RunSpec.
Local Open Scope string_scope.

Context {S : Type}.
Variable srv : server S.

Lemma getitem_Ok d k v :
  getitem d k = Ok v -> exists m, d = VDict m /\ m !! k = Some v.
Proof.
  destruct d; cbn; try discriminate.
  destruct (d !! k) eqn:E; [|discriminate]. intros [= <-]. eauto.
Qed.

(** X18.  The sending profile gets a username and a password only when the
    record has both keys: with one of them missing, neither is set, and
    the one that is there is dropped without a word.  The profile always
    has the interface type SMTP and ignores certificate errors. *)
Theorem smtp_credentials_both_or_none (campaign : pyval) (m : model) :
  new_smtp_of campaign = Ok m ->
  exists smtp,
    getitem campaign "smtp" = Ok (VDict smtp)
    /\ match smtp !! "username", smtp !! "password" with
       | Some username, Some password =>
           m_attrs m !! "username" = Some username
           /\ m_attrs m !! "password" = Some password
       | _, _ =>
           m_attrs m !! "username" = None /\ m_attrs m !! "password" = None
       end
    /\ m_attrs m !! "host" = smtp !! "host"
    /\ m_attrs m !! "from_address" = smtp !! "from_address"
    /\ m_attrs m !! "interface_type" = Some (VStr "SMTP")
    /\ m_attrs m !! "ignore_cert_errors" = Some (VBool true).
Proof.
  unfold new_smtp_of. intros H.
  apply bind_Ok in H as (smtp & Hsmtp & H).
  apply bind_Ok in H as (name & Hname & H).
  apply getitem_Ok in Hname as (d & -> & Hname).
  apply bind_Ok in H as (n & Hn & H).
  apply bind_Ok in H as (host & Hhost & H).
  apply bind_Ok in H as (from & Hfrom & H).
  apply getitem_Ok in Hhost as (d1 & [= <-] & Hhost).
  apply getitem_Ok in Hfrom as (d2 & [= <-] & Hfrom).
  cbv zeta in H. cbn [has_key] in H.
  rewrite (bind_eq_Ok _ _ _ eq_refl) in H.
  exists d. split; [exact Hsmtp|].
  rewrite Hhost, Hfrom.
  destruct (d !! "username") as [username|] eqn:Eu.
  - cbn [has_key] in H. rewrite (bind_eq_Ok _ _ _ eq_refl) in H.
    destruct (d !! "password") as [password|] eqn:Ep.
    + cbn [andb getitem] in H. rewrite Eu, Ep in H.
      rewrite !(bind_eq_Ok _ _ _ eq_refl) in H. injection H as <-.
      cbn [m_attrs]. repeat split; now simplify_map_eq.
    + cbn [andb] in H. injection H as <-.
      cbn [m_attrs]. repeat split; now simplify_map_eq.
  - rewrite (bind_eq_Ok _ _ _ eq_refl) in H. cbn [andb] in H. injection H as <-.
    cbn [m_attrs]. destruct (d !! "password"); repeat split; now simplify_map_eq.
Qed.

(** X19.  The campaign record is read last.  When the record cannot be made a
    campaign (a key such as ["page_name"] is missing), the import finds
    that out only after it has created the template and the sending
    profile and deleted every campaign of the same name: it raises then,
    with the old campaigns gone and no new one created. *)
Theorem campaign_record_checked_last (fuel : nat) (campaign name : pyval)
    (new_template new_smtp : model)
    (template smtp : model * option (list model)) (olds : list model)
    (e : exn) (w w1 w2 w3 w4 : world S) :
  getitem campaign "name" = Ok name ->
  new_template_of campaign = Ok new_template ->
  upsert srv fuel Template new_template None w = (Returns template, w1) ->
  new_smtp_of campaign = Ok new_smtp ->
  upsert srv fuel SMTP new_smtp None w1 = (Returns smtp, w2) ->
  call_get srv Campaigns w2 = (Returns olds, w3) ->
  delete_where srv Campaigns (fun old => eq_str name (m_name old)) olds w3
  = (Returns tt, w4) ->
  new_campaign_of campaign template.1 smtp.1 = Raise e ->
  build_campaign srv fuel campaign w = (Raises e, w4)
  /\ calls w4
     = (calls w2 ++ Listed Campaigns (Ok olds)
          :: map (deleted_ok Campaigns)
               (List.filter (fun old => eq_str name (m_name old)) olds))%list
  /\ quietly_extends w w4.
Proof.
  intros Hname Hnt Hut Hns Hus Hg Hd Hnc. split; [|split].
  - unfold build_campaign.
    rewrite (bindM_Returns _ _ w name w) by (now rewrite lift_eq, Hname).
    rewrite (bindM_Returns _ _ w new_template w) by (now rewrite lift_eq, Hnt).
    rewrite (bindM_Returns _ _ _ _ _ Hut).
    rewrite (bindM_Returns _ _ w1 new_smtp w1) by (now rewrite lift_eq, Hns).
    rewrite (bindM_Returns _ _ _ _ _ Hus).
    rewrite (bindM_Returns _ _ _ _ _ Hg).
    rewrite (bindM_Returns _ _ _ _ _ Hd).
    apply bindM_Raises. now rewrite lift_eq, Hnc.
  - destruct (delete_where_calls srv Campaigns
                (fun old => eq_str name (m_name old)) olds w3)
      as [(w' & Hr & Hc)|(before & old & after & e' & w' & _ & Hr & _)];
      rewrite Hr in Hd; [|discriminate].
    injection Hd as ->. rewrite Hc.
    rewrite call_get_eq in Hg.
    destruct (get srv Campaigns (remote w2)) as [[olds'|e'] s];
      cbn [of_result fst snd] in Hg; [|discriminate].
    injection Hg as <- <-. cbn [calls]. now rewrite <- app_assoc.
  - destruct (quiet_upsert srv fuel Template new_template None w) as (tr1 & Hc1 & Hq1).
    rewrite Hut in Hc1. cbn [snd] in Hc1.
    destruct (quiet_upsert srv fuel SMTP new_smtp None w1) as (tr2 & Hc2 & Hq2).
    rewrite Hus in Hc2. cbn [snd] in Hc2.
    destruct (quiet_call_get srv Campaigns w2) as (tr3 & Hc3 & Hq3).
    rewrite Hg in Hc3. cbn [snd] in Hc3.
    destruct (quiet_delete_where srv Campaigns
                (fun old => eq_str name (m_name old)) olds w3) as (tr4 & Hc4 & Hq4).
    rewrite Hd in Hc4. cbn [snd] in Hc4.
    exists (tr1 ++ tr2 ++ tr3 ++ tr4)%list. split.
    + rewrite Hc4, Hc3, Hc2, Hc1. now rewrite <- !app_assoc.
    + repeat (apply Forall_app; split); assumption.
Qed.

End RunImportFacts2.


(* ===================================================================== *)
(** ** The statements at work on the sample assessment *)
(* ===================================================================== *)

Import Py Exporter ExportSpec Fixture.
Local Open Scope string_scope.

(** The timeline of the first sample campaign: two clicks and two send
    statuses out of six events. *)
Lemma timeline_classification_witness :
  exists clicks status,
    click_loop detect_linux timeline1 [] = Ok clicks
    /\ status_loop timeline1 [] = Ok status
    /\ Forall2 click_of [ev_click1; ev_click2] clicks
    /\ Forall2 status_of [ev_sent; ev_failed] status.
Proof.
  destruct (timeline_classification detect_linux timeline1) as [Hc Hs].
  assert (filter (fun ev => is_click ev = true) timeline1 = [ev_click1; ev_click2])
    as Ec by (vm_compute; reflexivity).
  assert (filter (fun ev => is_send ev = true) timeline1 = [ev_sent; ev_failed])
    as Es by (vm_compute; reflexivity).
  rewrite Ec in Hc. rewrite Es in Hs.
  exists (value_or (click_loop detect_linux timeline1 []) []),
    (value_or (status_loop timeline1 []) []).
  assert (click_loop detect_linux timeline1 []
          = Ok (value_or (click_loop detect_linux timeline1 []) []))
    as Hclicks by (vm_compute; reflexivity).
  assert (status_loop timeline1 [] = Ok (value_or (status_loop timeline1 []) []))
    as Hstatus by (vm_compute; reflexivity).
  split; [exact Hclicks|]. split; [exact Hstatus|].
  split; [exact (Hc _ Hclicks) | exact (Hs _ Hstatus)].
Defined.

Lemma timestamp_precision_witness :
  exists clicks status,
    click_loop detect_linux timeline1 [] = Ok clicks
    /\ status_loop timeline1 [] = Ok status
    /\ Forall2 click_time_raw [ev_click1; ev_click2] clicks
    /\ Forall2 status_time [ev_sent; ev_failed] status
    /\ strptime_seconds (VStr "2025-01-01T13:00:06.987654Z")
       = Ok (mkdt 2025 1 1 13 0 6).
Proof.
  destruct (timestamp_precision detect_linux timeline1) as (Hc & Hs & Ht).
  assert (filter (fun ev => is_click ev = true) timeline1 = [ev_click1; ev_click2])
    as Ec by (vm_compute; reflexivity).
  assert (filter (fun ev => is_send ev = true) timeline1 = [ev_sent; ev_failed])
    as Es by (vm_compute; reflexivity).
  rewrite Ec in Hc. rewrite Es in Hs.
  exists (value_or (click_loop detect_linux timeline1 []) []),
    (value_or (status_loop timeline1 []) []).
  assert (click_loop detect_linux timeline1 []
          = Ok (value_or (click_loop detect_linux timeline1 []) []))
    as Hclicks by (vm_compute; reflexivity).
  assert (status_loop timeline1 [] = Ok (value_or (status_loop timeline1 []) []))
    as Hstatus by (vm_compute; reflexivity).
  split; [exact Hclicks|]. split; [exact Hstatus|].
  split; [exact (Hc _ Hclicks)|]. split; [exact (Hs _ Hstatus)|].
  apply (Ht (mkdt 2025 1 1 13 0 6) "987654Z"). vm_compute. reflexivity.
Defined.

(** A click whose agent string the parser does not recognise: the record
    has the platform fields, with value [None]. *)
Lemma get_application_platform_witness :
  exists app,
    get_application detect_nothing ev_click2 = Ok app
    /\ app !! "external_ip" = Some (VStr "10.0.0.8")
    /\ app !! "name" = Some VNone
    /\ app !! "version" = Some VNone.
Proof.
  apply (get_application_platform detect_nothing ev_click2
           (VStr "10.0.0.8") (VStr "curl/8.0") no_platform_report
           (VDict (<[ "version" := VNone ]> {[ "name" := VNone ]})) VNone VNone);
    vm_compute; reflexivity.
Defined.

(** C7 as the specification words it fails on that click: the record is
    produced, and its platform fields are not omitted. *)
Lemma platform_fields_not_omitted :
  (exists app, get_application detect_nothing ev_click2 = Ok app
               /\ app !! "name" = Some VNone /\ app !! "version" = Some VNone)
  /\ ~ platform_fields_omitted (get_application detect_nothing ev_click2).
Proof.
  split.
  - exists (value_or (get_application detect_nothing ev_click2) ∅).
    repeat split; vm_compute; reflexivity.
  - assert (match get_application detect_nothing ev_click2 with
            | Ok app => app !! "name"
            | Raise _ => None
            end = Some VNone) as H by (vm_compute; reflexivity).
    intros (app & Happ & Hname & _). rewrite Happ in H. congruence.
Qed.

(** The first sample campaign uses the template "RVXXX1-T1-ID"; the third
    one the template "RVXXX1-T3". *)
Lemma template_name_needs_two_hyphens_witness :
  (exists c, get_campaign_data detect_linux demo_api (VInt 1) = Ok c
             /\ cd_template c = "ID")
  /\ get_campaign_data detect_linux demo_api (VInt 3) = Raise IndexError.
Proof.
  split.
  - exists (value_or (get_campaign_data detect_linux demo_api (VInt 1))
              (mkCampaign VNone VNone VNone VNone VNone "" [] [])).
    split; vm_compute; reflexivity.
  - destruct (template_name_needs_two_hyphens detect_linux demo_api (VInt 3)) as [_ H].
    apply (H campaign3 (VStr "RVXXX1-C3_level-3") (VStr "2025-01-01T13:00:00Z")
             (VStr "2025-01-01T14:00:00Z") (VStr "http://bad.domain/camp1")
             (dict [("id", VInt 12); ("subject", VStr "Campaign 1")])
             (VStr "Campaign 1") (VInt 12)
             (dict [("id", VInt 12); ("name", VStr "RVXXX1-T3")]) "RVXXX1-T3");
      vm_compute; reflexivity.
Defined.

(** Total-clicked 10 and two distinct clickers among three clicks: 0.2. *)
Lemma click_percentage_witness :
  percent_clicks
    (find_unique_target_clicks_count
       [mkClick "A" VNone VNone ∅; mkClick "B" VNone VNone ∅; mkClick "A" VNone VNone ∅])
    10 = Q2Qc (1 # 5)
  /\ (0 <= percent_clicks
             (find_unique_target_clicks_count
                [mkClick "A" VNone VNone ∅; mkClick "B" VNone VNone ∅;
                 mkClick "A" VNone VNone ∅]) 10 <= 1)%Qc.
Proof.
  destruct (click_percentage
              [mkClick "A" VNone VNone ∅; mkClick "B" VNone VNone ∅;
               mkClick "A" VNone VNone ∅] 10) as (Hdiv & _ & _ & Hbound).
  split.
  - rewrite Hdiv by lia. apply Qc_is_canon. vm_compute. reflexivity.
  - apply Hbound. vm_compute. discriminate.
Defined.

(** C5 as the specification words it fails on the fourth sample campaign:
    three distinct targets clicked and the server counts two, so the
    summary records 3/2. *)
Lemma click_percentage_above_one :
  find_unique_target_clicks_count
    [mkClick "A" VNone VNone ∅; mkClick "B" VNone VNone ∅; mkClick "C" VNone VNone ∅]
  = 3%Z
  /\ (exists st,
        summary_step detect_linux demo_api (VInt 4) summary_start = Ok st
        /\ get_level (campaign_data st) "level-2" "unique_clicks" = Ok (VInt 3)
        /\ get_level (campaign_data st) "level-2" "clicks" = Ok (VInt 2)
        /\ get_level (campaign_data st) "level-2" "percent_clicks"
           = Ok (VFloat (percent_clicks 3 2)))
  /\ percent_clicks 3 2 = Q2Qc (3 # 2)
  /\ ~ (percent_clicks 3 2 <= 1)%Qc.
Proof.
  split; [vm_compute; reflexivity|].
  split.
  { exists (value_or (summary_step detect_linux demo_api (VInt 4) summary_start)
              summary_start).
    repeat split; vm_compute; reflexivity. }
  split; [apply Qc_is_canon; vm_compute; reflexivity|].
  intros H. vm_compute in H. apply H. reflexivity.
Qed.

(** The second sample campaign, "RVXXX1-C2", has no level suffix: it is
    skipped and the first one is processed after it. *)
Lemma unmatched_campaign_skipped_witness :
  summary_step detect_linux demo_api (VInt 2) summary_start
  = Ok (mkSummary summary_template [] [LogWarning skip_warning "RVXXX1-C2"])
  /\ summary_loop detect_linux demo_api [VInt 2; VInt 1] summary_start
     = summary_loop detect_linux demo_api [VInt 1]
         (mkSummary summary_template [] [LogWarning skip_warning "RVXXX1-C2"])
  /\ exists st, summary_loop detect_linux demo_api [VInt 2; VInt 1] summary_start = Ok st.
Proof.
  destruct (unmatched_campaign_skipped detect_linux demo_api (VInt 2) summary_start)
    as [H _].
  destruct (H campaign2 [VInt 1]) as [Hstep Hloop].
  { reflexivity. }
  { apply no_level_no_suffix; vm_compute; reflexivity. }
  split; [exact Hstep|]. split; [exact Hloop|].
  exists (value_or (summary_loop detect_linux demo_api [VInt 2; VInt 1] summary_start)
            summary_start).
  vm_compute. reflexivity.
Defined.

(** The first sample campaign was clicked at 13:10:00.5 and then at
    13:09:59.75; the second one was never clicked. *)
Lemma first_report_is_earliest_click_witness :
  (exists doc, user_report detect_linux demo_api "RVXXX1" (VInt 1) = Ok doc
               /\ first_report doc = "2025-01-01T13:09:59")
  /\ user_report detect_linux demo_api "RVXXX1" (VInt 2)
     = Ok (mkReport "" "RVXXX1" (VInt 2) "No clicks reported" 0).
Proof.
  split.
  - exists (mkReport "" "RVXXX1" (VInt 1) "2025-01-01T13:09:59" 1).
    split; vm_compute; reflexivity.
  - destruct (first_report_is_earliest_click detect_linux demo_api "RVXXX1" (VInt 2)
                (value_or (get_campaign_data detect_linux demo_api (VInt 2))
                   (mkCampaign VNone VNone VNone VNone VNone "" [] [])))
      as [_ H]; [vm_compute; reflexivity|].
    apply H; vm_compute; reflexivity.
Defined.

Import Importer ImportSpec Sim.


(** On the used server a campaign of the name is there: it is listed and
    deleted before the create, and one campaign of the name is left. *)
Lemma campaign_created_after_deletes_witness :
  guarded (calls (main sim 3 assessment1 used).2)
  /\ (exists before new answer,
        calls (main sim 3 assessment1 used).2
        = (before ++ [Listed Campaigns (Ok [old_campaign]);
                      Deleted Campaigns (Some 3%Z) (Ok tt);
                      Posted Campaigns new answer])%list)
  /\ map m_id (campaigns_of (main sim 3 assessment1 used).2) = [Some 12%Z].
Proof.
  split; [|split].
  - apply (campaign_created_after_deletes sim 3 assessment1 (remote used)).
  - exists (firstn 7 (calls (main sim 3 assessment1 used).2)).
    eexists _, _. vm_compute. reflexivity.
  - vm_compute. reflexivity.
Defined.

(** C2 fails on the used server.  [load_landings] hands back the
    assessment's page record with the id of the created page, and so does
    [load_groups] on the fresh server, where the group is created at the
    first attempt; but where the group meets a name conflict, [load_groups]
    hands back the listing it fetched to resolve the conflict: the model
    object of the old group (id 7), which it has just deleted, and not the
    assessment's record with the new id. *)
Theorem load_groups_returns_listing_after_conflict :
  (exists page,
      (load_landings sim 3 assessment1 used).1 = Returns (Records [page])
      /\ getitem page "name" = Ok (VStr "RVXXX1-AutoForward")
      /\ getitem page "id" = Ok (VInt 8))
  /\ (exists group,
         (load_groups sim 3 assessment1 fresh).1 = Returns (Records [group])
         /\ getitem group "name" = Ok (VStr "RVXXX1-G1")
         /\ getitem group "id" = Ok (VInt 1))
  /\ (load_groups sim 3 assessment1 used).1 = Returns (Models [old_group])
  /\ m_id old_group = Some 7%Z.
Proof.
  split; [|split; [|split]].
  - exists (value_or (setitem page1 "id" (VInt 8)) VNone).
    repeat split; vm_compute; reflexivity.
  - exists (value_or (setitem group1 "id" (VInt 1)) VNone).
    repeat split; vm_compute; reflexivity.
  - vm_compute. reflexivity.
  - reflexivity.
Qed.

(* ===================================================================== *)
(** ** Whole runs on the sample assessments *)
(* ===================================================================== *)

Import ExportRun RunSpec FixtureRun SimRun.

(** On the sample server the four campaigns of the first assessment are
    found, and the assessment exists. *)
Lemma assessment_exists_agrees_witness :
  exists ids,
    get_campaign_ids demo_api "RVXXX1" = Ok ids
    /\ length ids = 4
    /\ assessment_exists demo_api "RVXXX1" = Ok true.
Proof.
  destruct (assessment_exists_agrees demo_api "RVXXX1"
              [Fixture.campaign1; campaign2; campaign3; campaign4] eq_refl)
    as (ids & Hids & Hlen & Hex).
  { repeat constructor; try (vm_compute; reflexivity);
      eexists; vm_compute; reflexivity. }
  exists ids. split; [exact Hids|].
  assert (length ids = 4) as H4 by (rewrite Hlen; vm_compute; reflexivity).
  split; [exact H4|]. rewrite Hex, H4. reflexivity.
Defined.

(** The group of the first assessment has John, with a position, and
    Jane, without: two targets, in that order. *)
Lemma export_targets_anonymized_witness :
  exists targets,
    export_targets demo_groups "RVXXX1" = Ok targets
    /\ Forall2 (exported_target "RVXXX1") [raw_john; raw_jane] targets
    /\ labels_of "RVXXX1" raw_john = {[ "RVXXX1" := VList [VStr "IT"] ]}
    /\ labels_of "RVXXX1" raw_jane = ∅.
Proof.
  exists (Fixture.value_or (export_targets demo_groups "RVXXX1") []).
  assert (export_targets demo_groups "RVXXX1"
          = Ok (Fixture.value_or (export_targets demo_groups "RVXXX1") []))
    as E by (vm_compute; reflexivity).
  split; [exact E|].
  destruct (export_targets_anonymized _ _ _ E) as (ids & raws & Hids & Hraws & HF).
  assert (get_group_ids demo_groups "RVXXX1" = Ok [VInt 21]) as E1
    by (vm_compute; reflexivity).
  rewrite E1 in Hids. injection Hids as <-.
  apply Forall2_cons_inv_l in Hraws as (r & rs & Hr & Hrs & ->).
  apply Forall2_nil_inv_l in Hrs as ->.
  assert (raw_targets_of demo_groups (VInt 21) = Ok [raw_john; raw_jane]) as E2
    by (vm_compute; reflexivity).
  rewrite E2 in Hr. injection Hr as <-.
  split; [exact HF|]. split; vm_compute; reflexivity.
Defined.

(** John as a target and John's click have the same identifier. *)
Lemma target_id_joins_events_witness :
  exists target c,
    target_of "RVXXX1" raw_john = Ok target
    /\ click_of_event detect_linux ev_click1 = Ok (Some c)
    /\ getitem target "id" = Ok (VStr (click_user c)).
Proof.
  exists (Fixture.value_or (target_of "RVXXX1" raw_john) VNone),
    (match click_of_event detect_linux ev_click1 with
     | Ok (Some c) => c
     | _ => mkClick "" VNone VNone ∅
     end).
  assert (target_of "RVXXX1" raw_john
          = Ok (Fixture.value_or (target_of "RVXXX1" raw_john) VNone))
    as Ht by (vm_compute; reflexivity).
  assert (click_of_event detect_linux ev_click1
          = Ok (Some (match click_of_event detect_linux ev_click1 with
                      | Ok (Some c) => c
                      | _ => mkClick "" VNone VNone ∅
                      end)))
    as Hc by (vm_compute; reflexivity).
  split; [exact Ht|]. split; [exact Hc|].
  destruct (target_id_joins_events detect_linux "RVXXX1" raw_john _ ev_click1
              (VStr john) Ht) as [Hjoin _];
    [vm_compute; reflexivity|vm_compute; reflexivity|].
  exact (Hjoin _ Hc).
Defined.

(** The first assessment has a campaign whose template has one hyphen
    only: nothing is exported.  The second assessment exports its two
    campaigns. *)
Lemma export_is_all_or_nothing_witness :
  export_campaigns detect_linux demo_api "RVXXX1" = Raise IndexError
  /\ exists c5 c6,
       get_campaign_data detect_linux clean_api (VInt 5) = Ok c5
       /\ get_campaign_data detect_linux clean_api (VInt 6) = Ok c6
       /\ export_campaigns detect_linux clean_api "RVXXX2" = Ok [c5; c6].
Proof.
  split.
  - destruct (export_campaigns detect_linux demo_api "RVXXX1") as [cs|e] eqn:E.
    + exfalso.
      destruct (export_is_all_or_nothing detect_linux demo_api "RVXXX1"
                  [VInt 1; VInt 2; VInt 3; VInt 4]) as (_ & _ & Hfail);
        [vm_compute; reflexivity|].
      destruct (Hfail (VInt 3) IndexError) as [Hno _];
        [cbn; tauto|vm_compute; reflexivity|].
      exact (Hno cs E).
    + revert E. vm_compute. intros E. exact (eq_sym E).
  - set (dflt := mkCampaign VNone VNone VNone VNone VNone "" [] []).
    exists (Fixture.value_or (get_campaign_data detect_linux clean_api (VInt 5)) dflt),
      (Fixture.value_or (get_campaign_data detect_linux clean_api (VInt 6)) dflt).
    assert (get_campaign_data detect_linux clean_api (VInt 5)
            = Ok (Fixture.value_or
                    (get_campaign_data detect_linux clean_api (VInt 5)) dflt))
      as E5 by (vm_compute; reflexivity).
    assert (get_campaign_data detect_linux clean_api (VInt 6)
            = Ok (Fixture.value_or
                    (get_campaign_data detect_linux clean_api (VInt 6)) dflt))
      as E6 by (vm_compute; reflexivity).
    split; [exact E5|]. split; [exact E6|].
    destruct (export_is_all_or_nothing detect_linux clean_api "RVXXX2"
                [VInt 5; VInt 6]) as (Hall & _);
      [vm_compute; reflexivity|].
    apply Hall. repeat constructor; assumption.
Defined.

(** The first campaign of the first assessment has a send failure: the
    export of that assessment ends in the encoder, with nothing written. *)
Lemma main_stops_on_send_failure_witness :
  has_send_failure timeline1 = true
  /\ ExportRun.main detect_linux clean_api demo_groups "RVXXX1" summary_template
     = ([], Uncaught TypeError).
Proof.
  split; [vm_compute; reflexivity|].
  apply (main_stops_on_send_failure detect_linux clean_api demo_groups "RVXXX1"
           summary_template
           (Fixture.value_or (export_targets demo_groups "RVXXX1") [])
           (Fixture.value_or (export_campaigns detect_linux clean_api "RVXXX1") [])
           [VInt 1] (VInt 1) timeline1);
    try (vm_compute; reflexivity).
  now left.
Defined.

(** The second assessment has no send failure: its export writes the data
    file, two user reports, the summary text and the summary JSON. *)
Lemma main_done_outputs_witness :
  exists out docs,
    ExportRun.main detect_linux clean_api demo_groups "RVXXX2" summary_template
    = (out, Done)
    /\ export_user_reports detect_linux clean_api "RVXXX2" = Ok docs
    /\ length docs = 2
    /\ length out = 5.
Proof.
  set (run := ExportRun.main detect_linux clean_api demo_groups "RVXXX2"
                summary_template).
  assert (run = (run.1, Done)) as E by (vm_compute; reflexivity).
  destruct (main_done_outputs detect_linux clean_api demo_groups "RVXXX2"
              summary_template run.1 E)
    as (targets & campaigns & docs & st & Ht & Hc & Hd & Hs & Hout & Hlen & _).
  exists run.1, docs. split; [exact E|]. split; [exact Hd|].
  assert (length (Fixture.value_or
                    (export_campaigns detect_linux clean_api "RVXXX2") []) = 2)
    as H2 by (vm_compute; reflexivity).
  rewrite Hc in H2. cbn [Fixture.value_or] in H2.
  split; [congruence|]. vm_compute. reflexivity.
Defined.


(** The two campaigns of the second assessment are both of level 2: the
    step of the second leaves the entry of level 1 alone and overwrites
    the entry of level 2, which ends with the one click of the second. *)
Lemma summary_step_touches_one_level_witness :
  exists st1 st2,
    summary_step detect_linux clean_api (VInt 5) summary_start = Ok st1
    /\ summary_step detect_linux clean_api (VInt 6) st1 = Ok st2
    /\ campaign_data st2 !! "level-1" = campaign_data st1 !! "level-1"
    /\ get_level (campaign_data st1) "level-2" "clicks" = Ok (VInt 3)
    /\ get_level (campaign_data st2) "level-2" "clicks" = Ok (VInt 1).
Proof.
  set (st1 := Fixture.value_or
                (summary_step detect_linux clean_api (VInt 5) summary_start)
                summary_start).
  set (st2 := Fixture.value_or (summary_step detect_linux clean_api (VInt 6) st1)
                summary_start).
  assert (summary_step detect_linux clean_api (VInt 6) st1 = Ok st2) as E2
    by (vm_compute; reflexivity).
  exists st1, st2. split; [vm_compute; reflexivity|]. split; [exact E2|].
  destruct (summary_step_touches_one_level detect_linux clean_api (VInt 6) st1 st2
              campaign6 "level-2") as (Hother & _);
    [reflexivity|vm_compute; reflexivity|exact E2|].
  split; [apply Hother; discriminate|]. split; vm_compute; reflexivity.
Defined.

(** With a [campaign_data.json] without level 2 the summary of the second
    assessment raises, at its first campaign, [KeyError] for the level. *)
Lemma summary_needs_every_level_witness :
  (exists e,
      write_campaign_summary detect_linux clean_api "RVXXX2" template_without_level2
      = Raise e)
  /\ summary_step detect_linux clean_api (VInt 5)
       (mkSummary template_without_level2 [] [])
     = Raise (KeyError "level-2").
Proof.
  destruct (summary_needs_every_level detect_linux clean_api "RVXXX2"
              template_without_level2 [VInt 5; VInt 6] (VInt 5) campaign5 "level-2")
    as [Hraise Hstep];
    try (vm_compute; reflexivity); [now left|].
  split; [exact Hraise|].
  apply (Hstep _ (Fixture.value_or (get_click_data detect_linux clean_api (VInt 5)) [])
           3%Z);
    vm_compute; reflexivity.
Defined.

(** The two clicks of the first sample campaign, in the order of the
    timeline and in the other order: the same first report. *)
Lemma first_report_ignores_click_order_witness :
  exists c1 c2,
    click_loop detect_linux timeline1 [] = Ok [c1; c2]
    /\ first_report_loop [c1; c2] None = Ok (Some (mkdt 2025 1 1 13 9 59))
    /\ first_report_loop [c2; c1] None = Ok (Some (mkdt 2025 1 1 13 9 59)).
Proof.
  set (clicks := Fixture.value_or (click_loop detect_linux timeline1 []) []).
  set (dflt := mkClick "" VNone VNone ∅).
  set (c1 := Fixture.value_or (index clicks 0) dflt).
  set (c2 := Fixture.value_or (index clicks 1) dflt).
  assert (first_report_loop [c1; c2] None = Ok (Some (mkdt 2025 1 1 13 9 59)))
    as E by (vm_compute; reflexivity).
  exists c1, c2. split; [vm_compute; reflexivity|]. split; [exact E|].
  apply (first_report_ignores_click_order [c1; c2] [c2; c1]); [|exact E].
  apply perm_swap.
Defined.


(** The sample assessment on the fresh server: [main] exits with code 0
    and the log has the creates of the template, the sending profile and
    the campaign. *)
Lemma import_creates_everything_witness :
  exists w',
    Importer.main sim 3 assessment1 fresh = (Some 0%Z, w')
    /\ Forall (campaign_built (calls w')) [Sim.campaign1]
    /\ Forall (created_from Page new_page_of (calls w')) [page1]
    /\ Forall (created_from Group new_group_of (calls w')) [group1].
Proof.
  set (w' := (Importer.main sim 3 assessment1 fresh).2).
  assert (Importer.main sim 3 assessment1 fresh = (Some 0%Z, w')) as E
    by (vm_compute; reflexivity).
  exists w'. split; [exact E|].
  destruct (import_creates_everything sim 3 assessment1 fresh w' E)
    as (pages & groups & campaigns & Hp & Hg & Hc & Hpages & Hgroups & Hbuilt).
  assert (getitem assessment1 "pages" = Ok (VList [page1])) as Ep
    by (vm_compute; reflexivity).
  assert (getitem assessment1 "groups" = Ok (VList [group1])) as Eg
    by (vm_compute; reflexivity).
  assert (getitem assessment1 "campaigns" = Ok (VList [Sim.campaign1])) as Ecs
    by (vm_compute; reflexivity).
  rewrite Ep in Hp. injection Hp as <-.
  rewrite Eg in Hg. injection Hg as <-.
  rewrite Ecs in Hc. injection Hc as <-.
  auto.
Defined.

(** A sending profile with a username and no password: neither is set. *)
Lemma smtp_credentials_both_or_none_witness :
  exists m,
    new_smtp_of campaign_user_only = Ok m
    /\ getitem smtp_user_only "username" = Ok (VStr "mailer")
    /\ m_attrs m !! "username" = None
    /\ m_attrs m !! "password" = None.
Proof.
  set (m := built (new_smtp_of campaign_user_only)).
  assert (new_smtp_of campaign_user_only = Ok m) as E by (vm_compute; reflexivity).
  exists m. split; [exact E|]. split; [vm_compute; reflexivity|].
  destruct (smtp_credentials_both_or_none campaign_user_only m E)
    as (smtp & Hs & Hcred & _).
  assert (getitem campaign_user_only "smtp" = Ok smtp_user_only) as Es
    by (vm_compute; reflexivity).
  unfold smtp_user_only, dict in Es. rewrite Es in Hs. injection Hs as <-.
  vm_compute in Hcred. exact Hcred.
Defined.

(** On the used server the campaign record without a page name: the
    template and the sending profile are created and the old campaign of
    the name is deleted before the record is found wanting; the server is
    left without a campaign of that name. *)
Lemma campaign_record_checked_last_witness :
  exists w4,
    build_campaign sim 3 campaign_no_page used = (Raises (KeyError "page_name"), w4)
    /\ campaigns_of used = [old_campaign]
    /\ campaigns_of w4 = [].
Proof.
  set (nt := built (new_template_of campaign_no_page)).
  set (ns := built (new_smtp_of campaign_no_page)).
  set (none := (mkModel None "" ∅, @None (list model))).
  set (r1 := upsert sim 3 Template nt None used).
  set (r2 := upsert sim 3 SMTP ns None r1.2).
  set (r3 := call_get sim Campaigns r2.2).
  set (r4 := delete_where sim Campaigns
               (fun old => eq_str (VStr "RVXXX1-C1_level-1") (m_name old))
               (returned_or r3.1 []) r3.2).
  exists r4.2.
  destruct (campaign_record_checked_last sim 3 campaign_no_page
              (VStr "RVXXX1-C1_level-1") nt ns
              (returned_or r1.1 none) (returned_or r2.1 none) (returned_or r3.1 [])
              (KeyError "page_name") used r1.2 r2.2 r3.2 r4.2)
    as (Hraise & _);
    try (vm_compute; reflexivity).
  split; [exact Hraise|]. split; vm_compute; reflexivity.
Defined.

(** On the used server, which holds a campaign of the name, the campaign
    of the sample assessment is built: one campaign of the name is left. *)
Lemma build_campaign_leaves_one_witness :
  exists name,
    getitem Sim.campaign1 "name" = Ok (VStr name)
    /\ length (List.filter (fun m => String.eqb (m_name m) name)
                 (campaigns_of (build_campaign sim 3 Sim.campaign1 used).2)) = 1
    /\ campaigns_of used = [old_campaign].
Proof.
  destruct (build_campaign_leaves_one 3 Sim.campaign1 used
              (build_campaign sim 3 Sim.campaign1 used).2)
    as (name & Hname & Hone); [vm_compute; reflexivity|].
  exists name. split; [exact Hname|]. split; [exact Hone|reflexivity].
Defined.
